(** * Verification of the EverQuest zone decoder: archive reader (s3d.py)
      and scene-description decoder (wld.py).

    The development is a shallow embedding of the Python sources.  Python
    code that threads a cursor and raises exceptions is written in a small
    state-and-exception monad; Python objects that are shared and mutated
    (FragRef objects, fragment payloads) live in explicit stores. *)

From Stdlib Require Import ZArith List Bool Lia Floats Uint63 Strings.Byte Ascii String.
From stdpp Require Import gmap strings list fin_maps pretty.
From Stdlib Require Import Sorting.Sorted.

#[local] Set Warnings "-register-all,-inexact-float".
Local Open Scope Z_scope.

(** ** Exceptions and the state-and-exception monad *)

(** The Python exceptions the modelled code can raise.  [RecursionError] is
    what CPython raises when the interpreter's recursion limit is exceeded;
    [OutOfFuel] and [BadPointer] are not Python exceptions: the first
    marks a loop of the model that ran out of its iteration bound, the second
    a pointer of the model with no object in its store. *)
Inductive exn : Set :=
| AssertionError
| TruncatedDataError
| KeyError
| IndexError
| TypeError
| AttributeError
| ValueError
| OverflowError
| ZlibError
| RecursionError
| OutOfFuel
| BadPointer.

#[global] Instance exn_eq_dec : EqDecision exn.
Proof. solve_decision. Defined.

Inductive outcome (A : Type) : Type :=
| Ok (a : A)
| Raise (e : exn).
Arguments Ok {A} a.
Arguments Raise {A} e.

(** A computation over a mutable state [S].  The state survives an
    exception, as it does in Python: an assignment made before a [raise] is
    still visible to an enclosing [except]. *)
Definition M (S A : Type) : Type := S -> outcome A * S.

Definition ret {S A} (a : A) : M S A := fun s => (Ok a, s).
Definition raise {S A} (e : exn) : M S A := fun s => (Raise e, s).
Definition bind {S A B} (m : M S A) (k : A -> M S B) : M S B :=
  fun s => match m s with
           | (Ok a, s') => k a s'
           | (Raise e, s') => (Raise e, s')
           end.
Definition get {S} : M S S := fun s => (Ok s, s).
Definition put {S} (s : S) : M S unit := fun _ => (Ok tt, s).
Definition modify {S} (f : S -> S) : M S unit := fun s => (Ok tt, f s).
Definition assert {S} (b : bool) : M S unit :=
  if b then ret tt else raise AssertionError.

Declare Scope monad_scope.
Delimit Scope monad_scope with monad.
Notation "'let!' x ':=' m 'in' k" := (bind m (fun x => k))
  (at level 10, x name, m at level 200, k at level 200) : monad_scope.
Notation "'let!' ' p ':=' m 'in' k" := (bind m (fun x => match x with p => k end))
  (at level 10, p strict pattern, m at level 200, k at level 200) : monad_scope.
Notation "'do!' m 'in' k" := (bind m (fun _ => k))
  (at level 10, m at level 200, k at level 200) : monad_scope.
Local Open Scope monad_scope.

(** [for x in xs: body x] *)
Fixpoint forM_ {S A} (xs : list A) (body : A -> M S unit) : M S unit :=
  match xs with
  | [] => ret tt
  | x :: xs' => do! body x in forM_ xs' body
  end.

(** [[f() for _ in range(n)]] *)
Fixpoint replicateM {S A} (n : nat) (m : M S A) : M S (list A) :=
  match n with
  | O => ret []
  | S n' => let! x := m in let! xs := replicateM n' m in ret (x :: xs)
  end.

(** [[f(x) for x in xs]] *)
Fixpoint mapM {S A B} (f : A -> M S B) (xs : list A) : M S (list B) :=
  match xs with
  | [] => ret []
  | x :: xs' => let! y := f x in let! ys := mapM f xs' in ret (y :: ys)
  end.

(** Run a computation of a component of the state on the whole state. *)
Definition zoom {S T A} (proj : S -> T) (upd : T -> S -> S) (m : M T A) : M S A :=
  fun s => let '(r, t) := m (proj s) in (r, upd t s).

(** ** Bytes and little-endian integers *)

Definition byte_val (b : byte) : Z := Z.of_N (Byte.to_N b).

Definition byte_of_Z (z : Z) : byte :=
  match Byte.of_N (Z.to_N (z mod 256)) with
  | Some b => b
  | None => x00
  end.

Definition bytes_of (zs : list Z) : list byte := map byte_of_Z zs.

(** Value of a little-endian byte string, as [struct.unpack("<I", ...)]. *)
Fixpoint le_uint (bs : list byte) : Z :=
  match bs with
  | [] => 0
  | b :: bs' => byte_val b + 256 * le_uint bs'
  end.

(** Two's complement reading of a [w]-bit unsigned value. *)
Definition to_signed (w : Z) (z : Z) : Z :=
  if z <? 2 ^ (w - 1) then z else z - 2 ^ w.

(** [n] bytes of [z], least significant first, as [struct.pack("<I", z)]. *)
Fixpoint le_bytes (n : nat) (z : Z) : list byte :=
  match n with
  | O => []
  | S n' => byte_of_Z z :: le_bytes n' (z / 256)
  end.

(** ** IEEE single precision values as Python floats

    [struct.unpack("<f", ...)] yields the binary64 float that equals the
    binary32 value; every binary32 value is exactly representable. *)
(** Python's [float]: IEEE binary64. *)
Abbreviation pyfloat := PrimFloat.float.

Definition float_of_Z (z : Z) : pyfloat :=
  if z <? 0 then PrimFloat.opp (PrimFloat.of_uint63 (Uint63.of_Z (- z)))
  else PrimFloat.of_uint63 (Uint63.of_Z z).

Definition float_of_f32_bits (bits : Z) : pyfloat :=
  let sign := Z.testbit bits 31 in
  let e := Z.land (Z.shiftr bits 23) 255 in
  let m := Z.land bits (2 ^ 23 - 1) in
  let mag :=
    if e =? 255 then (if m =? 0 then PrimFloat.infinity else PrimFloat.nan)
    else if e =? 0 then Z.ldexp (float_of_Z m) (-149)
    else Z.ldexp (float_of_Z (2 ^ 23 + m)) (e - 150) in
  if sign then PrimFloat.opp mag else mag.

(** ** The byte cursor *)

Module Buffer.

(** Modelled from the spec: buffer.py is not among the sources.  Section 4.2
    of the specification describes the cursor: read N bytes and advance;
    fixed-width little-endian unsigned and signed integers (8, 16, 32 bits)
    and IEEE floats, singly or in runs of N; a 3-float vector; absolute
    position get and set; relative advance; a read that would exceed the
    buffer fails with [TruncatedDataError]. *)
Record t : Type := mk { data : list byte; pos : Z }.

Definition read (n : Z) : M t (list byte) :=
  fun b =>
    if (0 <=? pos b) && (0 <=? n) && (pos b + n <=? Z.of_nat (length (data b)))
    then (Ok (take (Z.to_nat n) (drop (Z.to_nat (pos b)) (data b))),
          mk (data b) (pos b + n))
    else (Raise TruncatedDataError, b).

(** [b.pos = p] (and [fp.seek(p)] on the file the buffer wraps). *)
Definition set_pos (p : Z) : M t unit := fun b => (Ok tt, mk (data b) p).
Definition get_pos : M t Z := fun b => (Ok (pos b), b).
(** [b += n] *)
Definition advance (n : Z) : M t unit := fun b => (Ok tt, mk (data b) (pos b + n)).

Definition uint : M t Z := let! bs := read 4 in ret (le_uint bs).
Definition int : M t Z := let! bs := read 4 in ret (to_signed 32 (le_uint bs)).
Definition ushort : M t Z := let! bs := read 2 in ret (le_uint bs).
Definition short : M t Z := let! bs := read 2 in ret (to_signed 16 (le_uint bs)).
Definition uchar : M t Z := let! bs := read 1 in ret (le_uint bs).
Definition char : M t Z := let! bs := read 1 in ret (to_signed 8 (le_uint bs)).
Definition float : M t pyfloat := let! bs := read 4 in ret (float_of_f32_bits (le_uint bs)).

(** [b.uint(n)] and the like: a run of [n] values. *)
Definition uintN (n : Z) : M t (list Z) := replicateM (Z.to_nat n) uint.
Definition intN (n : Z) : M t (list Z) := replicateM (Z.to_nat n) int.
Definition ushortN (n : Z) : M t (list Z) := replicateM (Z.to_nat n) ushort.
Definition shortN (n : Z) : M t (list Z) := replicateM (Z.to_nat n) short.
Definition floatN (n : Z) : M t (list pyfloat) := replicateM (Z.to_nat n) float.
Definition vec3 : M t (list pyfloat) := floatN 3.

End Buffer.

(** ** zlib streams made of stored blocks

    [zlib.decompress] is a library function.  The archive reader takes it as
    a parameter; the concrete archives below use [zlib_stored], which decodes
    the zlib streams whose deflate blocks are all of the stored (BTYPE = 00)
    kind and checks the Adler-32 trailer.  It answers [None] on anything
    else (a stream zlib rejects, or one with Huffman-coded blocks, which
    this function does not decode). *)
Definition adler32 (bs : list byte) : Z :=
  let '(a, b) :=
    fold_left (fun '(a, b) x =>
                 let a' := (a + byte_val x) mod 65521 in
                 (a', (b + a') mod 65521))
              bs (1, 0) in
  b * 65536 + a.

Fixpoint be_uint (bs : list byte) (acc : Z) : Z :=
  match bs with
  | [] => acc
  | b :: bs' => be_uint bs' (acc * 256 + byte_val b)
  end.

Fixpoint stored_blocks (fuel : nat) (bs : list byte) (out : list byte)
  : option (list byte * list byte) :=
  match fuel with
  | O => None
  | S fuel' =>
      match bs with
      | hdr :: l0 :: l1 :: n0 :: n1 :: rest =>
          let len := le_uint [l0; l1] in
          if negb (Z.land (byte_val hdr) 6 =? 0) then None
          else if negb (Z.lxor len 65535 =? le_uint [n0; n1]) then None
          else if Z.of_nat (length rest) <? len then None
          else
            let out' := out ++ take (Z.to_nat len) rest in
            let rest' := drop (Z.to_nat len) rest in
            if Z.testbit (byte_val hdr) 0 then Some (out', rest')
            else stored_blocks fuel' rest' out'
      | _ => None
      end
  end.

Definition zlib_stored (bs : list byte) : option (list byte) :=
  match bs with
  | cmf :: flg :: rest =>
      if negb (byte_val cmf =? 120) then None
      else if negb ((byte_val cmf * 256 + byte_val flg) mod 31 =? 0) then None
      else if Z.testbit (byte_val flg) 5 then None
      else
        match stored_blocks (length rest) rest [] with
        | Some (out, trailer) =>
            if (length trailer =? 4)%nat && (be_uint trailer 0 =? adler32 out)
            then Some out else None
        | None => None
        end
  | _ => None
  end.

(** ** The archive reader (s3d.py) *)

Module S3D.

(** Stable sort on the file offset, as [filelist.sort(key=lambda x: x[0])]. *)
Fixpoint insert_by_offset {A} (x : Z * A) (l : list (Z * A)) : list (Z * A) :=
  match l with
  | [] => [x]
  | y :: l' => if x.1 <=? y.1 then x :: y :: l' else y :: insert_by_offset x l'
  end.

Fixpoint sort_by_offset {A} (l : list (Z * A)) : list (Z * A) :=
  match l with
  | [] => []
  | x :: l' => insert_by_offset x (sort_by_offset l')
  end.

(** [bytes.strip(b"\0")] *)
Fixpoint lstrip_nul (bs : list byte) : list byte :=
  match bs with
  | x00 :: bs' => lstrip_nul bs'
  | _ => bs
  end.

Definition strip_nul (bs : list byte) : list byte :=
  rev (lstrip_nul (rev (lstrip_nul bs))).

Definition DIRECTORY_CRC : Z := 0x61580AC9.

Section Reader.

(** [zlib.decompress]; [None] stands for [zlib.error]. *)
Variable decompress : list byte -> option (list byte).

(** Python's [str], and [.decode("utf-8", errors="ignore")] followed by
    [.lower()], both built-ins. *)
Context {K : Type} `{Countable K}.
Variable decode_lower : list byte -> K.

(** The loop [while len(data) < size: ...] of one directory entry. *)
Fixpoint read_chunks (fuel : nat) (size : Z) (data : list byte)
  : M Buffer.t (list byte) :=
  if Z.of_nat (length data) <? size then
    match fuel with
    | O => raise OutOfFuel
    | S fuel' =>
        let! deflen := Buffer.uint in
        let! inflen := Buffer.uint in
        let! raw := Buffer.read deflen in
        match decompress raw with
        | None => raise ZlibError
        | Some plain => read_chunks fuel' size (data ++ plain)
        end
    end
  else ret data.

(** One turn of [for i in range(count)]. *)
Definition read_entry (fuel : nat) (offset : Z) (i : Z)
  (acc : option (list byte) * list (Z * list byte))
  : M Buffer.t (option (list byte) * list (Z * list byte)) :=
  do! Buffer.set_pos (offset + 4 + i * 12) in
  let! crc := Buffer.uint in
  let! foff := Buffer.uint in
  let! size := Buffer.uint in
  do! Buffer.set_pos foff in
  let! data := read_chunks fuel size [] in
  if crc =? DIRECTORY_CRC then ret (Some data, acc.2)
  else ret (acc.1, acc.2 ++ [(foff, data)]).

Fixpoint read_entries (fuel : nat) (offset : Z) (n : nat) (i : Z)
  (acc : option (list byte) * list (Z * list byte))
  : M Buffer.t (option (list byte) * list (Z * list byte)) :=
  match n with
  | O => ret acc
  | S n' =>
      let! acc' := read_entry fuel offset i acc in
      read_entries fuel offset n' (i + 1) acc'
  end.

(** The loop [for _, data in filelist: ...] over the directory blob. *)
Fixpoint read_names (filelist : list (Z * list byte)) (files : gmap K (list byte))
  : M Buffer.t (gmap K (list byte)) :=
  match filelist with
  | [] => ret files
  | (_, data) :: rest =>
      let! len := Buffer.uint in
      let! raw := Buffer.read len in
      read_names rest (<[decode_lower (strip_nul raw) := data]> files)
  end.

(** [b"PFS "] *)
Definition PFS_MAGIC : list Z := [80; 70; 83; 32].

(** [readS3D(fp)]: the outcome, run from the start of the file. *)
Definition readS3D (fp : list byte) : outcome (gmap K (list byte)) :=
  let fuel := S (length fp) in
  let main : M Buffer.t (option (list byte) * list (Z * list byte)) :=
    let! offset := Buffer.uint in
    let! magic := Buffer.read 4 in
    do! assert (bool_decide (map byte_val magic = PFS_MAGIC)) in
    do! Buffer.set_pos offset in
    let! count := Buffer.uint in
    read_entries fuel offset (Z.to_nat count) 0 (None, []) in
  match main (Buffer.mk fp 0) with
  | (Raise e, _) => Raise e
  | (Ok (directory, filelist), _) =>
      let filelist := sort_by_offset filelist in
      match directory with
      | None => Raise AssertionError
      | Some directory =>
          let names : M Buffer.t (gmap K (list byte)) :=
            let! n := Buffer.uint in
            do! assert (n =? Z.of_nat (length filelist)) in
            read_names filelist ∅ in
          (names (Buffer.mk directory 0)).1
      end
  end.

End Reader.

End S3D.

(** File names restricted to ASCII: on bytes below 128, decoding as UTF-8
    is the identity and [str.lower] maps [A-Z] to [a-z]. *)
Definition ascii_lower (bs : list byte) : list Z :=
  map (fun b => let c := byte_val b in
                if (65 <=? c) && (c <=? 90) then c + 32 else c) bs.

(** Encoders used to write the concrete archives and streams below. *)
Definition u32 (z : Z) : list byte := le_bytes 4 z.
Definition u16 (z : Z) : list byte := le_bytes 2 z.

(** A zlib stream holding [plain] in one stored block. *)
Definition zlib_store (plain : list byte) : list byte :=
  bytes_of [120; 1; 1] ++ u16 (Z.of_nat (length plain))
    ++ u16 (Z.lxor (Z.of_nat (length plain)) 65535) ++ plain
    ++ rev (u32 (adler32 plain)).

(** One chunk of a file: the two length fields, then the compressed bytes. *)
Definition chunk (inflen : Z) (plain : list byte) : list byte :=
  u32 (Z.of_nat (length (zlib_store plain))) ++ u32 inflen ++ zlib_store plain.

(** ** Python strings over the code points 0..255

    Every string the scene decoder handles is built by [chr] from one byte
    ([decodeString]), so Rocq's 8-bit characters represent them exactly. *)

Definition chr (z : Z) : ascii := ascii_of_N (Z.to_N z).
Definition ord (c : ascii) : Z := Z.of_N (N_of_ascii c).

Fixpoint str_drop (n : nat) (s : string) : string :=
  match n, s with
  | O, _ => s
  | S n', String _ s' => str_drop n' s'
  | S _, EmptyString => EmptyString
  end.

(** [s[i:]], with Python's reading of a negative start. *)
Definition str_from (s : string) (i : Z) : string :=
  let n := Z.of_nat (String.length s) in
  str_drop (Z.to_nat (if i <? 0 then Z.max 0 (n + i) else i)) s.

(** [s.split("\0", 1)[0]] *)
Fixpoint until_nul (s : string) : string :=
  match s with
  | EmptyString => EmptyString
  | String c s' => if ord c =? 0 then EmptyString else String c (until_nul s')
  end.

(** [s[:-1]] *)
Fixpoint str_init (s : string) : string :=
  match s with
  | EmptyString => EmptyString
  | String c EmptyString => EmptyString
  | String c s' => String c (str_init s')
  end.

(** [s.replace(old, "")] for a non-empty [old]; [skip] counts the characters
    of a match still to be dropped. *)
Fixpoint str_remove_aux (old : string) (skip : nat) (s : string) : string :=
  match s with
  | EmptyString => EmptyString
  | String c s' =>
      match skip with
      | S k => str_remove_aux old k s'
      | O => if String.prefix old s
             then str_remove_aux old (String.length old - 1) s'
             else String c (str_remove_aux old 0 s')
      end
  end.
Definition str_remove (old s : string) : string := str_remove_aux old 0 s.

(** [str.lower] on the code points 0..255: [A-Z] and the upper-case letters
    of Latin-1 (0xC0..0xDE except the multiplication sign) move up by 32. *)
Definition lower_char (c : ascii) : ascii :=
  let z := ord c in
  if ((65 <=? z) && (z <=? 90)) || ((192 <=? z) && (z <=? 222) && negb (z =? 215))
  then chr (z + 32) else c.
Fixpoint str_lower (s : string) : string :=
  match s with
  | EmptyString => EmptyString
  | String c s' => String (lower_char c) (str_lower s')
  end.

(** ** Python values and objects of the scene decoder *)

(** Values.  A [FragRef] object is a pointer [VFragRef a] into the store of
    reference objects.  The payload a handler builds for fragment [i] (a
    dict, list or tuple) is one object, shared by every table and every
    reference that holds it; [VObj i] is the pointer to it, and its contents
    live in the store of payload objects. *)
Inductive pyval : Type :=
| VNone
| VBool (b : bool)
| VInt (z : Z)
| VFloat (f : pyfloat)
| VStr (s : string)
| VTuple (l : list pyval)
| VList (l : list pyval)
| VDict (d : list (string * pyval))
| VFragRef (a : nat)
| VObj (i : Z).

(** [d[k] = v] on a dict with string keys, in insertion order. *)
Fixpoint dict_set (k : string) (v : pyval) (d : list (string * pyval))
  : list (string * pyval) :=
  match d with
  | [] => [(k, v)]
  | (k', v') :: d' =>
      if String.eqb k k' then (k, v) :: d' else (k', v') :: dict_set k v d'
  end.

Fixpoint dict_get (k : string) (d : list (string * pyval)) : option pyval :=
  match d with
  | [] => None
  | (k', v') :: d' => if String.eqb k k' then Some v' else dict_get k d'
  end.

(** An insertion-ordered dict with integer keys ([self.frags]). *)
Fixpoint od_get {V} (k : Z) (d : list (Z * V)) : option V :=
  match d with
  | [] => None
  | (k', v) :: d' => if k =? k' then Some v else od_get k d'
  end.

Fixpoint od_set {V} (k : Z) (v : V) (d : list (Z * V)) : list (Z * V) :=
  match d with
  | [] => [(k, v)]
  | (k', v') :: d' => if k =? k' then (k, v) :: d' else (k', v') :: od_set k v d'
  end.

(** The scene graph the converters fill.

    Modelled from the spec: zonefile.py is not among the sources.  Section 3
    of the specification: a Material is a flag set, an ordered list of
    texture byte blobs and a parameter value; a Mesh is a Material, a vertex
    buffer, an ordered list of triangles and a collidability flag; a Zone
    holds the world object, the named objects with their meshes, the lights
    and the placeables, each an ordered sequence that only grows; a
    Placeable is a back-reference to an Object, here the object's place in
    [objects], with a position, a rotation and a scale. *)
Record Material : Type := mkMaterial {
  mat_flags : pyval; mat_textures : list (list byte); mat_params : pyval }.
Record VertexBuffer : Type := mkVertexBuffer { vb_data : list pyval; vb_count : Z }.
Record Mesh : Type := mkMesh {
  mesh_material : Material; mesh_vbuf : VertexBuffer;
  mesh_polys : list pyval; mesh_collidable : bool }.
Record Placeable : Type := mkPlaceable {
  pl_obj : nat; pl_position : pyval; pl_rotation : pyval; pl_scale : pyval }.
Record Zone : Type := mkZone {
  zoneobj : list Mesh;
  objects : list (string * list Mesh);
  lights : list (list pyval);
  placeables : list Placeable }.

(** The place in [os] of the object named [name].  Where several objects
    carry the name, the specification does not say which one a placement
    means; this takes the first, and no property below depends on that. *)
Fixpoint find_object (name : string) (os : list (string * list Mesh)) : option nat :=
  match os with
  | [] => None
  | o :: os' => if String.eqb name o.1 then Some O else S <$> find_object name os'
  end.

Definition empty_zone : Zone := mkZone [] [] [] [].

(** Modelled from the spec: zonefile.py is not among the sources.  The flag
    constants, with the values the comments of direct_gltf_export.py give
    for them (FLAG_MASKED = 1 << 0, FLAG_TRANSLUCENT = 1 << 1,
    FLAG_TRANSPARENT = 1 << 2). *)
Definition FLAG_MASKED : Z := Z.shiftl 1 0.
Definition FLAG_TRANSLUCENT : Z := Z.shiftl 1 1.
Definition FLAG_TRANSPARENT : Z := Z.shiftl 1 2.

(** ** utility.py *)

(** What [for x in v] yields for the built-in containers. *)
Definition iter_items (v : pyval) : option (list pyval) :=
  match v with
  | VTuple l | VList l => Some l
  | VDict d => Some (map (fun kv => VStr kv.1) d)
  | VStr s => Some (map (fun c => VStr (String c EmptyString)) (list_ascii_of_string s))
  | _ => None
  end.

Fixpoint zip3 (a b c : list pyval) : list pyval :=
  match a, b, c with
  | x :: a', y :: b', z :: c' => VTuple [x; y; z] :: zip3 a' b' c'
  | _, _, _ => []
  end.

(** [interleave(a, b, c)]: [list(chain.from_iterable(zip(a, b, c)))]. *)
Definition interleave (a b c : list pyval) : list pyval :=
  concat (map (fun t => match t with VTuple l => l | _ => [] end) (zip3 a b c)).

Definition is_seq (v : pyval) : bool :=
  match v with VTuple _ | VList _ => true | _ => false end.

(** One turn of the loop of [flatten]: [[item for sub in x for item in sub]];
    [None] is the [TypeError] of iterating a value that is not iterable. *)
Fixpoint flatten_once (x : list pyval) : option (list pyval) :=
  match x with
  | [] => Some []
  | sub :: x' =>
      match iter_items sub, flatten_once x' with
      | Some items, Some rest => Some (items ++ rest)
      | _, _ => None
      end
  end.

(** [flatten(x)]; the loop runs at most [fuel] times. *)
Fixpoint flatten (fuel : nat) (x : list pyval) : outcome (list pyval) :=
  match x with
  | first :: _ =>
      if is_seq first then
        match fuel with
        | O => Raise OutOfFuel
        | S fuel' =>
            match flatten_once x with
            | Some x' => flatten fuel' x'
            | None => Raise TypeError
            end
        end
      else Ok x
  | [] => Ok x
  end.

(** ** The scene-description decoder (wld.py) *)

Module Wld.

(** [class FragRef]: [self.wld] is the one decoder of the state. *)
Record FragRef : Type := mkFragRef {
  ref_id : option Z; ref_name : option string; ref_value : pyval }.

(** The attributes of a [Wld] object, the two object stores, and the [zone]
    handed to the converters.  [frags] keeps insertion order, which the
    rebake pass iterates; a name is [None] (Python's [None]) or a string. *)
Record t : Type := mk {
  b : Buffer.t;
  s3d : gmap string (list byte);
  texture_warnings : gmap string Z;
  old : bool;
  stringTable : string;
  baked : bool;
  frags : list (Z * pyval);
  names : gmap (option string) pyval;
  byType : gmap Z (list pyval);
  refs : list FragRef;
  objs : gmap Z pyval;
  zone : Zone }.

Definition set_b (x : Buffer.t) (w : t) : t :=
  mk x (s3d w) (texture_warnings w) (old w) (stringTable w) (baked w)
     (frags w) (names w) (byType w) (refs w) (objs w) (zone w).
Definition set_texture_warnings (x : gmap string Z) (w : t) : t :=
  mk (b w) (s3d w) x (old w) (stringTable w) (baked w)
     (frags w) (names w) (byType w) (refs w) (objs w) (zone w).
Definition set_old (x : bool) (w : t) : t :=
  mk (b w) (s3d w) (texture_warnings w) x (stringTable w) (baked w)
     (frags w) (names w) (byType w) (refs w) (objs w) (zone w).
Definition set_stringTable (x : string) (w : t) : t :=
  mk (b w) (s3d w) (texture_warnings w) (old w) x (baked w)
     (frags w) (names w) (byType w) (refs w) (objs w) (zone w).
Definition set_baked (x : bool) (w : t) : t :=
  mk (b w) (s3d w) (texture_warnings w) (old w) (stringTable w) x
     (frags w) (names w) (byType w) (refs w) (objs w) (zone w).
Definition set_frags (x : list (Z * pyval)) (w : t) : t :=
  mk (b w) (s3d w) (texture_warnings w) (old w) (stringTable w) (baked w)
     x (names w) (byType w) (refs w) (objs w) (zone w).
Definition set_names (x : gmap (option string) pyval) (w : t) : t :=
  mk (b w) (s3d w) (texture_warnings w) (old w) (stringTable w) (baked w)
     (frags w) x (byType w) (refs w) (objs w) (zone w).
Definition set_byType (x : gmap Z (list pyval)) (w : t) : t :=
  mk (b w) (s3d w) (texture_warnings w) (old w) (stringTable w) (baked w)
     (frags w) (names w) x (refs w) (objs w) (zone w).
Definition set_refs (x : list FragRef) (w : t) : t :=
  mk (b w) (s3d w) (texture_warnings w) (old w) (stringTable w) (baked w)
     (frags w) (names w) (byType w) x (objs w) (zone w).
Definition set_objs (x : gmap Z pyval) (w : t) : t :=
  mk (b w) (s3d w) (texture_warnings w) (old w) (stringTable w) (baked w)
     (frags w) (names w) (byType w) (refs w) x (zone w).
Definition set_zone (x : Zone) (w : t) : t :=
  mk (b w) (s3d w) (texture_warnings w) (old w) (stringTable w) (baked w)
     (frags w) (names w) (byType w) (refs w) (objs w) x.

(** Reads of [self.b]. *)
Definition liftB {A} (m : M Buffer.t A) : M t A := zoom b set_b m.
Definition lift {A} (r : outcome A) : M t A := fun w => (r, w).

(** *** The object stores *)

Definition new_ref (r : FragRef) : M t pyval :=
  fun w => (Ok (VFragRef (length (refs w))), set_refs (refs w ++ [r]) w).

Definition get_ref (a : nat) : M t FragRef :=
  fun w => match refs w !! a with
           | Some r => (Ok r, w)
           | None => (Raise BadPointer, w)
           end.

(** [self.value = v] on the reference at [a]. *)
Definition set_ref_value (a : nat) (v : pyval) : M t unit :=
  fun w => match refs w !! a with
           | Some r =>
               (Ok tt, set_refs (<[a := mkFragRef (ref_id r) (ref_name r) v]> (refs w)) w)
           | None => (Raise BadPointer, w)
           end.

(** The object a value stands for. *)
Definition deref (v : pyval) : M t pyval :=
  match v with
  | VObj i => fun w => match objs w !! i with
                       | Some c => (Ok c, w)
                       | None => (Raise BadPointer, w)
                       end
  | _ => ret v
  end.

(** *** Python's indexing, length and truth on built-in values *)

Definition seq_index (l : list pyval) (k : Z) : outcome pyval :=
  let n := Z.of_nat (length l) in
  let k' := if k <? 0 then k + n else k in
  if (0 <=? k') && (k' <? n)
  then match l !! Z.to_nat k' with Some x => Ok x | None => Raise IndexError end
  else Raise IndexError.

(** [c[idx]] for a built-in container [c]. *)
Definition getitem_plain (c idx : pyval) : outcome pyval :=
  match c with
  | VTuple l | VList l =>
      match idx with VInt k => seq_index l k | _ => Raise TypeError end
  | VStr s =>
      match idx with
      | VInt k => seq_index (map (fun ch => VStr (String ch EmptyString))
                                 (list_ascii_of_string s)) k
      | _ => Raise TypeError
      end
  | VDict d =>
      match idx with
      | VStr k => match dict_get k d with Some x => Ok x | None => Raise KeyError end
      | VList _ | VDict _ => Raise TypeError
      | _ => Raise KeyError
      end
  | VNone | VBool _ | VInt _ | VFloat _ => Raise TypeError
  | VFragRef _ | VObj _ => Raise BadPointer
  end.

Definition len_plain (c : pyval) : outcome Z :=
  match c with
  | VTuple l | VList l => Ok (Z.of_nat (length l))
  | VStr s => Ok (Z.of_nat (String.length s))
  | VDict d => Ok (Z.of_nat (length d))
  | VNone | VBool _ | VInt _ | VFloat _ => Raise TypeError
  | VFragRef _ | VObj _ => Raise BadPointer
  end.

(** [v[idx]] and [len(v)] for a value that is not a [FragRef]. *)
Definition getitem_val (v idx : pyval) : M t pyval :=
  let! c := deref v in lift (getitem_plain c idx).
Definition len_val (v : pyval) : M t Z :=
  let! c := deref v in lift (len_plain c).

(** [v[idx]], where [res] is [FragRef.resolve]: [FragRef.__getitem__] is
    [self.resolve()[index]]. *)
Definition getitem_with (res : nat -> M t pyval) (v idx : pyval) : M t pyval :=
  match v with
  | VFragRef a => let! r := res a in getitem_val r idx
  | _ => getitem_val v idx
  end.

(** *** FragRef.resolve

    [fuel] is the depth of recursion the interpreter still allows. *)
Fixpoint resolve (fuel : nat) (a : nat) : M t pyval :=
  match fuel with
  | O => raise RecursionError
  | S fuel' =>
      let! r := get_ref a in
      let! w := get in
      do! match ref_value r with
          | VNone =>
              match ref_id r, ref_name r with
              | Some i, _ =>
                  match od_get i (frags w) with
                  | None => raise KeyError
                  | Some e =>
                      do! set_ref_value a e in
                      if baked w then ret tt
                      else let! v := getitem_with (resolve fuel') e (VInt 3) in
                           set_ref_value a v
                  end
              | None, Some n =>
                  match names w !! Some n with
                  | None => raise KeyError
                  | Some e =>
                      do! set_ref_value a e in
                      if baked w then ret tt
                      else let! v := getitem_with (resolve fuel') e (VInt 3) in
                           set_ref_value a v
                  end
              | None, None => ret tt
              end
          | _ => ret tt
          end in
      let! r' := get_ref a in
      match ref_value r' with
      | VFragRef a' =>
          let! v := resolve fuel' a' in
          do! set_ref_value a v in
          ret v
      | v => ret v
      end
  end.

Definition py_getitem (fuel : nat) (v idx : pyval) : M t pyval :=
  getitem_with (resolve fuel) v idx.

(** [len(v)]; [FragRef.__len__] is [len(self.resolve())]. *)
Definition py_len (fuel : nat) (v : pyval) : M t Z :=
  match v with
  | VFragRef a => let! r := resolve fuel a in len_val r
  | _ => len_val v
  end.

(** [v.value]: only a [FragRef] has the attribute. *)
Definition getattr_value (v : pyval) : M t pyval :=
  match v with
  | VFragRef a => let! r := get_ref a in ret (ref_value r)
  | _ => raise AttributeError
  end.

(** Iterating a [FragRef], which has [__getitem__] and no [__iter__]: the
    items at 0, 1, 2, ... until [IndexError].  [n] bounds the items read. *)
Fixpoint seq_iter (n : nat) (fuel : nat) (a : nat) (k : Z) : M t (list pyval) :=
  match n with
  | O => raise OutOfFuel
  | S n' =>
      fun w =>
        match py_getitem fuel (VFragRef a) (VInt k) w with
        | (Ok x, w') =>
            (let! xs := seq_iter n' fuel a (k + 1) in ret (x :: xs)) w'
        | (Raise IndexError, w') => (Ok [], w')
        | (Raise e, w') => (Raise e, w')
        end
  end.

(** The items of [for x in v]. *)
Definition py_iter (fuel : nat) (v : pyval) : M t (list pyval) :=
  match v with
  | VFragRef a => seq_iter fuel fuel a 0
  | _ =>
      let! c := deref v in
      match iter_items c with
      | Some l => ret l
      | None => raise TypeError
      end
  end.

(** [x, y = v] *)
Definition unpack2 (fuel : nat) (v : pyval) : M t (pyval * pyval) :=
  let! l := py_iter fuel v in
  match l with
  | [x; y] => ret (x, y)
  | _ => raise ValueError
  end.

(** Truth value of an object: [FragRef] defines [__len__], so a reference
    is true when what it resolves to is not empty. *)
Definition truthy_plain (c : pyval) : bool :=
  match c with
  | VNone => false
  | VBool x => x
  | VInt z => negb (z =? 0)
  | VFloat f => negb (PrimFloat.eqb f 0%float)
  | VStr s => negb (String.eqb s EmptyString)
  | VTuple l | VList l => negb (Nat.eqb (length l) 0)
  | VDict d => negb (Nat.eqb (length d) 0)
  | VFragRef _ | VObj _ => true
  end.

Definition py_bool (fuel : nat) (v : pyval) : M t bool :=
  match v with
  | VFragRef a => let! n := py_len fuel v in ret (negb (n =? 0))
  | _ => let! c := deref v in ret (truthy_plain c)
  end.

(** [l[lo:hi]] for non-negative bounds. *)
Definition slice (l : list pyval) (lo hi : Z) : list pyval :=
  take (Z.to_nat (hi - lo)) (drop (Z.to_nat lo) l).

(** The items of [v[lo:hi]], for [for ... in v[lo:hi]]. *)
Definition slice_items (fuel : nat) (v : pyval) (lo hi : Z) : M t (list pyval) :=
  let! r := match v with VFragRef a => resolve fuel a | _ => ret v end in
  let! c := deref r in
  match c with
  | VTuple l | VList l => ret (slice l lo hi)
  | VStr _ => match iter_items c with
              | Some l => ret (slice l lo hi)
              | None => raise TypeError
              end
  | VDict _ => raise KeyError
  | _ => raise TypeError
  end.

(** *** Strings of the stream *)

Definition xorkey : list Z := [0x95; 0x3A; 0xC5; 0x2A; 0x95; 0x7A; 0x95; 0x6A].

(** [decodeString(s)] for [bytes]: every caller passes what [read] returns. *)
Fixpoint decodeString_from (i : nat) (bs : list byte) : string :=
  match bs with
  | [] => EmptyString
  | x :: bs' =>
      String (chr (Z.lxor (byte_val x) (nth (i mod length xorkey)%nat xorkey 0)))
             (decodeString_from (S i) bs')
  end.
Definition decodeString (bs : list byte) : string := decodeString_from 0 bs.

Definition getString (w : t) (i : Z) : string :=
  until_nul (str_from (stringTable w) i).

(** *** getFrag *)

Definition getFrag (ref : Z) : M t pyval :=
  let! w := get in
  if 0 <? ref then
    let ref := ref - 1 in
    match od_get ref (frags w) with
    | Some e =>
        let! v := lift (getitem_plain e (VInt 3)) in
        new_ref (mkFragRef (Some ref) None v)
    | None => new_ref (mkFragRef (Some ref) None VNone)
    end
  else
    let name := getString w (- ref) in
    match names w !! Some name with
    | Some e =>
        let! v := lift (getitem_plain e (VInt 3)) in
        new_ref (mkFragRef None (Some name) v)
    | None => new_ref (mkFragRef None (Some name) VNone)
    end.

(** *** Fragment handlers

    A run read from the buffer ([b.uint(3)], [b.float(3)]) is a tuple. *)

Definition uint : M t Z := liftB Buffer.uint.
Definition int : M t Z := liftB Buffer.int.
Definition ushort : M t Z := liftB Buffer.ushort.
Definition short : M t Z := liftB Buffer.short.
Definition char : M t Z := liftB Buffer.char.
Definition float : M t pyfloat := liftB Buffer.float.
Definition read (n : Z) : M t (list byte) := liftB (Buffer.read n).
Definition skip (n : Z) : M t unit := liftB (Buffer.advance n).
Definition uintN (n : Z) : M t (list Z) := liftB (Buffer.uintN n).
Definition intN (n : Z) : M t (list Z) := liftB (Buffer.intN n).
Definition ushortN (n : Z) : M t (list Z) := liftB (Buffer.ushortN n).
Definition shortN (n : Z) : M t (list Z) := liftB (Buffer.shortN n).
Definition floatN (n : Z) : M t (list pyfloat) := liftB (Buffer.floatN n).

Definition when {S} (c : bool) (m : M S unit) : M S unit := if c then m else ret tt.
Definition has_bits (flags mask : Z) : bool := negb (Z.land flags mask =? 0).
Definition range (n : Z) : nat := Z.to_nat n.

(** 0x03 *)
Definition frag_texname : M t pyval :=
  let! n := uint in
  let size := n + 1 in
  let! l := replicateM (range size)
              (let! len := ushort in
               let! raw := read len in
               ret (VStr (str_init (decodeString raw)))) in
  ret (VList l).

(** 0x04 *)
Definition frag_texbitinfo : M t pyval :=
  let! flags := uint in
  let! size := uint in
  do! when (has_bits flags (Z.shiftl 1 2)) (do! uint in ret tt) in
  let! params := (if has_bits flags (Z.shiftl 1 3) then uint else ret 0) in
  let! ids := intN size in
  let! textures := mapM getFrag ids in
  ret (VDict [("textures"%string, VList textures); ("params"%string, VInt params)]).

(** 0x05 *)
Definition frag_texunk : M t pyval := let! r := int in getFrag r.

(** 0x11 *)
Definition frag_skeltracksetref : M t pyval := let! r := uint in getFrag r.

(** 0x12 *)
Definition py_neg (v : pyval) : pyval :=
  match v with
  | VInt z => VInt (- z)
  | VFloat f => VFloat (- f)%float
  | _ => v
  end.

Definition skelpiecetrack_frame : M t pyval :=
  let! rot := shortN 4 in
  let! shift := shortN 4 in
  let f (k : nat) (l : list Z) : pyfloat := float_of_Z (nth k l 0) in
  let rotw := f 0%nat rot in
  let shiftden := f 3%nat shift in
  let d := 16384%float in
  let '(rx, ry, rz, rw) :=
    if negb (PrimFloat.eqb rotw 0%float)
    then (VFloat (f 1%nat rot / d)%float, VFloat (f 2%nat rot / d)%float,
          VFloat (f 3%nat rot / d)%float, VFloat (rotw / d)%float)
    else (VInt 0, VInt 0, VInt 0, VInt 1) in
  let '(sx, sy, sz) :=
    if negb (PrimFloat.eqb shiftden 0%float)
    then (VFloat (f 0%nat shift / shiftden)%float,
          VFloat (f 1%nat shift / shiftden)%float,
          VFloat (f 2%nat shift / shiftden)%float)
    else (VInt 0, VInt 0, VInt 0) in
  ret (VDict [("position"%string, VTuple [sx; sy; sz]);
              ("rotation"%string, VTuple [py_neg rx; py_neg ry; py_neg rz; rw])]).

Definition frag_skelpiecetrack : M t pyval :=
  let! flags := uint in
  let! framecount := uint in
  let! frames := replicateM (range framecount) skelpiecetrack_frame in
  ret (VDict [("frames"%string, VList frames)]).

(** 0x13 *)
Definition frag_skelpiecetrackref : M t pyval :=
  let! r := uint in
  let! skelpiecetrack := getFrag r in
  let! flags := uint in
  do! when (has_bits flags 1) (do! uint in ret tt) in
  ret (VDict [("track"%string, skelpiecetrack)]).

(** 0x14 *)
Definition frag_modelref : M t pyval :=
  let! flags := uint in
  let! frag1 := uint in
  let! sizes := uintN 2 in
  let size1 := nth 0 sizes 0 in
  let size2 := nth 1 sizes 0 in
  let! frag2 := uint in
  do! when (has_bits flags 1) (do! uint in ret tt) in
  do! when (has_bits flags 2) (do! uint in ret tt) in
  let! e1 := replicateM (range size1)
               (let! e1size := uint in
                replicateM (range e1size)
                  (let! x := uint in let! y := float in ret (x, y))) in
  let! frags3 := uintN size2 in
  let! namelen := uint in
  let! name3 := read namelen in
  let! skeleton := mapM getFrag frags3 in
  ret (VDict [("skeleton"%string, VList skeleton)]).

(** 0x15: the rotation, from the three floats read. *)
Definition pi : pyfloat := 0x1.921fb54442d18p+1%float.

Definition objloc_angle (r : pyfloat) : pyfloat :=
  (r / 512.0 * 360.0 * pi / 180.0)%float.

Definition objloc_rotation (rot : list pyfloat) : pyval :=
  let r (k : nat) := nth k rot 0%float in
  VTuple [VFloat (objloc_angle (r 2%nat)); VFloat (objloc_angle (r 1%nat));
          VFloat (objloc_angle (r 0%nat))].

Definition objloc_scale (scale : list pyfloat) : pyval :=
  let s2 := nth 2 scale 0%float in
  if PrimFloat.ltb 0.0001%float s2
  then VTuple [VFloat s2; VFloat s2; VFloat s2]
  else VTuple [VInt 1; VInt 1; VInt 1].

Definition frag_objloc : M t pyval :=
  let! sref := int in
  let! flags := uint in
  let! frag1_unk := uint in
  let! pos := floatN 3 in
  let! rot := floatN 3 in
  let! scale := floatN 3 in
  let! frag2_unk := uint in
  let! params2 := uint in
  ret (VDict [("position"%string, VTuple (map VFloat pos));
              ("rotation"%string, objloc_rotation rot);
              ("scale"%string, objloc_scale scale);
              ("nameoff"%string, VInt sref)]).

(** 0x1B *)
Definition frag_light_source : M t pyval :=
  let! flags := uint in
  let! params2 := uint in
  let! ac :=
    (if has_bits flags (Z.shiftl 1 4) then
       let! attenuation :=
         (if has_bits flags (Z.shiftl 1 3)
          then let! a := uint in ret (VInt a)
          else ret (VFloat 200.0%float)) in
       let! unk := float in
       let! color := floatN 3 in
       ret (attenuation, VTuple (map VFloat color))
     else
       let! params3a := float in
       ret (VFloat 200.0%float,
            VTuple [VFloat params3a; VFloat params3a; VFloat params3a])) in
  ret (VDict [("attenuation"%string, ac.1); ("color"%string, ac.2)]).

(** 0x1C *)
Definition frag_light_sourceref : M t pyval := let! r := int in getFrag r.

(** 0x28 *)
Definition frag_light_info : M t pyval :=
  let! r := int in
  let! lref := getFrag r in
  let! flags := uint in
  let! pos := floatN 3 in
  let! radius := float in
  ret (VDict [("light"%string, lref); ("flags"%string, VInt flags);
              ("position"%string, VTuple (map VFloat pos));
              ("radius"%string, VFloat radius)]).

(** 0x2A *)
Definition frag_ambient : M t pyval :=
  let! r := int in
  let! lref := getFrag r in
  let! flags := uint in
  let! region_count := uint in
  let! regions := uintN region_count in
  ret (VDict [("light_ref"%string, lref); ("flags"%string, VInt flags);
              ("regions"%string, VTuple (map VInt regions))]).

(** 0x2D *)
Definition frag_meshref : M t pyval := let! r := int in getFrag r.

(** 0x30: the normalised flags, from the raw [flags]. *)
Definition texref_saneflags (flags : Z) : Z :=
  let saneflags := 0 in
  let saneflags := if flags =? 0 then FLAG_TRANSPARENT else saneflags in
  let saneflags := if negb (Z.land flags (Z.lor (Z.lor 2 8) 16) =? 0)
                   then Z.lor saneflags FLAG_MASKED else saneflags in
  let saneflags := if negb (Z.land flags (Z.lor 4 8) =? 0)
                   then Z.lor saneflags FLAG_TRANSLUCENT else saneflags in
  if Z.land flags 0xFFFF =? 0x14 then 0 else saneflags.

Definition frag_texref : M t pyval :=
  let! pairflags := uint in
  let! flags := uint in
  do! skip 12 in
  do! when (Z.land pairflags 2 =? 2) (skip 8) in
  let saneflags := texref_saneflags flags in
  let! r := int in
  let! texbitinfo_ref := getFrag r in
  ret (VTuple [VInt saneflags; texbitinfo_ref]).

(** 0x31 *)
Fixpoint texlist_entries (n : nat) : M t (list pyval) :=
  match n with
  | O => ret []
  | S n' =>
      let! texture_ref_id := uint in
      if 0 <? texture_ref_id then
        let! r := getFrag texture_ref_id in
        let! rest := texlist_entries n' in
        ret (r :: rest)
      else texlist_entries n'
  end.

Definition frag_texlist : M t pyval :=
  let! zero_value := uint in
  let! count := uint in
  let! result := texlist_entries (range count) in
  ret (VList result).

(** 0x36, up to and including [tcolors = self.b.uint(colorcount)]. *)
Record mesh_head : Type := mkMeshHead {
  mh_textures : pyval;
  mh_vertcount : Z;
  mh_colorcount : Z;
  mh_polycount : Z;
  mh_vertpiececount : Z;
  mh_polytexcount : Z;
  mh_vertices : list pyval;
  mh_texcoords : list pyval;
  mh_normals : list pyval;
  mh_tcolors : list Z }.

(** [float(1 << n)]: an int above the largest float does not convert. *)
Definition float_of_pow2 (n : Z) : M t pyfloat :=
  if n <? 1024 then ret (Z.ldexp 1%float n) else raise OverflowError.

Definition frag_mesh_head : M t mesh_head :=
  let! hdr := uintN 3 in
  let tlistref := nth 1 hdr 0 in
  let! textures := getFrag tlistref in
  do! skip 8 in
  let! center := liftB Buffer.vec3 in
  do! skip 12 in
  let! maxdist := float in
  let! minv := liftB Buffer.vec3 in
  let! maxv := liftB Buffer.vec3 in
  let! c1 := ushortN 4 in
  let vertcount := nth 0 c1 0 in
  let texcoordcount := nth 1 c1 0 in
  let normalcount := nth 2 c1 0 in
  let colorcount := nth 3 c1 0 in
  let! c2 := ushortN 4 in
  let polycount := nth 0 c2 0 in
  let vertpiececount := nth 1 c2 0 in
  let polytexcount := nth 2 c2 0 in
  let! size9 := ushort in
  let! shift := ushort in
  let! scale := float_of_pow2 shift in
  let coord (k : nat) : M t pyval :=
    let! x := short in
    ret (VFloat (float_of_Z x / scale + nth k center 0%float)%float) in
  let! vertices := replicateM (range vertcount)
      (let! x := coord 0%nat in let! y := coord 1%nat in let! z := coord 2%nat in
       ret (VTuple [x; y; z])) in
  let! texcoords :=
    (if texcoordcount =? 0
     then ret (repeat (VTuple [VInt 0; VInt 0]) (range vertcount))
     else
       let! w := get in
       replicateM (range texcoordcount)
         (if old w
          then let! u := short in let! v := short in
               ret (VTuple [VFloat (float_of_Z u / 256.0)%float;
                            VFloat (float_of_Z v / 256.0)%float])
          else let! uv := floatN 2 in ret (VTuple (map VFloat uv)))) in
  let norm : M t pyval :=
    let! x := char in ret (VFloat (float_of_Z x / 127.0)%float) in
  let! normals := replicateM (range normalcount)
      (let! x := norm in let! y := norm in let! z := norm in
       ret (VTuple [x; y; z])) in
  let! tcolors := uintN colorcount in
  ret (mkMeshHead textures vertcount colorcount polycount vertpiececount
         polytexcount vertices texcoords normals tcolors).

(** 0x36, from [if colorcount == 0] on. *)
Definition frag_mesh_tail (h : mesh_head) : M t pyval :=
  let tcolors :=
    if mh_colorcount h =? 0 then repeat 0 (range (mh_vertcount h))
    else mh_tcolors h in
  do! assert (Z.of_nat (length tcolors) =? mh_vertcount h) in
  let colors := map (fun x => VList [VFloat (float_of_f32_bits x)]) tcolors in
  let! polys := replicateM (range (mh_polycount h))
      (let! flag := ushort in
       let! idx := ushortN 3 in
       ret (VTuple [VBool (negb (flag =? 0x0010)); VTuple (map VInt idx)])) in
  let pair : M t pyval := let! p := ushortN 2 in ret (VTuple (map VInt p)) in
  let! bonevertices := replicateM (range (mh_vertpiececount h)) pair in
  let! polytex := replicateM (range (mh_polytexcount h)) pair in
  ret (VDict [("textures"%string, mh_textures h);
              ("vertices"%string, VList (mh_vertices h));
              ("texcoords"%string, VList (mh_texcoords h));
              ("normals"%string, VList (mh_normals h));
              ("colors"%string, VList colors);
              ("polys"%string, VList polys);
              ("bonevertices"%string, VList bonevertices);
              ("polytex"%string, VList polytex)]).

Definition frag_mesh : M t pyval :=
  let! h := frag_mesh_head in frag_mesh_tail h.

Section Decoder.

(** The order in which CPython iterates the set built by adding the given
    ints one after the other (a built-in; it lists each member once). *)
Variable set_order : list Z -> list Z.

(** 0x10 *)
Definition skeltrackset_track : M t (pyval * Z) :=
  let! nameoff := int in
  let! w := get in
  let name := getString w (- nameoff) in
  let! flags := uint in
  let! r := int in
  let! piecetrack := getFrag r in
  let! mesh := int in
  let! n := uint in
  let! nextpieces := intN n in
  ret (VDict [("name"%string, VStr name); ("flags"%string, VInt flags);
              ("piecetrack"%string, piecetrack);
              ("nextpieces"%string, VTuple (map VInt nextpieces))], mesh).

Definition frag_skeltrackset : M t pyval :=
  let! flags := uint in
  let! trackcount := uint in
  let! r := int in
  let! frag1ref := getFrag r in
  do! when (has_bits flags 1) (do! uintN 3 in ret tt) in
  do! when (has_bits flags 2) (do! float in ret tt) in
  let! tm := replicateM (range trackcount) skeltrackset_track in
  let tracks := map fst tm in
  let allmeshes := set_order (map snd tm) in
  let! meshes :=
    (if has_bits flags 0x200
     then let! n := uint in let! ids := intN n in mapM getFrag ids
     else mapM getFrag (filter (fun x => x ≠ 0) allmeshes)) in
  ret (VDict [("meshes"%string, VList meshes); ("tracks"%string, VList tracks)]).

(** The registry the [@fragment] decorator fills. *)
Definition fragHandlers (type : Z) : option (M t pyval) :=
  if type =? 0x03 then Some frag_texname
  else if type =? 0x04 then Some frag_texbitinfo
  else if type =? 0x05 then Some frag_texunk
  else if type =? 0x10 then Some frag_skeltrackset
  else if type =? 0x11 then Some frag_skeltracksetref
  else if type =? 0x12 then Some frag_skelpiecetrack
  else if type =? 0x13 then Some frag_skelpiecetrackref
  else if type =? 0x14 then Some frag_modelref
  else if type =? 0x15 then Some frag_objloc
  else if type =? 0x1B then Some frag_light_source
  else if type =? 0x1C then Some frag_light_sourceref
  else if type =? 0x28 then Some frag_light_info
  else if type =? 0x2A then Some frag_ambient
  else if type =? 0x2D then Some frag_meshref
  else if type =? 0x30 then Some frag_texref
  else if type =? 0x31 then Some frag_texlist
  else if type =? 0x36 then Some frag_mesh
  else None.

End Decoder.

(** *** Wld.__init__ *)

(** The dict key a name is: [None] or a string. *)
Definition name_key (name : pyval) : option string :=
  match name with VStr s => Some s | _ => None end.

(** [name == ""] *)
Definition is_empty_str (name : pyval) : bool :=
  match name with VStr EmptyString => true | _ => false end.

(** The payload a handler returned becomes the object of fragment [i];
    [None] and a [FragRef] are kept as they are.  A dict gets its ["_name"]. *)
Definition store_payload (i : Z) (name frag : pyval) : M t pyval :=
  match frag with
  | VNone | VFragRef _ => ret frag
  | VDict d =>
      do! modify (fun w => set_objs (<[i := VDict (dict_set "_name" name d)]> (objs w)) w) in
      ret (VObj i)
  | _ =>
      do! modify (fun w => set_objs (<[i := frag]> (objs w)) w) in
      ret (VObj i)
  end.

Definition append_byType (type : Z) (x : pyval) (w : t) : t :=
  set_byType (<[type := default [] (byType w !! type) ++ [x]]> (byType w)) w.

(** The three fields that open a table entry: [size], [type], [nameoff]. *)
Definition entry_header : M t (Z * Z * Z) :=
  let! size := uint in
  let! type := uint in
  let! nameoff := int in
  ret (size, type, nameoff).

Section Table.

(** The handler registry in force when the stream is decoded. *)
Variable handlers : Z -> option (M t pyval).

(** One turn of [for i in range(fragCount)]. *)
Definition frag_step (i : Z) : M t unit :=
  let! '(size, type, nameoff) := entry_header in
  let! w := get in
  let name := if negb (nameoff =? 0x1000000)
              then VStr (getString w (- nameoff)) else VNone in
  let epos := Buffer.pos (b w) + size - 4 in
  let! frag := match handlers type with
               | Some h => h
               | None => ret VNone
               end in
  let! frag := store_payload i name frag in
  let entry := VTuple [VInt i; name; VInt type; frag] in
  do! modify (fun w => set_frags (od_set i entry (frags w)) w) in
  do! when (negb (is_empty_str name) || (type =? 0x05))
        (modify (fun w => set_names (<[name_key name := entry]> (names w)) w)) in
  do! modify (append_byType type entry) in
  liftB (Buffer.set_pos epos).

Fixpoint frag_loop (n : nat) (i : Z) : M t unit :=
  match n with
  | O => ret tt
  | S n' => do! frag_step i in frag_loop n' (i + 1)
  end.

(** The header, up to the string table; yields [fragCount]. *)
Definition read_header : M t Z :=
  let! magic := uint in
  do! assert (magic =? 0x54503D02) in
  let! version := uint in
  do! modify (set_old (version =? 0x00015500)) in
  let! fragCount := uint in
  do! skip 8 in
  let! hashlen := uint in
  do! skip 4 in
  let! raw := read hashlen in
  do! modify (set_stringTable (decodeString raw)) in
  ret fragCount.

(** The rebake pass: one turn of [for i, name, type, frag in
    self.frags.values()]. *)
Definition rebake_step (acc : list (Z * pyval) * gmap (option string) pyval)
  (entry : pyval) : M t (list (Z * pyval) * gmap (option string) pyval) :=
  match entry with
  | VTuple [VInt i; name; VInt type; frag] =>
      let! w := get in
      match byType w !! type with
      | None => raise KeyError
      | Some l =>
          do! modify (set_byType (<[type := l ++ [frag]]> (byType w))) in
          ret (od_set i frag acc.1, <[name_key name := frag]> acc.2)
      end
  | _ => raise ValueError
  end.

Fixpoint rebake_loop (entries : list pyval)
  (acc : list (Z * pyval) * gmap (option string) pyval)
  : M t (list (Z * pyval) * gmap (option string) pyval) :=
  match entries with
  | [] => ret acc
  | e :: rest => let! acc' := rebake_step acc e in rebake_loop rest acc'
  end.

Definition rebake : M t unit :=
  do! modify (fun w => set_byType ((fun _ => []) <$> byType w) w) in
  let! w := get in
  let! acc := rebake_loop (map snd (frags w)) ([], ∅) in
  do! modify (set_frags acc.1) in
  do! modify (set_names acc.2) in
  modify (set_baked true).

Definition init_body : M t unit :=
  let! fragCount := read_header in
  do! frag_loop (range fragCount) 0 in
  rebake.

End Table.

(** The object before [__init__] has read anything. *)
Definition fresh (data : list byte) (files : gmap string (list byte)) : t :=
  mk (Buffer.mk data 0) files ∅ false EmptyString false [] ∅ ∅ [] ∅ empty_zone.

(** [Wld(data, s3d)] *)
Definition init (set_order : list Z -> list Z) (data : list byte)
  (files : gmap string (list byte)) : outcome unit * t :=
  init_body (fragHandlers set_order) (fresh data files).

(** *** The converters *)

(** [word in s] *)
Fixpoint str_contains (word s : string) : bool :=
  String.prefix word s ||
  match s with
  | EmptyString => false
  | String _ s' => str_contains word s'
  end.

Definition as_int (v : pyval) : M t Z :=
  match v with
  | VInt z => ret z
  | VBool x => ret (if x then 1 else 0)
  | _ => raise TypeError
  end.

(** [x.lower()] and [x.replace(old, "")]: methods of [str] only. *)
Definition as_str (v : pyval) : M t string :=
  match v with
  | VStr s => ret s
  | _ => raise AttributeError
  end.

(** [try: m except (KeyError, IndexError): h] *)
Definition try_lookup {A} (m : M t A) (h : M t A) : M t A :=
  fun w => match m w with
           | (Raise KeyError, w') | (Raise IndexError, w') => h w'
           | r => r
           end.

Definition add_zone_mesh (m : Mesh) : M t unit :=
  modify (fun w => let z := zone w in
                   set_zone (mkZone (zoneobj z ++ [m]) (objects z) (lights z)
                                    (placeables z)) w).

(** [zone.addObject(name)]: the new object is the last of [objects]. *)
Definition addObject (name : string) : M t nat :=
  fun w => let z := zone w in
           (Ok (length (objects z)),
            set_zone (mkZone (zoneobj z) (objects z ++ [(name, [])]) (lights z)
                             (placeables z)) w).

Definition add_object_mesh (obj : nat) (m : Mesh) : M t unit :=
  modify (fun w => let z := zone w in
                   set_zone (mkZone (zoneobj z)
                               (alter (fun o => (o.1, o.2 ++ [m])) obj (objects z))
                               (lights z) (placeables z)) w).

Definition addLight (l : list pyval) : M t unit :=
  modify (fun w => let z := zone w in
                   set_zone (mkZone (zoneobj z) (objects z) (lights z ++ [l])
                                    (placeables z)) w).

(** [zone.addPlaceable(objname, position, rotation, scale)], from section
    4.5 of the specification: the name finds the target Object and one
    Placeable is appended; a lookup miss skips the contribution.  The only
    counters the decoder keeps are [texture_warnings], so a miss counts
    nothing here. *)
Definition addPlaceable (objname : string) (position rotation scale : pyval)
  : M t unit :=
  modify (fun w =>
            let z := zone w in
            set_zone
              match find_object objname (objects z) with
              | Some obj =>
                  mkZone (zoneobj z) (objects z) (lights z)
                         (placeables z ++ [mkPlaceable obj position rotation scale])
              | None => z
              end w).

Section Convert.

(** The recursion depth left to [FragRef.resolve], which also bounds the
    loops of the model. *)
Variable fuel : nat.

Definition key (s : string) : pyval := VStr s.

(** [texname[0].lower()] *)
Definition texture_file (texname : pyval) : M t string :=
  let! x := py_getitem fuel texname (VInt 0) in
  let! s := as_str x in
  ret (str_lower s).

(** [any(sky_word in texname[0].lower() for sky_word in words)] *)
Fixpoint any_sky_word (words : list string) (texname : pyval) : M t bool :=
  match words with
  | [] => ret false
  | word :: rest =>
      let! s := texture_file texname in
      if str_contains word s then ret true else any_sky_word rest texname
  end.

Definition sky_words : list string :=
  ["sky"%string; "cloud"%string; "dome"%string; "ambient"%string].

(** [[self.s3d[texname[0].lower()] for texname in texnames]] *)
Definition texture_blobs (texnames : pyval) : M t (list (list byte)) :=
  let! items := py_iter fuel texnames in
  mapM (fun texname =>
          let! f := texture_file texname in
          let! w := get in
          match s3d w !! f with
          | Some blob => ret blob
          | None => raise KeyError
          end) items.

(** [[x for c, x in polys[off : off + count] if c]], or [if not c]. *)
Fixpoint select_polys (want : bool) (items : list pyval) : M t (list pyval) :=
  match items with
  | [] => ret []
  | item :: rest =>
      let! '(c, x) := unpack2 fuel item in
      let! t := py_bool fuel c in
      let! xs := select_polys want rest in
      ret (if Bool.eqb t want then x :: xs else xs)
  end.

(** The two comprehensions and the two [addMesh] calls of one run. *)
Definition emit_run (add : Mesh -> M t unit) (meshfrag : pyval)
  (material : Material) (vbuf : VertexBuffer) (off count : Z) : M t unit :=
  let! polys := py_getitem fuel meshfrag (key "polys") in
  let! items := slice_items fuel polys off (off + count) in
  let! collidablePolys := select_polys true items in
  let! polys := py_getitem fuel meshfrag (key "polys") in
  let! items := slice_items fuel polys off (off + count) in
  let! noncollidablePolys := select_polys false items in
  do! when (negb (Nat.eqb (length collidablePolys) 0))
        (add (mkMesh material vbuf collidablePolys true)) in
  when (negb (Nat.eqb (length noncollidablePolys) 0))
       (add (mkMesh material vbuf noncollidablePolys false)).

(** [VertexBuffer(flatten(interleave(vertices, normals, texcoords)),
    len(vertices))] *)
Definition vertex_buffer (meshfrag : pyval) : M t VertexBuffer :=
  let! v := py_getitem fuel meshfrag (key "vertices") in
  let! n := py_getitem fuel meshfrag (key "normals") in
  let! tc := py_getitem fuel meshfrag (key "texcoords") in
  let! vs := py_iter fuel v in
  let! ns := py_iter fuel n in
  let! tcs := py_iter fuel tc in
  let! data := lift (flatten fuel (interleave vs ns tcs)) in
  let! v := py_getitem fuel meshfrag (key "vertices") in
  let! count := py_len fuel v in
  ret (mkVertexBuffer data count).

(** [len(meshfrag["textures"])] *)
Definition textures_len (meshfrag : pyval) : M t Z :=
  let! t := py_getitem fuel meshfrag (key "textures") in
  py_len fuel t.

(** [self.texture_warnings[key] = self.texture_warnings.get(key, 0) + 1] *)
Definition count_warning (k : string) : M t unit :=
  modify (fun w => set_texture_warnings
                     (<[k := default 0 (texture_warnings w !! k) + 1]>
                        (texture_warnings w)) w).

Definition warning_key (site : string) (index avail : Z) : string :=
  site +:+ "_idx" +:+ pretty index +:+ "_avail" +:+ pretty avail.

(** convertZone, from [mtex = mtex.value.value] to the [addMesh] calls. *)
Definition zone_run_meshes (meshfrag : pyval) (vbuf : VertexBuffer)
  (texflags mtex : pyval) (off count : Z) : M t unit :=
  let! v := getattr_value mtex in
  let! mtex := getattr_value v in
  let! texnames := py_getitem fuel mtex (key "textures") in
  let! items := py_iter fuel texnames in
  do! forM_ items (fun texname => do! any_sky_word sky_words texname in ret tt) in
  let! blobs := texture_blobs texnames in
  let! params := py_getitem fuel mtex (key "params") in
  emit_run add_zone_mesh meshfrag (mkMaterial texflags blobs params) vbuf off count.

Definition is_none (v : pyval) : bool :=
  match v with VNone => true | _ => false end.

(** One turn of [for count, index in meshfrag["polytex"]] in convertZone;
    yields the new [off].  The entries of [polytex] are pairs of ints
    ([frag_mesh] reads them with [ushort(2)]). *)
Definition convertZone_run (meshfrag : pyval) (vbuf : VertexBuffer)
  (off : Z) (run : pyval) : M t Z :=
  let! '(count, index) := unpack2 fuel run in
  let! count := as_int count in
  let! index := as_int index in
  let! n := textures_len meshfrag in
  if n <=? index then
    let! avail := textures_len meshfrag in
    do! count_warning (warning_key "convertZone" index avail) in
    let! n1 := textures_len meshfrag in
    do! when (0 <? n1)
          (let! n2 := textures_len meshfrag in
           let fallback_index := index mod n2 in
           let! t := py_getitem fuel meshfrag (key "textures") in
           let! item := py_getitem fuel t (VInt fallback_index) in
           let! '(texflags, mtex) := unpack2 fuel item in
           let! v := getattr_value mtex in
           when (negb (is_none v))
                (zone_run_meshes meshfrag vbuf texflags mtex off count)) in
    ret (off + count)
  else
    let! t := py_getitem fuel meshfrag (key "textures") in
    let! item := py_getitem fuel t (VInt index) in
    let! '(texflags, mtex) := unpack2 fuel item in
    let! v := getattr_value mtex in
    if is_none v then ret (off + count)
    else
      do! zone_run_meshes meshfrag vbuf texflags mtex off count in
      ret (off + count).

Fixpoint run_loop (body : Z -> pyval -> M t Z) (off : Z) (runs : list pyval)
  : M t unit :=
  match runs with
  | [] => ret tt
  | run :: rest => let! off' := body off run in run_loop body off' rest
  end.

Definition convertZone_mesh (meshfrag : pyval) : M t unit :=
  let! vbuf := vertex_buffer meshfrag in
  let! polytex := py_getitem fuel meshfrag (key "polytex") in
  let! runs := py_iter fuel polytex in
  run_loop (convertZone_run meshfrag vbuf) 0 runs.

Definition convertZone : M t unit :=
  let! w := get in
  match byType w !! 0x36 with
  | None => raise KeyError
  | Some meshes => forM_ meshes convertZone_mesh
  end.

(** convertObjects: what the chain of [isinstance] and [hasattr] tests
    finds behind a texture item; [None] stands for the branches that skip
    the run ([off += count; continue]).  Yields the flags, the texture
    names and the parameter. *)
Definition objects_texture (texflags mtex : pyval)
  : M t (option (pyval * pyval * pyval)) :=
  let from_dict (flags d : pyval) : M t (option (pyval * pyval * pyval)) :=
    let! texnames := py_getitem fuel d (key "textures") in
    let! params := py_getitem fuel d (key "params") in
    ret (Some (flags, texnames, params)) in
  let! c := deref mtex in
  match c with
  | VDict _ => from_dict texflags mtex
  | VList l => ret (Some (texflags, VList (map (fun n => VTuple [n]) l), VInt 0))
  | VFragRef _ =>
      let! resolved_mtex := getattr_value mtex in
      let! rc := deref resolved_mtex in
      match rc with
      | VDict _ => from_dict texflags resolved_mtex
      | VTuple [texflags; inner_fragref] =>
          match inner_fragref with
          | VFragRef _ =>
              let! inner_resolved := getattr_value inner_fragref in
              let! ic := deref inner_resolved in
              match ic with
              | VDict _ => from_dict texflags inner_resolved
              | VFragRef _ =>
                  let! deep_resolved := getattr_value inner_resolved in
                  let! dc := deref deep_resolved in
                  match dc with
                  | VDict _ => from_dict texflags deep_resolved
                  | _ => ret None
                  end
              | _ => ret None
              end
          | _ => ret None
          end
      | _ => ret None
      end
  | _ => ret None
  end.

(** The [try] block: the item, split when it is a pair. *)
Definition objects_item (meshfrag : pyval) (index : Z) : M t (pyval * pyval) :=
  let! t := py_getitem fuel meshfrag (key "textures") in
  let! texture_item := py_getitem fuel t (VInt index) in
  let! c := deref texture_item in
  match c with
  | VTuple [texflags; mtex] => ret (texflags, mtex)
  | _ => ret (VInt 0, texture_item)
  end.

(** One turn of [for count, index in meshfrag["polytex"]] in convertObjects. *)
Definition convertObjects_run (obj : nat) (meshfrag : pyval) (vbuf : VertexBuffer)
  (off : Z) (run : pyval) : M t Z :=
  let! '(count, index) := unpack2 fuel run in
  let! count := as_int count in
  let! index := as_int index in
  let! n := textures_len meshfrag in
  if n <=? index then
    let! avail := textures_len meshfrag in
    do! count_warning (warning_key "convertObjects" index avail) in
    ret (off + count)
  else
    let! item := try_lookup (let! x := objects_item meshfrag index in ret (Some x))
                            (ret None) in
    match item with
    | None => ret (off + count)
    | Some (texflags, mtex) =>
        let! tex := objects_texture texflags mtex in
        match tex with
        | None => ret (off + count)
        | Some (texflags, texnames, params) =>
            let! blobs := texture_blobs texnames in
            do! emit_run (add_object_mesh obj) meshfrag
                  (mkMaterial texflags blobs params) vbuf off count in
            ret (off + count)
        end
    end.

Definition convertObjects_mesh (meshfrag : pyval) : M t unit :=
  let! nm := py_getitem fuel meshfrag (key "_name") in
  let! s := as_str nm in
  let! obj := addObject (str_remove "_DMSPRITEDEF" s) in
  let! vbuf := vertex_buffer meshfrag in
  let! polytex := py_getitem fuel meshfrag (key "polytex") in
  let! runs := py_iter fuel polytex in
  run_loop (convertObjects_run obj meshfrag vbuf) 0 runs.

Definition convertObjects_placement (objfrag : pyval) : M t unit :=
  let! off := py_getitem fuel objfrag (key "nameoff") in
  let! off := as_int off in
  let! w := get in
  let objname := str_remove "_ACTORDEF" (getString w (- off)) in
  let! position := py_getitem fuel objfrag (key "position") in
  let! rotation := py_getitem fuel objfrag (key "rotation") in
  let! scale := py_getitem fuel objfrag (key "scale") in
  addPlaceable objname position rotation scale.

Definition convertObjects : M t unit :=
  let! w := get in
  do! match byType w !! 0x36 with
      | Some meshes => forM_ meshes convertObjects_mesh
      | None => ret tt
      end in
  let! w := get in
  match byType w !! 0x15 with
  | Some objs => forM_ objs convertObjects_placement
  | None => ret tt
  end.

(** [light["light"] = v] on the dict object [light]. *)
Definition dict_setitem (d : pyval) (k : string) (v : pyval) : M t unit :=
  match d with
  | VObj i =>
      fun w => match objs w !! i with
               | Some (VDict kv) =>
                   (Ok tt, set_objs (<[i := VDict (dict_set k v kv)]> (objs w)) w)
               | Some _ => (Raise TypeError, w)
               | None => (Raise BadPointer, w)
               end
  | _ => raise TypeError
  end.

(** [x.resolve()]: a method of [FragRef] only. *)
Definition call_resolve (x : pyval) : M t pyval :=
  match x with
  | VFragRef a => resolve fuel a
  | _ => raise AttributeError
  end.

Definition convertLights_light (light : pyval) : M t unit :=
  let! l := py_getitem fuel light (key "light") in
  let! v := call_resolve l in
  do! dict_setitem light "light" v in
  let! position := py_getitem fuel light (key "position") in
  let! radius := py_getitem fuel light (key "radius") in
  let! l1 := py_getitem fuel light (key "light") in
  let! attenuation := py_getitem fuel l1 (key "attenuation") in
  let! l2 := py_getitem fuel light (key "light") in
  let! color := py_getitem fuel l2 (key "color") in
  let! flags := py_getitem fuel light (key "flags") in
  addLight [position; radius; attenuation; color; flags].

Definition convertLights : M t unit :=
  let! w := get in
  match byType w !! 0x28 with
  | None => raise KeyError
  | Some ls => forM_ ls convertLights_light
  end.

End Convert.

End Wld.

(** ** Writing concrete archives and streams

    The encoders below produce the byte strings the examples decode. *)

Definition i32 (z : Z) : list byte := le_bytes 4 (z mod 2 ^ 32).

(** The XOR obfuscation of the string table, which is its own inverse. *)
Fixpoint encodeString_from (i : nat) (s : string) : list byte :=
  match s with
  | EmptyString => []
  | String c s' =>
      byte_of_Z (Z.lxor (ord c) (nth (i mod 8)%nat Wld.xorkey 0))
        :: encodeString_from (S i) s'
  end.
Definition encodeString (s : string) : list byte := encodeString_from 0 s.

Definition NUL : string := String (chr 0) EmptyString.

(** A table entry: [size] counts the payload and the [type] field. *)
Definition fragment (type nameoff : Z) (payload : list byte) : list byte :=
  u32 (Z.of_nat (length payload) + 4) ++ u32 type ++ i32 nameoff ++ payload.

Definition UNNAMED : Z := 0x1000000.

Definition wld_stream (version : Z) (strings : string) (fs : list (list byte))
  : list byte :=
  u32 0x54503D02 ++ u32 version ++ u32 (Z.of_nat (length fs)) ++ repeat x00 8
    ++ u32 (Z.of_nat (String.length strings)) ++ repeat x00 4
    ++ encodeString strings ++ concat fs.

(** The payload of a mesh with three vertices and one triangle; [tlist] is
    the reference to its texture list, [colorcount] the number of vertex
    colours it declares, [runs] its polygon-to-texture table. *)
Definition mesh_payload (tlist colorcount : Z) (runs : list (Z * Z)) : list byte :=
  u32 0 ++ u32 tlist ++ u32 0 ++ repeat x00 8 ++ concat (repeat (u32 0) 3)
    ++ repeat x00 12 ++ u32 0 ++ concat (repeat (u32 0) 6)
    ++ u16 3 ++ u16 0 ++ u16 3 ++ u16 colorcount
    ++ u16 1 ++ u16 0 ++ u16 (Z.of_nat (length runs)) ++ u16 0
    ++ u16 0 ++ u16 0
    ++ concat (map u16 [0; 0; 0; 1; 0; 0; 0; 1; 0])
    ++ bytes_of [0; 0; 127; 0; 0; 127; 0; 0; 127]
    ++ concat (map u32 (repeat 0 (Z.to_nat colorcount)))
    ++ (u16 0 ++ u16 0 ++ u16 1 ++ u16 2)
    ++ concat (map (fun r => u16 r.1 ++ u16 r.2) runs).

(** The examples hold no skeleton track set, so no set is ever iterated. *)
Definition no_sets (l : list Z) : list Z := l.

Definition two_pi : pyfloat := (2 * Wld.pi)%float.

(** An object placement with rotation floats 512.0, 0.0, 0.0 (the bytes
    00 00 00 44, then zeros) and scale 1.0, decoded by the handler. *)
Definition objloc_payload : list byte :=
  i32 0 ++ u32 0 ++ u32 0 ++ concat (repeat (u32 0) 3)
    ++ u32 0x44000000 ++ u32 0 ++ u32 0
    ++ concat (repeat (u32 0x3F800000) 3) ++ u32 0 ++ u32 0.

(** The payload of a texture reference: pair flags 0, raw flags 6, the
    twelve bytes the handler skips, and a reference by the name at offset 0
    of the string table. *)
Definition texref_payload : list byte :=
  u32 0 ++ u32 6 ++ concat (repeat (u32 0) 3) ++ i32 0.

(** *** Example streams *)

(** A zone with two materials and one mesh.  Fragments 0..3 are the texture
    "a.bmp" (file name list, bitmap info, back-reference, texture reference
    with raw flags 2); fragments 4..7 the texture "b.bmp" (raw flags 4);
    fragment 8 is the texture list of both; fragment 9 is the mesh, named
    A_DMSPRITEDEF, with the polygon-to-texture table [runs]. *)
Definition scene_strings : string := (NUL +:+ "A_DMSPRITEDEF" +:+ NUL)%string.

Definition texture_fragments (file : string) (first flags : Z) : list (list byte) :=
  [ fragment 0x03 UNNAMED (u32 0 ++ u16 (Z.of_nat (String.length file) + 1)
                             ++ encodeString (file +:+ NUL));
    fragment 0x04 UNNAMED (u32 0 ++ u32 1 ++ i32 (first + 1));
    fragment 0x05 UNNAMED (i32 (first + 2));
    fragment 0x30 UNNAMED (u32 0 ++ u32 flags ++ repeat x00 12 ++ i32 (first + 3)) ].

Definition scene_stream (colorcount : Z) (runs : list (Z * Z)) : list byte :=
  wld_stream 0x1000C800 scene_strings
    (texture_fragments "a.bmp" 0 2 ++ texture_fragments "b.bmp" 4 4
       ++ [ fragment 0x31 UNNAMED (u32 0 ++ u32 2 ++ u32 4 ++ u32 8);
            fragment 0x36 (-1) (mesh_payload 9 colorcount runs) ]).

Definition scene_files : gmap string (list byte) :=
  {[ "a.bmp"%string := bytes_of [66; 77; 1]; "b.bmp"%string := bytes_of [66; 77; 2] ]}.

(** The decoder after [Wld(data, s3d)] on a stream. *)
Definition decoded (data : list byte) (files : gmap string (list byte)) : Wld.t :=
  (Wld.init no_sets data files).2.

(** A run of one polygon bound to texture index 3, against two textures. *)
Definition scene_out_of_range : Wld.t :=
  decoded (scene_stream 0 [(1, 3)]) scene_files.

(** A mesh that declares one vertex colour for its three vertices. *)
Definition scene_bad_colors : list byte := scene_stream 1 [(1, 0)].

(** Four fragments, three of them with the empty name (name offset 0 into a
    string table that starts with NUL):
    0 has the unregistered type 0x99;
    1 (type 0x05) refers to fragment 0, with four unused trailing bytes;
    2 (type 0x2D, unnamed) refers to the name at offset 0;
    3 (type 0x03) is a file name list. *)
Definition empty_names_stream : list byte :=
  wld_stream 0x1000C800 NUL
    [ fragment 0x99 0 (bytes_of [1; 2; 3; 4; 5]);
      fragment 0x05 0 (i32 1 ++ bytes_of [9; 9; 9; 9]);
      fragment 0x2D UNNAMED (i32 0);
      fragment 0x03 0 (u32 0 ++ u16 6 ++ encodeString ("a.bmp" +:+ NUL)) ].


(** One fragment (type 0x2D) that refers to fragment index 8, which the
    stream does not have. *)
Definition dangling_stream : list byte :=
  wld_stream 0x1000C800 NUL [ fragment 0x2D UNNAMED (i32 9) ].

Definition dangling : Wld.t := decoded dangling_stream ∅.

(** A light source (0x1B), a reference to it (0x1C) and a light placement
    (0x28) that goes through the reference. *)
Definition lights_stream : list byte :=
  wld_stream 0x1000C800 NUL
    [ fragment 0x1B UNNAMED (u32 0 ++ u32 0 ++ u32 0x3F800000);
      fragment 0x1C UNNAMED (i32 1);
      fragment 0x28 UNNAMED (i32 2 ++ u32 0 ++ concat (repeat (u32 0) 3)
                               ++ u32 0x3F800000) ].

Definition lights_scene : Wld.t := decoded lights_stream ∅.

(** The [size] field of the table entry at the cursor, and the end position
    it declares: [epos = b.pos + size - 4], with [b.pos] taken after the
    twelve bytes of [size], [type] and [nameoff]. *)
Definition entry_size (w : Wld.t) : Z :=
  le_uint (take 4 (drop (Z.to_nat (Buffer.pos (Wld.b w))) (Buffer.data (Wld.b w)))).

Definition declared_end (w : Wld.t) : Z :=
  (Buffer.pos (Wld.b w) + 12) + entry_size w - 4.

(** The decoder of a stream when its header has been read. *)
Definition at_table (data : list byte) : Wld.t :=
  (Wld.read_header (Wld.fresh data ∅)).2.

(** *** Reading an archive's directory table as plain data *)

(** The offset at the start of the file, the entry count at that offset,
    and the three fields of entry [i] of the table, as [readS3D] reads
    them. *)
Definition uint_at (fp : list byte) (pos : Z) : Z :=
  le_uint (take 4 (drop (Z.to_nat pos) fp)).

(** The single-precision float in the four bytes at [pos]. *)
Definition float_at (data : list byte) (pos : Z) : pyfloat :=
  float_of_f32_bits (uint_at data pos).

Definition dir_offset (fp : list byte) : Z := uint_at fp 0.
Definition dir_count (fp : list byte) : Z := uint_at fp (dir_offset fp).
Definition dir_entry_crc (fp : list byte) (i : Z) : Z :=
  uint_at fp (dir_offset fp + 4 + i * 12).
Definition dir_entry_foff (fp : list byte) (i : Z) : Z :=
  uint_at fp (dir_offset fp + 4 + i * 12 + 4).
Definition dir_entry_size (fp : list byte) (i : Z) : Z :=
  uint_at fp (dir_offset fp + 4 + i * 12 + 4 + 4).

(** How many of the [n] entries from [i] on carry the reserved checksum. *)
Fixpoint reserved_entries (fp : list byte) (i : Z) (n : nat) : nat :=
  match n with
  | O => O
  | S n' => ((if Z.eqb (dir_entry_crc fp i) S3D.DIRECTORY_CRC then 1 else 0)
             + reserved_entries fp (i + 1) n')%nat
  end.

(** The data [readS3D] recovers for entry [i]. *)
Definition dir_entry_data (decompress : list byte -> option (list byte))
  (fp : list byte) (i : Z) : outcome (list byte) :=
  (S3D.read_chunks decompress (S (length fp)) (dir_entry_size fp i) []
     (Buffer.mk fp (dir_entry_foff fp i))).1.

(** [(foff, data)] is what [readS3D] keeps of some entry of the table that
    does not carry the reserved checksum. *)
Definition kept_entry (decompress : list byte -> option (list byte))
  (fp : list byte) (x : Z * list byte) : Prop :=
  exists i, 0 <= i < dir_count fp /\
    dir_entry_crc fp i <> S3D.DIRECTORY_CRC /\
    dir_entry_foff fp i = x.1 /\
    dir_entry_data decompress fp i = Ok x.2.

(** What the loop over the table leaves in [filelist] for the entries
    [i .. i + n - 1]: offset and data of each entry that does not carry the
    reserved checksum, in table order. *)
Fixpoint table_files (decompress : list byte -> option (list byte))
  (fp : list byte) (i : Z) (n : nat) : list (Z * list byte) :=
  match n with
  | O => []
  | S n' =>
      match dir_entry_data decompress fp i with
      | Ok d => if dir_entry_crc fp i =? S3D.DIRECTORY_CRC then []
                else [(dir_entry_foff fp i, d)]
      | Raise _ => []
      end ++ table_files decompress fp (i + 1) n'
  end.

(** What it leaves in [directory]: the data of the last of these entries
    that carries the reserved checksum.  (An entry whose chunks cannot be
    read ends the call; it is passed over here.) *)
Fixpoint table_directory (decompress : list byte -> option (list byte))
  (fp : list byte) (i : Z) (n : nat) : option (list byte) :=
  match n with
  | O => None
  | S n' =>
      match table_directory decompress fp (i + 1) n' with
      | Some d => Some d
      | None =>
          if dir_entry_crc fp i =? S3D.DIRECTORY_CRC
          then match dir_entry_data decompress fp i with
               | Ok d => Some d
               | Raise _ => None
               end
          else None
      end
  end.

Section DirectoryNames.

Variable decompress : list byte -> option (list byte).
Context {K : Type} `{Countable K}.
Variable decode_lower : list byte -> K.

(** The [n] names at the cursor of the directory blob, as keys. *)
Fixpoint name_list (n : nat) : M Buffer.t (list K) :=
  match n with
  | O => ret []
  | S n' =>
      let! len := Buffer.uint in
      let! raw := Buffer.read len in
      let! rest := name_list n' in
      ret (decode_lower (S3D.strip_nul raw) :: rest)
  end.

(** [files[k] = d] for each pair, in order. *)
Definition insert_all (l : list (K * list byte)) (files : gmap K (list byte))
  : gmap K (list byte) :=
  fold_left (fun m kd => <[kd.1 := kd.2]> m) l files.

(** The file names an archive's directory lists: the names read from the
    data of its entry with the reserved checksum, as many as the blob's
    leading count says, each stripped of NUL bytes, decoded and lower-cased. *)
Definition directory_names (fp : list byte) : outcome (list K) :=
  match table_directory decompress fp 0 (Z.to_nat (dir_count fp)) with
  | None => Raise AssertionError
  | Some directory =>
      (name_list (Z.to_nat (uint_at directory 0)) (Buffer.mk directory 4)).1
  end.

End DirectoryNames.

(** ** Vocabulary of the properties *)

(** [m] raises no exception but [e0]. *)
Definition raises_only {S A} (e0 : exn) (m : M S A) : Prop :=
  forall s e s', m s = (Raise e, s') -> e = e0.

(** Every run of [m], whether it returns or raises, takes a state to one
    related to it by [R]. *)
Definition preserves {A} (R : Wld.t -> Wld.t -> Prop) (m : M Wld.t A) : Prop :=
  forall w r w', m w = (r, w') -> R w w'.

(** [w'] differs from [w] in the reference objects only. *)
Definition only_refs (w w' : Wld.t) : Prop := w' = Wld.set_refs (Wld.refs w') w.

(** [w'] differs from [w] at most in the reference objects, the warning
    counters and the zone: the stream, the fragment tables and every payload
    object are the same. *)
Definition fragments_unchanged (w w' : Wld.t) : Prop :=
  w' = Wld.set_refs (Wld.refs w')
         (Wld.set_texture_warnings (Wld.texture_warnings w')
            (Wld.set_zone (Wld.zone w') w)).

(** Two payloads that are equal, or dicts that agree on every key but
    ["light"]. *)
Definition same_but_light (c c' : pyval) : Prop :=
  c' = c \/
  exists d d', c = VDict d /\ c' = VDict d' /\
    forall k, k <> "light"%string -> dict_get k d' = dict_get k d.

(** The fragment tables are the same, and the payload objects are the same
    up to the ["light"] entry of dicts. *)
Definition lights_frame (w w' : Wld.t) : Prop :=
  Wld.frags w' = Wld.frags w /\ Wld.names w' = Wld.names w /\
  Wld.byType w' = Wld.byType w /\ Wld.b w' = Wld.b w /\
  forall i, option_Forall2 same_but_light (Wld.objs w !! i) (Wld.objs w' !! i).

(** The ["light"] entry of the payload of fragment [i]. *)
Definition light_field (w : Wld.t) (i : Z) : option pyval :=
  match Wld.objs w !! i with
  | Some (VDict d) => dict_get "light" d
  | _ => None
  end.

(** A reference that holds its final value: neither [None], which marks a
    reference as not yet resolved, nor another reference. *)
Definition resolved (r : Wld.FragRef) : Prop :=
  Wld.ref_value r <> VNone /\ forall a, Wld.ref_value r <> VFragRef a.

(** Every reference that holds its final value in [w] is the same in [w']. *)
Definition refs_kept (w w' : Wld.t) : Prop :=
  forall a r, Wld.refs w !! a = Some r -> resolved r -> Wld.refs w' !! a = Some r.

(** The payload [light] of a light placement held a reference in its
    ["light"] entry in [w]; in [w'] the entry holds the value that reference
    has resolved to, which is not a reference. *)
Definition light_overwritten (w w' : Wld.t) (light : pyval) : Prop :=
  exists i a v,
    light = VObj i /\
    light_field w i = Some (VFragRef a) /\
    light_field w' i = Some v /\
    (forall a', v <> VFragRef a') /\
    exists r, Wld.refs w' !! a = Some r /\ Wld.ref_value r = v.

(** The cursor [b] stands before a run of chunks, [b'] is the cursor after
    them; each chunk is listed with the decompressed length its second field
    states and with what its bytes decompress to. *)
Inductive chunk_run (decompress : list byte -> option (list byte))
  : Buffer.t -> list (Z * list byte) -> Buffer.t -> Prop :=
| run_nil b : chunk_run decompress b [] b
| run_cons b deflen b1 inflen b2 raw b3 plain rest b' :
    Buffer.uint b = (Ok deflen, b1) ->
    Buffer.uint b1 = (Ok inflen, b2) ->
    Buffer.read deflen b2 = (Ok raw, b3) ->
    decompress raw = Some plain ->
    chunk_run decompress b3 rest b' ->
    chunk_run decompress b ((inflen, plain) :: rest) b'.

(** The decompressed bytes of a run of chunks. *)
Definition run_data (cs : list (Z * list byte)) : list byte := concat (map snd cs).

(** The directory blob: the count, then each name with its length. *)
Definition dirblob (names : list (list byte)) : list byte :=
  u32 (Z.of_nat (length names))
    ++ concat (map (fun n => u32 (Z.of_nat (length n)) ++ n) names).

(** The directory table of entries (checksum, total size, chunk bytes) laid
    out one after the other from [pos]. *)
Fixpoint entry_table (pos : Z) (entries : list (Z * Z * list byte)) : list byte :=
  match entries with
  | [] => []
  | (crc, size, body) :: rest =>
      u32 crc ++ u32 pos ++ u32 size
        ++ entry_table (pos + Z.of_nat (length body)) rest
  end.

Definition archive (entries : list (Z * Z * list byte)) : list byte :=
  let bodies := concat (map snd entries) in
  u32 (8 + Z.of_nat (length bodies)) ++ bytes_of S3D.PFS_MAGIC ++ bodies
    ++ u32 (Z.of_nat (length entries)) ++ entry_table 8 entries.

(** One file, "a", of one byte, in a chunk that states a decompressed length
    of 100; the directory's own chunk states 0. *)
Definition lying_archive : list byte :=
  archive [ (1, 1, chunk 100 (bytes_of [65]));
            (S3D.DIRECTORY_CRC, 10, chunk 0 (dirblob [bytes_of [97; 0]])) ].

(** Two files whose names, "a" and "A", are one name in lower case. *)
Definition clash_archive : list byte :=
  archive [ (1, 1, chunk 1 (bytes_of [65]));
            (2, 1, chunk 1 (bytes_of [66]));
            (S3D.DIRECTORY_CRC, 16,
             chunk 16 (dirblob [bytes_of [97; 0]; bytes_of [65; 0]])) ].

(** The materials, polygons and collidability of a list of meshes. *)
Definition mesh_summary (ms : list Mesh) : list (Material * list pyval * bool) :=
  map (fun m => (mesh_material m, mesh_polys m, mesh_collidable m)) ms.

(** The keys of a table with one entry per fragment index below [n], in
    stream order. *)
Definition fragment_keys (n : nat) : list Z := map Z.of_nat (seq 0 n).

(** [self.frags] is the same table in both states. *)
Definition same_frags (w w' : Wld.t) : Prop := Wld.frags w' = Wld.frags w.

(** An entry of the table built during the decode: the tuple
    [(i, name, type, frag)] stored at key [i]. *)
Definition decode_entry (x : Z * pyval) : Prop :=
  exists name type frag, x.2 = VTuple [VInt x.1; name; VInt type; frag].

(** ** Further functions of the sources *)

(** [decodeString(s)] for a [str]: the branch taken when the argument is
    not [bytes]. *)
Fixpoint decodeString_str_from (i : nat) (s : string) : string :=
  match s with
  | EmptyString => EmptyString
  | String x s' =>
      String (chr (Z.lxor (ord x) (nth (i mod length Wld.xorkey)%nat Wld.xorkey 0)))
             (decodeString_str_from (S i) s')
  end.
Definition decodeString_str (s : string) : string := decodeString_str_from 0 s.

(** The [str] whose code points are the given bytes. *)
Fixpoint str_of_bytes (bs : list byte) : string :=
  match bs with
  | [] => EmptyString
  | x :: bs' => String (chr (byte_val x)) (str_of_bytes bs')
  end.

(** The code point 0 occurs in [s]. *)
Fixpoint has_nul (s : string) : bool :=
  match s with
  | EmptyString => false
  | String c s' => (ord c =? 0) || has_nul s'
  end.

(** *** converter.py: s3dFallback *)

Section Fallback.

Context {V : Type}.

(** The dict objects passed to [s3dFallback] are told apart by identity
    ([xfiles is not files]); [content] gives the mapping each object holds. *)
Variable content : nat -> gmap string V.

(** [d.update(other)]: the entries of [other] win. *)
Definition dict_update (d other : gmap string V) : gmap string V := other ∪ d.

(** The inner loop: [for xfiles in filedicts: if xfiles is not files:
    nfiles.update(xfiles)]. *)
Definition fallback_others (files : nat) (filedicts : list nat) : gmap string V :=
  fold_left (fun nfiles xfiles =>
               if Nat.eqb xfiles files then nfiles
               else dict_update nfiles (content xfiles))
            filedicts ∅.

(** [s3dFallback], applied to any number of dicts. *)
Definition s3dFallback (filedicts : list nat) : list (gmap string V) :=
  map (fun files => dict_update (fallback_others files filedicts) (content files))
      filedicts.

End Fallback.

(** *** The tables while the stream is decoded *)

(** A table entry of the decode: a tuple [(i, name, type, frag)]. *)
Definition is_entry (e : pyval) : bool :=
  match e with VTuple [_; _; _; _] => true | _ => false end.

(** [e[3]] of such an entry. *)
Definition entry_payload (e : pyval) : pyval :=
  match e with VTuple [_; _; _; frag] => frag | _ => VNone end.

(** Every entry of [self.frags] and of [self.names] is such a tuple, as it
    is from the start of [__init__] until the tables are rebuilt at its
    end. *)
Definition decode_tables (w : Wld.t) : bool :=
  forallb (fun x => is_entry x.2) (Wld.frags w)
  && forallb (fun x => is_entry x.2) (map_to_list (Wld.names w)).

(** The reference [getFrag(ref)] builds: by index for a positive [ref], by
    name otherwise, holding the payload of the entry found, if any. *)
Definition getFrag_ref (w : Wld.t) (ref : Z) : Wld.FragRef :=
  if 0 <? ref then
    Wld.mkFragRef (Some (ref - 1)) None
      (default VNone (entry_payload <$> od_get (ref - 1) (Wld.frags w)))
  else
    Wld.mkFragRef None (Some (Wld.getString w (- ref)))
      (default VNone
         (entry_payload <$> Wld.names w !! Some (Wld.getString w (- ref)))).

(** *** What the converters do to the zone *)

(** [l'] is [l] with items added at its end. *)
Definition extends {A} (l l' : list A) : Prop := exists more, l' = l ++ more.

(** Every object of [os] is in [os'] at the same place, under the same
    name, with its meshes and possibly more after them. *)
Definition objects_grow (os os' : list (string * list Mesh)) : Prop :=
  forall i name ms, os !! i = Some (name, ms) ->
    exists more, os' !! i = Some (name, ms ++ more).

(** The zone of [w'] is the zone of [w] with meshes added to the world
    object, and nothing else. *)
Definition zone_meshes_added (w w' : Wld.t) : Prop :=
  extends (zoneobj (Wld.zone w)) (zoneobj (Wld.zone w')) /\
  objects (Wld.zone w') = objects (Wld.zone w) /\
  lights (Wld.zone w') = lights (Wld.zone w) /\
  placeables (Wld.zone w') = placeables (Wld.zone w).

(** The zone of [w'] is the zone of [w] with objects, meshes of objects
    and placeables added, and nothing else. *)
Definition zone_objects_added (w w' : Wld.t) : Prop :=
  zoneobj (Wld.zone w') = zoneobj (Wld.zone w) /\
  objects_grow (objects (Wld.zone w)) (objects (Wld.zone w')) /\
  lights (Wld.zone w') = lights (Wld.zone w) /\
  extends (placeables (Wld.zone w)) (placeables (Wld.zone w')).

(** The zone of [w'] is the zone of [w] with lights added, and nothing
    else. *)
Definition zone_lights_added (w w' : Wld.t) : Prop :=
  zoneobj (Wld.zone w') = zoneobj (Wld.zone w) /\
  objects (Wld.zone w') = objects (Wld.zone w) /\
  extends (lights (Wld.zone w)) (lights (Wld.zone w')) /\
  placeables (Wld.zone w') = placeables (Wld.zone w).

(** The zone and the fragment tables are the same in both states. *)
Definition same_zone (w w' : Wld.t) : Prop :=
  Wld.zone w' = Wld.zone w /\ Wld.byType w' = Wld.byType w.

(** The warning counters are the same in both states. *)
Definition same_warnings (w w' : Wld.t) : Prop :=
  Wld.texture_warnings w' = Wld.texture_warnings w.

(** The fragment tables, the number of objects and the placeables are the
    same in both states. *)
Definition same_objects_count (w w' : Wld.t) : Prop :=
  Wld.byType w' = Wld.byType w /\
  length (objects (Wld.zone w')) = length (objects (Wld.zone w)) /\
  placeables (Wld.zone w') = placeables (Wld.zone w).

(** What one turn of the loop over [polytex] does to the warning counters
    at the call site [site], for a run bound to texture [index]: a run in
    range leaves them alone; a run out of range adds one to the counter of
    its key, which names the index and the number of textures. *)
Definition run_counted (site : string) (fuel : nat) (meshfrag : pyval) (index : Z)
  (w w' : Wld.t) : Prop :=
  exists n w1, Wld.textures_len fuel meshfrag w = (Ok n, w1) /\
    if n <=? index then
      exists avail w2, Wld.textures_len fuel meshfrag w1 = (Ok avail, w2) /\
        Wld.texture_warnings w'
        = <[Wld.warning_key site index avail :=
              default 0 (Wld.texture_warnings w !! Wld.warning_key site index avail) + 1]>
            (Wld.texture_warnings w)
    else Wld.texture_warnings w' = Wld.texture_warnings w.

(** *** The fragments of a stream, as the forward pass records them *)

(** One fragment: its name ([None] or a string), its type and its payload. *)
Record entry : Type := mkEntry { e_name : pyval; e_type : Z; e_frag : pyval }.

(** The tuple [(i, name, type, frag)] the forward pass stores. *)
Definition entry_tuple (x : Z * entry) : pyval :=
  VTuple [VInt x.1; e_name x.2; VInt (e_type x.2); e_frag x.2].

(** The entries with their indices, counted from [i]. *)
Fixpoint number (i : Z) (es : list entry) : list (Z * entry) :=
  match es with
  | [] => []
  | e :: es' => (i, e) :: number (i + 1) es'
  end.

(** The entries of type [t], and the entries whose name is the key [k]. *)
Definition of_type (t : Z) (es : list entry) : list entry :=
  filter (fun e => e_type e = t) es.
Definition named (k : option string) (es : list entry) : list entry :=
  filter (fun e => Wld.name_key (e_name e) = k) es.

(** The fragment tables, the payload objects and the [baked] flag are the
    same in both states. *)
Definition same_tables (w w' : Wld.t) : Prop :=
  Wld.frags w' = Wld.frags w /\ Wld.names w' = Wld.names w /\
  Wld.byType w' = Wld.byType w /\ Wld.baked w' = Wld.baked w /\
  Wld.objs w' = Wld.objs w.

(** What the payload [frag] of fragment [i], named [name], is once it is
    stored: [None], a reference, or the pointer to an object of its own,
    which carries the name under ["_name"] if it is a dict. *)
Definition payload_stored (i : Z) (name frag : pyval) (objs : gmap Z pyval) : Prop :=
  frag = VNone \/ (exists a, frag = VFragRef a) \/
  (frag = VObj i /\ exists c, objs !! i = Some c /\
     forall d, c = VDict d -> dict_get "_name" d = Some name).

(** A fragment name: [None] or a string. *)
Definition is_name (name : pyval) : Prop :=
  name = VNone \/ exists s, name = VStr s.

(** *** References and polygons *)

(** What the tables hold for a reference: the entry of its index if it has
    one, else the entry of its name. *)
Definition ref_target (w : Wld.t) (r : Wld.FragRef) : option pyval :=
  match Wld.ref_id r, Wld.ref_name r with
  | Some i, _ => od_get i (Wld.frags w)
  | None, Some n => Wld.names w !! Some n
  | None, None => None
  end.

(** A mesh reference (type 0x2D) to fragment index 1, which comes after it,
    and the light source it refers to. *)
Definition forward_stream : list byte :=
  wld_stream 0x1000C800 NUL
    [ fragment 0x2D UNNAMED (i32 2);
      fragment 0x1B UNNAMED (u32 0 ++ u32 0 ++ u32 0x3F800000) ].

Definition forward_scene : Wld.t := decoded forward_stream ∅.

(** A stream with an empty fragment table. *)
Definition empty_stream : list byte := wld_stream 0x1000C800 NUL [].

(** A polygon as [frag_mesh] stores it: the collision flag and the indices. *)
Definition poly_item (p : bool * pyval) : pyval := VTuple [VBool p.1; p.2].

(** One mesh (type 0x36) that has no name. *)
Definition unnamed_mesh_stream : list byte :=
  wld_stream 0x1000C800 NUL [ fragment 0x36 UNNAMED (mesh_payload 0 0 []) ].

Definition unnamed_mesh_scene : Wld.t := decoded unnamed_mesh_stream ∅.


(** An archive of two files whose table lists the file at the higher
    offset first: the body of "a" (one byte, 65) lies at offset 8, the body
    of "b" (one byte, 66) after it, and the table has the entry of the
    second body, then the entry of the first, then the directory. *)
Definition swapped_archive : list byte :=
  let fa := chunk 1 (bytes_of [65]) in
  let fb := chunk 1 (bytes_of [66]) in
  let dir := chunk 16 (dirblob [bytes_of [97; 0]; bytes_of [98; 0]]) in
  let bodies := fa ++ fb ++ dir in
  u32 (8 + Z.of_nat (length bodies)) ++ bytes_of S3D.PFS_MAGIC ++ bodies
    ++ u32 3
    ++ (u32 2 ++ u32 (8 + Z.of_nat (length fa)) ++ u32 1)
    ++ (u32 1 ++ u32 8 ++ u32 1)
    ++ (u32 S3D.DIRECTORY_CRC ++ u32 (8 + Z.of_nat (length fa + length fb))
          ++ u32 16).

(** The scene of [scene_stream] followed by two object placements: the
    first names A_ACTORDEF, whose object "A" the mesh fragment creates; the
    second names B_ACTORDEF, for which the zone has no object. *)
Definition placement_payload (sref : Z) : list byte :=
  i32 sref ++ u32 0 ++ u32 0 ++ concat (repeat (u32 0) 6)
    ++ concat (repeat (u32 0x3F800000) 3) ++ u32 0 ++ u32 0.

Definition placement_strings : string :=
  (NUL +:+ "A_DMSPRITEDEF" +:+ NUL +:+ "A_ACTORDEF" +:+ NUL
       +:+ "B_ACTORDEF" +:+ NUL)%string.

Definition placement_stream : list byte :=
  wld_stream 0x1000C800 placement_strings
    (texture_fragments "a.bmp" 0 2 ++ texture_fragments "b.bmp" 4 4
       ++ [ fragment 0x31 UNNAMED (u32 0 ++ u32 2 ++ u32 4 ++ u32 8);
            fragment 0x36 (-1) (mesh_payload 9 0 [(1, 0)]);
            fragment 0x15 UNNAMED (placement_payload (-15));
            fragment 0x15 UNNAMED (placement_payload (-26)) ]).

Definition placement_scene : Wld.t := decoded placement_stream scene_files.
(** * Properties *)

(** ** The monad *)

Lemma bind_ok {S A B} (m : M S A) (k : A -> M S B) s y s' :
  bind m k s = (Ok y, s') ->
  exists x s1, m s = (Ok x, s1) /\ k x s1 = (Ok y, s').
Proof.
  unfold bind. destruct (m s) as [[x | e] s1]; intros H.
  - eauto.
  - discriminate.
Qed.

Lemma bind_raise {S A B} (m : M S A) (k : A -> M S B) s e s' :
  bind m k s = (Raise e, s') ->
  m s = (Raise e, s') \/ exists x s1, m s = (Ok x, s1) /\ k x s1 = (Raise e, s').
Proof.
  unfold bind. destruct (m s) as [[x | e0] s1]; intros H.
  - right. eauto.
  - left. congruence.
Qed.

Lemma bind_step {S A B} (m : M S A) (k : A -> M S B) s x s1 :
  m s = (Ok x, s1) -> bind m k s = k x s1.
Proof. unfold bind. intros ->. reflexivity. Qed.

Lemma bind_fail {S A B} (m : M S A) (k : A -> M S B) s e s1 :
  m s = (Raise e, s1) -> bind m k s = (Raise e, s1).
Proof. unfold bind. intros ->. reflexivity. Qed.

(** Splits a hypothesis [bind m k s = (Ok _, _)] into its two halves. *)
Ltac bind_inv H :=
  let x := fresh "x" in
  let s := fresh "s" in
  let H1 := fresh H "a" in
  apply bind_ok in H; destruct H as (x & s & H1 & H).

Lemma replicateM_length {S A} (n : nat) (m : M S A) s l s' :
  replicateM n m s = (Ok l, s') -> length l = n.
Proof.
  revert s l s'. induction n as [| n IH]; intros s l s' H; simpl in H.
  - inversion H. reflexivity.
  - bind_inv H. bind_inv H. inversion H; subst. simpl. f_equal. eauto.
Qed.

(** ** The byte cursor *)

Lemma read_ok n (b b' : Buffer.t) bs :
  Buffer.read n b = (Ok bs, b') ->
  bs = take (Z.to_nat n) (drop (Z.to_nat (Buffer.pos b)) (Buffer.data b)) /\
  b' = Buffer.mk (Buffer.data b) (Buffer.pos b + n) /\
  0 <= Buffer.pos b /\ 0 <= n /\ Buffer.pos b + n <= Z.of_nat (length (Buffer.data b)).
Proof.
  unfold Buffer.read.
  destruct (_ && _) eqn:E; intros H; inversion H; subst.
  apply andb_prop in E as [E E3]. apply andb_prop in E as [E1 E2].
  repeat split; lia.
Qed.

Lemma read_raise n (b b' : Buffer.t) e :
  Buffer.read n b = (Raise e, b') -> e = TruncatedDataError /\ b' = b.
Proof.
  unfold Buffer.read. destruct (_ && _); intros H; inversion H; auto.
Qed.

(** A fixed-width read: [conv] of the [n] bytes at the cursor. *)
Lemma fixed_read_ok {A} n (conv : list byte -> A) (b b' : Buffer.t) x :
  (let! bs := Buffer.read n in ret (conv bs)) b = (Ok x, b') ->
  x = conv (take (Z.to_nat n) (drop (Z.to_nat (Buffer.pos b)) (Buffer.data b))) /\
  b' = Buffer.mk (Buffer.data b) (Buffer.pos b + n).
Proof.
  intros H. bind_inv H. inversion H; subst.
  apply read_ok in Ha as (-> & -> & _). auto.
Qed.

Lemma liftB_inv {A} (m : M Buffer.t A) w r w' :
  Wld.liftB m w = (r, w') ->
  exists b', m (Wld.b w) = (r, b') /\ w' = Wld.set_b b' w.
Proof.
  unfold Wld.liftB, zoom. destruct (m (Wld.b w)) as [r0 b0]. intros H.
  inversion H; subst. eauto.
Qed.

Lemma wld_uint_ok w z w' :
  Wld.uint w = (Ok z, w') ->
  z = le_uint (take 4 (drop (Z.to_nat (Buffer.pos (Wld.b w))) (Buffer.data (Wld.b w)))) /\
  w' = Wld.set_b (Buffer.mk (Buffer.data (Wld.b w)) (Buffer.pos (Wld.b w) + 4)) w.
Proof.
  intros H. apply liftB_inv in H as (b' & H & ->).
  apply (fixed_read_ok 4 le_uint) in H as [-> ->]. auto.
Qed.

Lemma wld_int_ok w z w' :
  Wld.int w = (Ok z, w') ->
  w' = Wld.set_b (Buffer.mk (Buffer.data (Wld.b w)) (Buffer.pos (Wld.b w) + 4)) w.
Proof.
  intros H. apply liftB_inv in H as (b' & H & ->).
  apply (fixed_read_ok 4 (fun bs => to_signed 32 (le_uint bs))) in H as [_ ->]. auto.
Qed.

(** ** C8: normalised texture flags *)

Lemma frag_texref_returns_saneflags w v w' :
  Wld.frag_texref w = (Ok v, w') ->
  exists pairflags w1 flags w2 r,
    Wld.uint w = (Ok pairflags, w1) /\ Wld.uint w1 = (Ok flags, w2) /\
    v = VTuple [VInt (Wld.texref_saneflags flags); r].
Proof.
  unfold Wld.frag_texref. intros H.
  do 6 bind_inv H. inversion H; subst.
  do 5 eexists. split; [eassumption |]. split; [eassumption |]. reflexivity.
Qed.

(** The if-chain on the four raw flag values of the scenario. *)
Lemma texref_saneflags_scenarios :
  (Wld.texref_saneflags 0 = FLAG_TRANSPARENT /\
   Z.land (Wld.texref_saneflags 0) FLAG_MASKED = 0 /\
   Z.land (Wld.texref_saneflags 0) FLAG_TRANSLUCENT = 0) /\
  Wld.texref_saneflags 2 = FLAG_MASKED /\
  Wld.texref_saneflags 4 = FLAG_TRANSLUCENT /\
  (Wld.texref_saneflags 6 = Z.lor FLAG_MASKED FLAG_TRANSLUCENT /\
   Z.land (Wld.texref_saneflags 6) FLAG_TRANSPARENT = 0).
Proof. repeat split; reflexivity. Qed.

(** C8.  Whenever [frag_texref] returns, the first item of the pair it
    returns is the normalised flag set of the raw flags, which are the
    second unsigned integer of the fragment (the four bytes at offset 4 from
    the cursor), and of nothing else.  Raw flags 0 give exactly the
    transparent flag, with masked and translucent clear; raw flags 2 give
    exactly masked; raw flags 4 give exactly translucent; raw flags 6 give
    masked and translucent together and nothing else. *)
Theorem frag_texref_normalises_flags (w : Wld.t) (v : pyval) (w' : Wld.t) :
  Wld.frag_texref w = (Ok v, w') ->
  let flags := uint_at (Buffer.data (Wld.b w)) (Buffer.pos (Wld.b w) + 4) in
  exists saneflags texbitinfo_ref,
    v = VTuple [VInt saneflags; texbitinfo_ref] /\
    saneflags = Wld.texref_saneflags flags /\
    (flags = 0 ->
     saneflags = FLAG_TRANSPARENT /\
     Z.land saneflags FLAG_MASKED = 0 /\ Z.land saneflags FLAG_TRANSLUCENT = 0) /\
    (flags = 2 -> saneflags = FLAG_MASKED) /\
    (flags = 4 -> saneflags = FLAG_TRANSLUCENT) /\
    (flags = 6 ->
     saneflags = Z.lor FLAG_MASKED FLAG_TRANSLUCENT /\
     Z.land saneflags FLAG_TRANSPARENT = 0).
Proof.
  intros H flags.
  apply frag_texref_returns_saneflags in H
    as (pairflags & w1 & raw & w2 & r & H1 & H2 & ->).
  apply wld_uint_ok in H1 as [_ ->].
  apply wld_uint_ok in H2 as [-> _].
  cbn [Wld.b Wld.set_b Buffer.data Buffer.pos].
  fold (uint_at (Buffer.data (Wld.b w)) (Buffer.pos (Wld.b w) + 4)).
  fold flags.
  exists (Wld.texref_saneflags flags), r.
  split; [reflexivity |]. split; [reflexivity |].
  clearbody flags.
  split; [intros -> | split; [intros -> | split; [intros -> | intros ->]]];
    repeat split; reflexivity.
Qed.

(** C8 on [texref_payload], whose raw flags are 6: the handler returns
    masked and translucent together. *)
Lemma frag_texref_normalises_flags_witness :
  exists texbitinfo_ref,
    (Wld.frag_texref (Wld.fresh texref_payload ∅)).1
    = Ok (VTuple [VInt (Z.lor FLAG_MASKED FLAG_TRANSLUCENT); texbitinfo_ref]).
Proof.
  destruct (Wld.frag_texref (Wld.fresh texref_payload ∅)) as [[v | e] w'] eqn:E;
    [| vm_compute in E; discriminate E].
  destruct (frag_texref_normalises_flags _ _ _ E)
    as (saneflags & r & -> & _ & _ & _ & _ & H6).
  destruct H6 as [-> _]; [vm_compute; reflexivity |].
  exists r. reflexivity.
Defined.

(** ** C7: rotation of an object placement *)

Lemma float_neq (x y : pyfloat) :
  PrimFloat.eqb x y = false -> PrimFloat.eqb y y = true -> x <> y.
Proof. intros H Hy E. subst x. congruence. Qed.

(** The rotation [frag_objloc] stores is [objloc_rotation] of the three
    floats it read. *)
Lemma frag_objloc_returns_rotation w v w' :
  Wld.frag_objloc w = (Ok v, w') ->
  exists d rot, v = VDict d /\
    dict_get "rotation" d = Some (Wld.objloc_rotation rot).
Proof.
  unfold Wld.frag_objloc. intros H.
  do 8 bind_inv H. inversion H; subst.
  eexists _, _. split; reflexivity.
Qed.

Lemma buffer_float_ok (b b' : Buffer.t) f :
  Buffer.float b = (Ok f, b') ->
  f = float_at (Buffer.data b) (Buffer.pos b) /\
  b' = Buffer.mk (Buffer.data b) (Buffer.pos b + 4).
Proof. apply (fixed_read_ok 4 (fun bs => float_of_f32_bits (le_uint bs))). Qed.

(** [b.float(3)]: the three floats at the cursor, which moves on by twelve
    bytes. *)
Lemma wld_float3_ok w l w' :
  Wld.floatN 3 w = (Ok l, w') ->
  l = [float_at (Buffer.data (Wld.b w)) (Buffer.pos (Wld.b w));
       float_at (Buffer.data (Wld.b w)) (Buffer.pos (Wld.b w) + 4);
       float_at (Buffer.data (Wld.b w)) (Buffer.pos (Wld.b w) + 8)] /\
  w' = Wld.set_b (Buffer.mk (Buffer.data (Wld.b w)) (Buffer.pos (Wld.b w) + 12)) w.
Proof.
  intros H. apply liftB_inv in H as (b' & H & ->).
  unfold Buffer.floatN in H. change (Z.to_nat 3) with 3%nat in H.
  cbn [replicateM] in H.
  apply bind_ok in H as (f0 & b1 & H0 & H). apply buffer_float_ok in H0 as [-> ->].
  apply bind_ok in H as (l1 & b4 & H & Hret). inversion Hret; subst. clear Hret.
  apply bind_ok in H as (f1 & b2 & H1 & H). apply buffer_float_ok in H1 as [-> ->].
  apply bind_ok in H as (l2 & b5 & H & Hret). inversion Hret; subst. clear Hret.
  apply bind_ok in H as (f2 & b3 & H2 & H). apply buffer_float_ok in H2 as [-> ->].
  apply bind_ok in H as (l3 & b6 & H & Hret). inversion Hret; subst. clear Hret.
  inversion H; subst. clear H.
  cbn [Buffer.data Buffer.pos].
  replace (Buffer.pos (Wld.b w) + 4 + 4) with (Buffer.pos (Wld.b w) + 8) by lia.
  replace (Buffer.pos (Wld.b w) + 8 + 4) with (Buffer.pos (Wld.b w) + 12) by lia.
  split; reflexivity.
Qed.

(** What [frag_objloc] returns, in terms of the bytes at the cursor: the
    reference at offset 0, the position floats at 12, the rotation floats
    at 24 and the scale floats at 36. *)
Lemma frag_objloc_reads w v w' :
  Wld.frag_objloc w = (Ok v, w') ->
  let data := Buffer.data (Wld.b w) in
  let p := Buffer.pos (Wld.b w) in
  exists sref pos,
    v = VDict [("position"%string, VTuple (map VFloat pos));
               ("rotation"%string,
                Wld.objloc_rotation [float_at data (p + 24); float_at data (p + 28);
                                     float_at data (p + 32)]);
               ("scale"%string,
                Wld.objloc_scale [float_at data (p + 36); float_at data (p + 40);
                                  float_at data (p + 44)]);
               ("nameoff"%string, VInt sref)].
Proof.
  intros H data p. unfold Wld.frag_objloc in H.
  apply bind_ok in H as (sref & w1 & H1 & H). apply wld_int_ok in H1 as ->.
  apply bind_ok in H as (flags & w2 & H2 & H). apply wld_uint_ok in H2 as [_ ->].
  apply bind_ok in H as (unk & w3 & H3 & H). apply wld_uint_ok in H3 as [_ ->].
  apply bind_ok in H as (pos & w4 & H4 & H). apply wld_float3_ok in H4 as [_ ->].
  apply bind_ok in H as (rot & w5 & H5 & H). apply wld_float3_ok in H5 as [-> ->].
  apply bind_ok in H as (scale & w6 & H6 & H). apply wld_float3_ok in H6 as [-> ->].
  apply bind_ok in H as (unk2 & w7 & _ & H).
  apply bind_ok in H as (params2 & w8 & _ & H).
  inversion H; subst. clear H.
  cbn [Wld.b Wld.set_b Buffer.data Buffer.pos].
  fold data. fold p.
  exists sref, pos.
  replace (p + 4 + 4 + 4 + 12 + 12 + 8) with (p + 44) by lia.
  replace (p + 4 + 4 + 4 + 12 + 12 + 4) with (p + 40) by lia.
  replace (p + 4 + 4 + 4 + 12 + 12) with (p + 36) by lia.
  replace (p + 4 + 4 + 4 + 12 + 8) with (p + 32) by lia.
  replace (p + 4 + 4 + 4 + 12 + 4) with (p + 28) by lia.
  replace (p + 4 + 4 + 4 + 12) with (p + 24) by lia.
  reflexivity.
Qed.

(** C7, as the code has it.  Rotation units (512, 0, 0) decode to
    (0, 0, 2 pi): the axes are taken third, second, first, and 512 units are
    one full turn, 360 degrees, so 256 units are what decodes to pi.  The
    rotation [frag_objloc] stores is this function of the three floats at
    offsets 24, 28 and 32 of the fragment, whenever the handler returns. *)
Theorem objloc_rotation_512 :
  Wld.objloc_rotation [512%float; 0%float; 0%float]
    = VTuple [VFloat 0; VFloat 0; VFloat two_pi] /\
  Wld.objloc_rotation [256%float; 0%float; 0%float]
    = VTuple [VFloat 0; VFloat 0; VFloat Wld.pi] /\
  (forall w v w',
     Wld.frag_objloc w = (Ok v, w') ->
     let data := Buffer.data (Wld.b w) in
     let p := Buffer.pos (Wld.b w) in
     exists d, v = VDict d /\
       dict_get "rotation" d
       = Some (Wld.objloc_rotation [float_at data (p + 24); float_at data (p + 28);
                                    float_at data (p + 32)])).
Proof.
  split; [vm_compute; reflexivity |]. split; [vm_compute; reflexivity |].
  intros w v w' H data p.
  destruct (frag_objloc_reads w v w' H) as (sref & pos & ->).
  eexists. split; reflexivity.
Qed.

(** C7 fails as stated: (512, 0, 0) does not decode to (0, 0, pi). *)
Lemma objloc_rotation_512_not_pi :
  Wld.objloc_rotation [512%float; 0%float; 0%float]
    <> VTuple [VFloat 0; VFloat 0; VFloat Wld.pi].
Proof.
  intros H.
  apply (f_equal (fun v => match v with
                           | VTuple [_; _; VFloat f] => f
                           | _ => 0%float
                           end)) in H.
  revert H. apply float_neq; vm_compute; reflexivity.
Qed.

Example frag_objloc_512 :
  (Wld.frag_objloc (Wld.fresh objloc_payload ∅)).1
  = Ok (VDict [("position"%string, VTuple [VFloat 0; VFloat 0; VFloat 0]);
               ("rotation"%string, VTuple [VFloat 0; VFloat 0; VFloat two_pi]);
               ("scale"%string, VTuple [VFloat 1; VFloat 1; VFloat 1]);
               ("nameoff"%string, VInt 0)]).
Proof. vm_compute. reflexivity. Qed.

(** ** C2: the table walk stays synchronised *)

Lemma entry_header_ok w size type nameoff w1 :
  Wld.entry_header w = (Ok (size, type, nameoff), w1) ->
  size = entry_size w /\
  Buffer.pos (Wld.b w1) = Buffer.pos (Wld.b w) + 12.
Proof.
  unfold Wld.entry_header. intros H. do 3 bind_inv H. inversion H; subst.
  apply wld_uint_ok in Ha as [-> ->].
  apply wld_uint_ok in Ha0 as [_ ->].
  apply wld_int_ok in Ha1 as ->.
  split; [reflexivity | simpl; lia].
Qed.

(** C2.  Whatever registry of handlers is in force, when the decode of a
    table entry completes the cursor is at the end position the entry's
    [size] field declares ([b.pos + size - 4] after the twelve header
    bytes).  The registry is arbitrary: the handler may be absent for the
    entry's type, or may have read fewer (or more) bytes than declared. *)
Theorem frag_step_lands_on_declared_end
  (handlers : Z -> option (M Wld.t pyval)) (i : Z) (w w' : Wld.t) :
  Wld.frag_step handlers i w = (Ok tt, w') ->
  Buffer.pos (Wld.b w') = declared_end w.
Proof.
  unfold Wld.frag_step. intros H.
  bind_inv H. destruct x as [[size type] nameoff].
  apply entry_header_ok in Ha as [-> Hpos].
  bind_inv H. inversion Ha; subst. clear Ha.
  do 5 bind_inv H.
  apply liftB_inv in H as (b' & H & ->). inversion H; subst.
  simpl. unfold declared_end. lia.
Qed.

(** C2 on an entry whose handler under-reads: fragment 1 of
    [empty_names_stream] has type 0x05, whose handler reads four of the
    eight payload bytes. *)
Lemma frag_step_lands_on_declared_end_witness :
  let w := (Wld.frag_step (Wld.fragHandlers no_sets) 0
              (at_table empty_names_stream)).2 in
  Buffer.pos (Wld.b (Wld.frag_step (Wld.fragHandlers no_sets) 1 w).2)
    = declared_end w.
Proof.
  apply (frag_step_lands_on_declared_end (Wld.fragHandlers no_sets) 1).
  vm_compute. reflexivity.
Defined.

(** An entry of a type with no handler decodes, consuming nothing. *)
Lemma frag_step_unregistered handlers i w size type nameoff w1 :
  Wld.entry_header w = (Ok (size, type, nameoff), w1) ->
  handlers type = None ->
  exists w', Wld.frag_step handlers i w = (Ok tt, w').
Proof.
  intros Hh Hn. unfold Wld.frag_step.
  rewrite (bind_step _ _ _ _ _ Hh). cbn beta iota.
  unfold bind at 1. unfold get. rewrite Hn.
  unfold bind, ret, modify, Wld.store_payload, Wld.when, Wld.liftB, zoom,
    Buffer.set_pos, ret, modify.
  destruct (_ || _); eauto.
Qed.

(** ** C10: the colour-count assertion of the mesh handler *)

Lemma raises_only_ret {S A} e0 (x : A) : raises_only (S := S) e0 (ret x).
Proof. intros s e s' H. discriminate. Qed.

Lemma raises_only_bind {S A B} e0 (m : M S A) (k : A -> M S B) :
  raises_only e0 m -> (forall x, raises_only e0 (k x)) -> raises_only e0 (bind m k).
Proof.
  intros Hm Hk s e s' H. apply bind_raise in H as [H | (x & s1 & _ & H)].
  - eapply Hm; eauto.
  - eapply Hk; eauto.
Qed.

Lemma raises_only_replicateM {S A} e0 n (m : M S A) :
  raises_only e0 m -> raises_only e0 (replicateM n m).
Proof.
  intros Hm. induction n as [| n IH]; simpl.
  - apply raises_only_ret.
  - apply raises_only_bind; [assumption |]. intros x.
    apply raises_only_bind; [assumption |]. intros xs. apply raises_only_ret.
Qed.

Lemma raises_only_read n : raises_only TruncatedDataError (Buffer.read n).
Proof. intros s e s' H. apply read_raise in H as [-> _]. reflexivity. Qed.

Lemma raises_only_liftB {A} e0 (m : M Buffer.t A) :
  raises_only e0 m -> raises_only e0 (Wld.liftB m).
Proof.
  intros Hm w e w' H. apply liftB_inv in H as (b' & H & _). eapply Hm; eauto.
Qed.

Lemma raises_only_ushort : raises_only TruncatedDataError Wld.ushort.
Proof.
  apply raises_only_liftB, raises_only_bind; [apply raises_only_read |].
  intros x. apply raises_only_ret.
Qed.

Lemma raises_only_ushortN n : raises_only TruncatedDataError (Wld.ushortN n).
Proof.
  apply raises_only_liftB, raises_only_replicateM, raises_only_bind;
    [apply raises_only_read |]. intros x. apply raises_only_ret.
Qed.

Lemma le_uint_nonneg bs : 0 <= le_uint bs.
Proof.
  induction bs as [| x bs IH]; simpl; [lia |].
  unfold byte_val. lia.
Qed.

Lemma ushortN_nonneg n w l w' :
  Wld.ushortN n w = (Ok l, w') -> Forall (fun z => 0 <= z) l.
Proof.
  intros H. apply liftB_inv in H as (b' & H & _).
  unfold Buffer.ushortN in H. revert H. generalize (Wld.b w). revert l b'.
  induction (Z.to_nat n) as [| k IH]; intros l b' b0 H; simpl in H.
  - inversion H. constructor.
  - do 2 bind_inv H. inversion H; subst. constructor; [| eauto].
    unfold Buffer.ushort in Ha. bind_inv Ha. inversion Ha; subst.
    apply le_uint_nonneg.
Qed.

Lemma uintN_length n w l w' :
  Wld.uintN n w = (Ok l, w') -> length l = Z.to_nat n.
Proof.
  intros H. apply liftB_inv in H as (b' & H & _).
  eapply replicateM_length. exact H.
Qed.

(** The colours read are as many as the colour count, which is not
    negative. *)
Lemma frag_mesh_head_colors w h w1 :
  Wld.frag_mesh_head w = (Ok h, w1) ->
  Z.of_nat (length (Wld.mh_tcolors h)) = Wld.mh_colorcount h.
Proof.
  unfold Wld.frag_mesh_head. intros H.
  repeat bind_inv H. inversion H; subst. simpl.
  match goal with
  | Hc : Wld.uintN _ _ = (Ok ?l, _) |- context [length ?l] =>
      apply uintN_length in Hc; rewrite Hc
  end.
  match goal with
  | Hc : Wld.ushortN 4 _ = (Ok ?c, _) |- context [nth 3 ?c 0] =>
      apply ushortN_nonneg in Hc; rename Hc into Hc1; set (c1 := c) in *
  end.
  assert (0 <= nth 3 c1 0); [| lia].
  destruct (nth_in_or_default 3 c1 0) as [Hin | ->]; [| lia].
  rewrite Forall_forall in Hc1. apply Hc1. apply list_elem_of_In. exact Hin.
Qed.

Lemma raises_only_mesh_rest h :
  Wld.mh_colorcount h = 0 \/ Wld.mh_colorcount h = Wld.mh_vertcount h ->
  Wld.mh_colorcount h = Z.of_nat (length (Wld.mh_tcolors h)) ->
  0 <= Wld.mh_vertcount h ->
  raises_only TruncatedDataError (Wld.frag_mesh_tail h).
Proof.
  intros Hc Hl Hv. unfold Wld.frag_mesh_tail.
  assert (Hassert :
    (Z.of_nat (length (if Wld.mh_colorcount h =? 0
                       then repeat 0 (Wld.range (Wld.mh_vertcount h))
                       else Wld.mh_tcolors h)) =? Wld.mh_vertcount h) = true).
  { apply Z.eqb_eq. destruct (Z.eqb_spec (Wld.mh_colorcount h) 0) as [E | E].
    - rewrite repeat_length. unfold Wld.range. lia.
    - destruct Hc; [contradiction | lia]. }
  rewrite Hassert. simpl assert.
  apply raises_only_bind; [apply raises_only_ret |]. intros _.
  apply raises_only_bind.
  { apply raises_only_replicateM, raises_only_bind; [apply raises_only_ushort |].
    intros f. apply raises_only_bind; [apply raises_only_ushortN |].
    intros l. apply raises_only_ret. }
  intros polys.
  assert (Hpair : raises_only (S := Wld.t) TruncatedDataError
            (let! p := Wld.ushortN 2 in ret (VTuple (map VInt p)))).
  { apply raises_only_bind; [apply raises_only_ushortN |].
    intros l. apply raises_only_ret. }
  apply raises_only_bind; [apply raises_only_replicateM, Hpair |]. intros bv.
  apply raises_only_bind; [apply raises_only_replicateM, Hpair |]. intros pt.
  apply raises_only_ret.
Qed.

Lemma frag_mesh_head_vertcount w h w1 :
  Wld.frag_mesh_head w = (Ok h, w1) -> 0 <= Wld.mh_vertcount h.
Proof.
  unfold Wld.frag_mesh_head. intros H.
  repeat bind_inv H. inversion H; subst. simpl.
  match goal with
  | Hc : Wld.ushortN 4 _ = (Ok ?c, _) |- context [nth 0 ?c 0] =>
      apply ushortN_nonneg in Hc; rename Hc into Hc1; set (c1 := c) in *
  end.
  destruct (nth_in_or_default 0 c1 0) as [Hin | ->]; [| lia].
  rewrite Forall_forall in Hc1. apply Hc1. apply list_elem_of_In. exact Hin.
Qed.

(** An exception of the handler leaves [frag_step] as it is: nothing in
    the loop catches it. *)
Lemma frag_step_handler_raises handlers i w size type nameoff wh h e w1 :
  Wld.entry_header w = (Ok (size, type, nameoff), wh) ->
  handlers type = Some h ->
  h wh = (Raise e, w1) ->
  Wld.frag_step handlers i w = (Raise e, w1).
Proof.
  intros Hh Hs He. unfold Wld.frag_step.
  rewrite (bind_step _ _ _ _ _ Hh). cbn beta iota.
  unfold bind at 1. unfold get. rewrite Hs.
  apply bind_fail. exact He.
Qed.

Lemma frag_loop_app handlers k n i w wk :
  Wld.frag_loop handlers k i w = (Ok tt, wk) ->
  Wld.frag_loop handlers (k + n) i w
  = Wld.frag_loop handlers n (i + Z.of_nat k) wk.
Proof.
  revert i w. induction k as [| k IH]; intros i w H; simpl in *.
  - inversion H; subst. f_equal. lia.
  - bind_inv H. destruct x. rewrite (bind_step _ _ _ _ _ Ha).
    rewrite (IH _ _ H). f_equal. lia.
Qed.

Lemma frag_loop_raises handlers k n i w wk e w1 :
  Wld.frag_loop handlers k i w = (Ok tt, wk) ->
  Wld.frag_step handlers (i + Z.of_nat k) wk = (Raise e, w1) ->
  Wld.frag_loop handlers (k + S n) i w = (Raise e, w1).
Proof.
  intros Hk Hs. rewrite (frag_loop_app _ _ _ _ _ _ Hk). simpl.
  apply bind_fail. exact Hs.
Qed.

(** C10.  Take a stream whose header reads, whose first [k] table entries
    decode, and whose next entry is a mesh (type 0x36) read as far as its
    colours.  If the colour count it declares is neither zero nor its
    vertex count, the mesh handler raises [AssertionError] and the whole
    decode [Wld(data, s3d)] ends with that exception: the resynchronisation
    at the end of the loop body is never reached.  If the colour count is
    zero or equals the vertex count, the handler does not raise
    [AssertionError]. *)
Theorem mesh_color_count_mismatch_aborts
  (set_order : list Z -> list Z) (data : list byte)
  (files : gmap string (list byte)) (fragCount : Z) (w0 : Wld.t)
  (k : nat) (wk : Wld.t) (size nameoff : Z) (wh : Wld.t)
  (h : Wld.mesh_head) (w1 : Wld.t) :
  Wld.read_header (Wld.fresh data files) = (Ok fragCount, w0) ->
  (k < Wld.range fragCount)%nat ->
  Wld.frag_loop (Wld.fragHandlers set_order) k 0 w0 = (Ok tt, wk) ->
  Wld.entry_header wk = (Ok (size, 0x36, nameoff), wh) ->
  Wld.frag_mesh_head wh = (Ok h, w1) ->
  (Wld.mh_colorcount h <> 0 /\ Wld.mh_colorcount h <> Wld.mh_vertcount h ->
   Wld.frag_mesh wh = (Raise AssertionError, w1) /\
   Wld.init set_order data files = (Raise AssertionError, w1)) /\
  (Wld.mh_colorcount h = 0 \/ Wld.mh_colorcount h = Wld.mh_vertcount h ->
   forall w2, Wld.frag_mesh wh <> (Raise AssertionError, w2)).
Proof.
  intros Hhdr Hk Hloop Hentry Hhead.
  pose proof (frag_mesh_head_colors _ _ _ Hhead) as Hlen.
  pose proof (frag_mesh_head_vertcount _ _ _ Hhead) as Hv.
  split.
  - intros [Hc0 Hcv].
    assert (Hmesh : Wld.frag_mesh wh = (Raise AssertionError, w1)).
    { unfold Wld.frag_mesh. rewrite (bind_step _ _ _ _ _ Hhead).
      unfold Wld.frag_mesh_tail.
      destruct (Z.eqb_spec (Wld.mh_colorcount h) 0) as [E | _]; [contradiction |].
      destruct (Z.eqb_spec (Z.of_nat (length (Wld.mh_tcolors h))) (Wld.mh_vertcount h))
        as [E | _]; [lia |].
      reflexivity. }
    split; [exact Hmesh |].
    unfold Wld.init, Wld.init_body.
    rewrite (bind_step _ _ _ _ _ Hhdr).
    apply bind_fail.
    replace (Wld.range fragCount) with (k + S (Wld.range fragCount - S k))%nat by lia.
    eapply frag_loop_raises; [exact Hloop |].
    eapply frag_step_handler_raises; [exact Hentry | reflexivity | exact Hmesh].
  - intros Hc w2 Hmesh.
    unfold Wld.frag_mesh in Hmesh. rewrite (bind_step _ _ _ _ _ Hhead) in Hmesh.
    apply raises_only_mesh_rest in Hmesh; [discriminate | assumption | lia | assumption].
Qed.

(** C10 on [scene_bad_colors]: its tenth entry is a mesh that declares one
    colour for three vertices. *)
Lemma mesh_color_count_mismatch_aborts_witness :
  (Wld.init no_sets scene_bad_colors scene_files).1 = Raise AssertionError.
Proof.
  set (w0 := (Wld.read_header (Wld.fresh scene_bad_colors scene_files)).2).
  set (wk := (Wld.frag_loop (Wld.fragHandlers no_sets) 9 0 w0).2).
  set (wh := (Wld.entry_header wk).2).
  set (w1 := (Wld.frag_mesh_head wh).2).
  assert (H1 : Wld.read_header (Wld.fresh scene_bad_colors scene_files) = (Ok 10, w0))
    by (vm_compute; reflexivity).
  assert (H2 : (9 < Wld.range 10)%nat) by (vm_compute; lia).
  assert (H3 : Wld.frag_loop (Wld.fragHandlers no_sets) 9 0 w0 = (Ok tt, wk))
    by (vm_compute; reflexivity).
  assert (H4 : Wld.entry_header wk = (Ok (139, 0x36, -1), wh))
    by (vm_compute; reflexivity).
  assert (H5 : exists h, Wld.frag_mesh_head wh = (Ok h, w1) /\
                         Wld.mh_colorcount h = 1 /\ Wld.mh_vertcount h = 3).
  { eexists. split; [vm_compute; reflexivity |]. split; reflexivity. }
  destruct H5 as (h & H5 & Hc & Hv).
  destruct (mesh_color_count_mismatch_aborts no_sets scene_bad_colors scene_files
              10 w0 9 wk 139 (-1) wh h w1 H1 H2 H3 H4 H5) as [Hbad _].
  destruct Hbad as [_ Hinit]; [lia |].
  rewrite Hinit. reflexivity.
Defined.

(** ** What a computation leaves unchanged *)

Section Frame.

Variable R : Wld.t -> Wld.t -> Prop.
Hypothesis R_refl : forall w, R w w.
Hypothesis R_trans : forall w1 w2 w3, R w1 w2 -> R w2 w3 -> R w1 w3.
Hypothesis R_refs : forall w x, R w (Wld.set_refs x w).

Lemma preserves_ret {A} (x : A) : preserves R (ret x).
Proof. intros w r w' H. inversion H; subst. apply R_refl. Qed.

Lemma preserves_raise {A} e : preserves R (raise (A := A) e).
Proof. intros w r w' H. inversion H; subst. apply R_refl. Qed.

Lemma preserves_get : preserves R get.
Proof. intros w r w' H. inversion H; subst. apply R_refl. Qed.

Lemma preserves_lift {A} (o : outcome A) : preserves R (Wld.lift o).
Proof. intros w r w' H. inversion H; subst. apply R_refl. Qed.

Lemma preserves_bind {A B} (m : M Wld.t A) (k : A -> M Wld.t B) :
  preserves R m -> (forall x, preserves R (k x)) -> preserves R (bind m k).
Proof.
  intros Hm Hk w r w' H. unfold bind in H.
  destruct (m w) as [[x | e] w1] eqn:E.
  - eapply R_trans; [eapply Hm | eapply Hk]; eauto.
  - inversion H; subst. eapply Hm; eauto.
Qed.

Lemma preserves_when c (m : M Wld.t unit) :
  preserves R m -> preserves R (Wld.when c m).
Proof. intros Hm. destruct c; simpl; [exact Hm | apply preserves_ret]. Qed.

Lemma preserves_forM_ {A} (xs : list A) (body : A -> M Wld.t unit) :
  (forall x, preserves R (body x)) -> preserves R (forM_ xs body).
Proof.
  intros Hb. induction xs as [| x xs IH]; simpl.
  - apply preserves_ret.
  - apply preserves_bind; [apply Hb | intros _; exact IH].
Qed.

Lemma preserves_mapM {A B} (f : A -> M Wld.t B) (xs : list A) :
  (forall x, preserves R (f x)) -> preserves R (mapM f xs).
Proof.
  intros Hf. induction xs as [| x xs IH]; simpl.
  - apply preserves_ret.
  - apply preserves_bind; [apply Hf | intros y].
    apply preserves_bind; [exact IH | intros ys; apply preserves_ret].
Qed.

Lemma preserves_get_ref a : preserves R (Wld.get_ref a).
Proof.
  intros w r w' H. unfold Wld.get_ref in H.
  destruct (Wld.refs w !! a); inversion H; subst; apply R_refl.
Qed.

Lemma preserves_set_ref_value a v : preserves R (Wld.set_ref_value a v).
Proof.
  intros w r w' H. unfold Wld.set_ref_value in H.
  destruct (Wld.refs w !! a); inversion H; subst; [apply R_refs | apply R_refl].
Qed.

Lemma preserves_deref v : preserves R (Wld.deref v).
Proof.
  intros w r w' H. destruct v; simpl in H; try (inversion H; subst; apply R_refl).
  destruct (Wld.objs w !! i); inversion H; subst; apply R_refl.
Qed.

Lemma preserves_getitem_val v idx : preserves R (Wld.getitem_val v idx).
Proof.
  apply preserves_bind; [apply preserves_deref | intros c; apply preserves_lift].
Qed.

Lemma preserves_len_val v : preserves R (Wld.len_val v).
Proof.
  apply preserves_bind; [apply preserves_deref | intros c; apply preserves_lift].
Qed.

Lemma preserves_getitem_with res v idx :
  (forall a, preserves R (res a)) -> preserves R (Wld.getitem_with res v idx).
Proof.
  intros Hres. destruct v; simpl; try apply preserves_getitem_val.
  apply preserves_bind; [apply Hres | intros r; apply preserves_getitem_val].
Qed.

Lemma resolve_S fuel a :
  Wld.resolve (S fuel) a
  = (let! r := Wld.get_ref a in
     let! w := get in
     do! match Wld.ref_value r with
         | VNone =>
             match Wld.ref_id r, Wld.ref_name r with
             | Some i, _ =>
                 match od_get i (Wld.frags w) with
                 | None => raise KeyError
                 | Some e =>
                     do! Wld.set_ref_value a e in
                     if Wld.baked w then ret tt
                     else let! v := Wld.getitem_with (Wld.resolve fuel) e (VInt 3) in
                          Wld.set_ref_value a v
                 end
             | None, Some n =>
                 match Wld.names w !! Some n with
                 | None => raise KeyError
                 | Some e =>
                     do! Wld.set_ref_value a e in
                     if Wld.baked w then ret tt
                     else let! v := Wld.getitem_with (Wld.resolve fuel) e (VInt 3) in
                          Wld.set_ref_value a v
                 end
             | None, None => ret tt
             end
         | _ => ret tt
         end in
     let! r' := Wld.get_ref a in
     match Wld.ref_value r' with
     | VFragRef a' =>
         let! v := Wld.resolve fuel a' in
         do! Wld.set_ref_value a v in
         ret v
     | v => ret v
     end)%monad.
Proof. reflexivity. Qed.

Lemma preserves_resolve fuel : forall a, preserves R (Wld.resolve fuel a).
Proof.
  induction fuel as [| fuel IH]; intros a.
  - apply preserves_raise.
  - rewrite resolve_S.
    assert (Hlookup : forall (w : Wld.t) (e : pyval),
      preserves R (do! Wld.set_ref_value a e in
                   if Wld.baked w then ret tt
                   else let! v := Wld.getitem_with (Wld.resolve fuel) e (VInt 3) in
                        Wld.set_ref_value a v)).
    { intros w e. apply preserves_bind; [apply preserves_set_ref_value | intros _].
      destruct (Wld.baked w); [apply preserves_ret |].
      apply preserves_bind; [apply preserves_getitem_with, IH | intros v].
      apply preserves_set_ref_value. }
    apply preserves_bind; [apply preserves_get_ref | intros r].
    apply preserves_bind; [apply preserves_get | intros w].
    apply preserves_bind.
    { destruct (Wld.ref_value r); try apply preserves_ret.
      destruct (Wld.ref_id r) as [i |], (Wld.ref_name r) as [n |];
        try apply preserves_ret.
      - destruct (od_get i (Wld.frags w)); [apply Hlookup | apply preserves_raise].
      - destruct (od_get i (Wld.frags w)); [apply Hlookup | apply preserves_raise].
      - destruct (Wld.names w !! Some n); [apply Hlookup | apply preserves_raise]. }
    intros _. apply preserves_bind; [apply preserves_get_ref | intros r'].
    destruct (Wld.ref_value r'); try apply preserves_ret.
    apply preserves_bind; [apply IH | intros v].
    apply preserves_bind; [apply preserves_set_ref_value | intros _].
    apply preserves_ret.
Qed.

Lemma preserves_py_getitem fuel v idx : preserves R (Wld.py_getitem fuel v idx).
Proof. apply preserves_getitem_with, preserves_resolve. Qed.

Lemma preserves_py_len fuel v : preserves R (Wld.py_len fuel v).
Proof.
  destruct v; simpl; try apply preserves_len_val.
  apply preserves_bind; [apply preserves_resolve | intros r; apply preserves_len_val].
Qed.

Lemma preserves_getattr_value v : preserves R (Wld.getattr_value v).
Proof.
  destruct v; simpl; try apply preserves_raise.
  apply preserves_bind; [apply preserves_get_ref | intros r; apply preserves_ret].
Qed.

Lemma preserves_seq_iter n fuel a : forall k, preserves R (Wld.seq_iter n fuel a k).
Proof.
  induction n as [| n IH]; intros k; cbn [Wld.seq_iter].
  - apply preserves_raise.
  - intros w r w' H.
    destruct (Wld.py_getitem fuel (VFragRef a) (VInt k) w) as [[x | e] w1] eqn:E.
    + apply preserves_py_getitem in E. eapply R_trans; [exact E |].
      revert H. apply preserves_bind; [apply IH | intros xs; apply preserves_ret].
    + apply preserves_py_getitem in E.
      destruct e; inversion H; subst; exact E.
Qed.

Lemma preserves_py_iter fuel v : preserves R (Wld.py_iter fuel v).
Proof.
  assert (Hplain : forall u, preserves R
            (let! c := Wld.deref u in
             match iter_items c with
             | Some l => ret l
             | None => raise TypeError
             end)).
  { intros u. apply preserves_bind; [apply preserves_deref | intros c].
    destruct (iter_items c); [apply preserves_ret | apply preserves_raise]. }
  destruct v; try exact (Hplain _). apply preserves_seq_iter.
Qed.

Lemma preserves_unpack2 fuel v : preserves R (Wld.unpack2 fuel v).
Proof.
  apply preserves_bind; [apply preserves_py_iter | intros l].
  destruct l as [| x [| y [| z l]]];
    first [apply preserves_ret | apply preserves_raise].
Qed.

Lemma preserves_py_bool fuel v : preserves R (Wld.py_bool fuel v).
Proof.
  assert (Hplain : forall u, preserves R
            (let! c := Wld.deref u in ret (Wld.truthy_plain c))).
  { intros u. apply preserves_bind; [apply preserves_deref | intros c].
    apply preserves_ret. }
  destruct v; try exact (Hplain _).
  apply preserves_bind; [apply preserves_py_len | intros n; apply preserves_ret].
Qed.

Lemma preserves_slice_items fuel v lo hi : preserves R (Wld.slice_items fuel v lo hi).
Proof.
  apply preserves_bind.
  { destruct v; first [apply preserves_ret | apply preserves_resolve]. }
  intros r. apply preserves_bind; [apply preserves_deref | intros c].
  destruct c; first [apply preserves_ret | apply preserves_raise].
Qed.

End Frame.

(** ** C5 and C3: resolving references *)

Lemma only_refs_refl w : only_refs w w.
Proof. destruct w; reflexivity. Qed.

Lemma only_refs_trans w1 w2 w3 : only_refs w1 w2 -> only_refs w2 w3 -> only_refs w1 w3.
Proof. unfold only_refs. intros H12 H23. rewrite H23, H12. reflexivity. Qed.

Lemma only_refs_set_refs w x : only_refs w (Wld.set_refs x w).
Proof. reflexivity. Qed.

Lemma resolve_only_refs fuel a : preserves only_refs (Wld.resolve fuel a).
Proof.
  apply preserves_resolve;
    [apply only_refs_refl | apply only_refs_trans | apply only_refs_set_refs].
Qed.

Lemma get_ref_ok a w r w' :
  Wld.get_ref a w = (Ok r, w') -> w' = w /\ Wld.refs w !! a = Some r.
Proof.
  unfold Wld.get_ref. destruct (Wld.refs w !! a); intros H; inversion H; auto.
Qed.

Lemma set_ref_value_ok a v w u w' :
  Wld.set_ref_value a v w = (Ok u, w') ->
  exists r, Wld.refs w' !! a = Some r /\ Wld.ref_value r = v.
Proof.
  unfold Wld.set_ref_value. destruct (Wld.refs w !! a) as [r |] eqn:E;
    intros H; inversion H; subst.
  eexists. split;
    [simpl; apply list_lookup_insert_eq; eapply lookup_lt_Some; exact E
    | reflexivity].
Qed.

(** What [resolve] returns is what it leaves in [self.value], and is not a
    reference. *)
Lemma resolve_result fuel : forall a w v w',
  Wld.resolve fuel a w = (Ok v, w') ->
  (exists r, Wld.refs w' !! a = Some r /\ Wld.ref_value r = v) /\
  (forall a', v <> VFragRef a').
Proof.
  induction fuel as [| fuel IH]; intros a w v w' H; [discriminate |].
  rewrite resolve_S in H.
  do 4 bind_inv H.
  apply get_ref_ok in Ha2 as [-> Hr'].
  destruct (Wld.ref_value x2) eqn:Ev;
    try (inversion H; subst; split; [eauto | intros a'; discriminate]).
  do 2 bind_inv H. inversion H; subst.
  split; [eapply set_ref_value_ok; eauto | eapply IH; eauto].
Qed.





Lemma lookup_new_ref (l : list Wld.FragRef) r : (l ++ [r]) !! length l = Some r.
Proof. rewrite lookup_app_r by lia. rewrite Nat.sub_diag. reflexivity. Qed.

(** C3, as the code has it.  [getFrag] on an index or a name that has no
    fragment never raises: it returns a new reference whose [value] is
    [None], and a caller that reads [value] sees that [None] and can skip
    the binding.  [resolve] is not such a caller: as long as the tables
    still lack the fragment it raises [KeyError]. *)
Theorem getFrag_unresolved (w : Wld.t) (ref : Z) :
  (0 < ref -> od_get (ref - 1) (Wld.frags w) = None) ->
  (ref <= 0 -> Wld.names w !! Some (Wld.getString w (- ref)) = None) ->
  let a := length (Wld.refs w) in
  let r := if 0 <? ref
           then Wld.mkFragRef (Some (ref - 1)) None VNone
           else Wld.mkFragRef None (Some (Wld.getString w (- ref))) VNone in
  let w' := Wld.set_refs (Wld.refs w ++ [r]) w in
  Wld.getFrag ref w = (Ok (VFragRef a), w') /\
  Wld.getattr_value (VFragRef a) w' = (Ok VNone, w') /\
  forall fuel, Wld.resolve (S fuel) a w' = (Raise KeyError, w').
Proof.
  intros Hid Hname a r w'.
  assert (Hr : Wld.refs w' !! a = Some r) by apply lookup_new_ref.
  assert (Hg : Wld.get_ref a w' = (Ok r, w'))
    by (unfold Wld.get_ref; rewrite Hr; reflexivity).
  assert (Hv : Wld.ref_value r = VNone) by (unfold r; destruct (0 <? ref); reflexivity).
  split; [| split].
  - unfold Wld.getFrag, bind, get. subst a r w'.
    destruct (Z.ltb_spec 0 ref) as [Hlt | Hle].
    + rewrite (Hid Hlt). reflexivity.
    + rewrite (Hname Hle). reflexivity.
  - unfold Wld.getattr_value. rewrite (bind_step _ _ _ _ _ Hg), Hv. reflexivity.
  - intros fuel. rewrite resolve_S.
    rewrite (bind_step _ _ _ _ _ Hg). unfold bind at 1. unfold get.
    apply bind_fail. rewrite Hv. unfold r.
    destruct (Z.ltb_spec 0 ref) as [Hlt | Hle]; simpl.
    + rewrite (Hid Hlt). reflexivity.
    + rewrite (Hname Hle). reflexivity.
Qed.

(** C3 on the only entry of [dangling_stream], which refers to fragment
    index 8 (encoded as 9): no fragment has been decoded yet. *)
Lemma getFrag_unresolved_witness :
  (Wld.getFrag 9 (at_table dangling_stream)).1 = Ok (VFragRef 0) /\
  (Wld.resolve 1 0 (Wld.getFrag 9 (at_table dangling_stream)).2).1 = Raise KeyError.
Proof.
  destruct (getFrag_unresolved (at_table dangling_stream) 9) as (Hg & _ & Hres).
  - intros _. reflexivity.
  - intros H. vm_compute in H. contradiction.
  - split.
    + rewrite Hg. reflexivity.
    + rewrite Hg. exact (f_equal fst (Hres 0%nat)).
Defined.

(** C3 fails as stated.  After the whole of [dangling_stream] is decoded,
    resolving its reference to the missing fragment raises [KeyError]. *)
Lemma resolve_dangling_raises :
  (Wld.resolve 10 0 dangling).1 = Raise KeyError.
Proof. vm_compute. reflexivity. Qed.

(** ** C9: what the converters change *)

Create HintDb pres discriminated.

(** Closes a goal [preserves R m] for a primitive [m]. *)
Ltac pres_prim :=
  lazymatch goal with
  | |- preserves _ (ret _) => simple eapply preserves_ret
  | |- preserves _ (raise _) => simple eapply preserves_raise
  | |- preserves _ get => simple eapply preserves_get
  | |- preserves _ (Wld.lift _) => simple eapply preserves_lift
  | |- preserves _ (Wld.py_getitem _ _ _) => simple eapply preserves_py_getitem
  | |- preserves _ (Wld.py_len _ _) => simple eapply preserves_py_len
  | |- preserves _ (Wld.getattr_value _) => simple eapply preserves_getattr_value
  | |- preserves _ (Wld.py_iter _ _) => simple eapply preserves_py_iter
  | |- preserves _ (Wld.unpack2 _ _) => simple eapply preserves_unpack2
  | |- preserves _ (Wld.py_bool _ _) => simple eapply preserves_py_bool
  | |- preserves _ (Wld.slice_items _ _ _ _) => simple eapply preserves_slice_items
  | |- preserves _ (Wld.deref _) => simple eapply preserves_deref
  | |- preserves _ (Wld.resolve _ _) => simple eapply preserves_resolve
  | |- preserves _ (Wld.get_ref _) => simple eapply preserves_get_ref
  | |- preserves _ (Wld.set_ref_value _ _) => simple eapply preserves_set_ref_value
  end;
  eassumption.

(** Walks down the binds and case analyses of a computation. *)
Ltac pres :=
  repeat
    (match goal with
     | |- forall _, _ => intro
     | |- preserves _ (bind _ _) => simple eapply preserves_bind; try eassumption
     | |- preserves _ (Wld.when _ _) => simple eapply preserves_when; try eassumption
     | |- preserves _ (forM_ _ _) => simple eapply preserves_forM_; try eassumption
     | |- preserves _ (mapM _ _) => simple eapply preserves_mapM; try eassumption
     | |- preserves _ _ => pres_prim
     | |- preserves _ _ => solve [eauto with pres]
     | |- preserves _ (match ?x with _ => _ end) => destruct x
     end).

Section ConvertFrame.

Variable R : Wld.t -> Wld.t -> Prop.
Hypothesis R_refl : forall w, R w w.
Hypothesis R_trans : forall w1 w2 w3, R w1 w2 -> R w2 w3 -> R w1 w3.
Hypothesis R_refs : forall w x, R w (Wld.set_refs x w).
Hypothesis R_zone : forall w x, R w (Wld.set_zone x w).
Hypothesis R_warnings : forall w x, R w (Wld.set_texture_warnings x w).

Variable fuel : nat.

Lemma preserves_modify_zone (f : Wld.t -> Zone) :
  preserves R (modify (fun w => Wld.set_zone (f w) w)).
Proof. intros w r w' H. inversion H; subst. apply R_zone. Qed.

Lemma preserves_add_zone_mesh m : preserves R (Wld.add_zone_mesh m).
Proof. apply preserves_modify_zone. Qed.

Lemma preserves_add_object_mesh obj m : preserves R (Wld.add_object_mesh obj m).
Proof. apply preserves_modify_zone. Qed.

Lemma preserves_addLight l : preserves R (Wld.addLight l).
Proof. apply preserves_modify_zone. Qed.

Lemma preserves_addPlaceable objname position rotation scale :
  preserves R (Wld.addPlaceable objname position rotation scale).
Proof. apply preserves_modify_zone. Qed.

Lemma preserves_addObject name : preserves R (Wld.addObject name).
Proof. intros w r w' H. inversion H; subst. apply R_zone. Qed.

Lemma preserves_count_warning k : preserves R (Wld.count_warning k).
Proof. intros w r w' H. inversion H; subst. apply R_warnings. Qed.

Lemma preserves_as_int v : preserves R (Wld.as_int v).
Proof. unfold Wld.as_int. pres. Qed.

Lemma preserves_as_str v : preserves R (Wld.as_str v).
Proof. unfold Wld.as_str. pres. Qed.

Hint Resolve preserves_add_zone_mesh preserves_add_object_mesh preserves_addLight
  preserves_addPlaceable preserves_addObject preserves_count_warning
  preserves_as_int preserves_as_str : pres.

Lemma preserves_try_lookup {A} (m h : M Wld.t A) :
  preserves R m -> preserves R h -> preserves R (Wld.try_lookup m h).
Proof.
  intros Hm Hh w r w' H. unfold Wld.try_lookup in H.
  destruct (m w) as [[x | e] w1] eqn:E; apply Hm in E.
  - inversion H; subst. exact E.
  - destruct e; try (inversion H; subst; exact E);
      (eapply R_trans; [exact E | eapply Hh; exact H]).
Qed.

Lemma preserves_texture_file texname : preserves R (Wld.texture_file fuel texname).
Proof. unfold Wld.texture_file. pres. Qed.
Hint Resolve preserves_texture_file : pres.

Lemma preserves_any_sky_word words texname :
  preserves R (Wld.any_sky_word fuel words texname).
Proof. induction words as [| word rest IH]; simpl; pres. Qed.
Hint Resolve preserves_any_sky_word : pres.

Lemma preserves_texture_blobs texnames : preserves R (Wld.texture_blobs fuel texnames).
Proof. unfold Wld.texture_blobs. pres. Qed.
Hint Resolve preserves_texture_blobs : pres.

Lemma preserves_select_polys want items :
  preserves R (Wld.select_polys fuel want items).
Proof. induction items as [| item rest IH]; simpl; pres. Qed.
Hint Resolve preserves_select_polys : pres.

Lemma preserves_emit_run add meshfrag material vbuf off count :
  (forall m, preserves R (add m)) ->
  preserves R (Wld.emit_run fuel add meshfrag material vbuf off count).
Proof. intros Hadd. unfold Wld.emit_run. pres. Qed.

Lemma preserves_vertex_buffer meshfrag : preserves R (Wld.vertex_buffer fuel meshfrag).
Proof. unfold Wld.vertex_buffer. pres. Qed.

Lemma preserves_textures_len meshfrag : preserves R (Wld.textures_len fuel meshfrag).
Proof. unfold Wld.textures_len. pres. Qed.
Hint Resolve preserves_vertex_buffer preserves_textures_len : pres.

Lemma preserves_zone_run_meshes meshfrag vbuf texflags mtex off count :
  preserves R (Wld.zone_run_meshes fuel meshfrag vbuf texflags mtex off count).
Proof.
  unfold Wld.zone_run_meshes. pres.
  apply preserves_emit_run. intros m. apply preserves_add_zone_mesh.
Qed.
Hint Resolve preserves_zone_run_meshes : pres.

Lemma preserves_convertZone_run meshfrag vbuf off run :
  preserves R (Wld.convertZone_run fuel meshfrag vbuf off run).
Proof. unfold Wld.convertZone_run. pres. Qed.

Lemma preserves_run_loop body runs :
  (forall off run, preserves R (body off run)) ->
  forall off, preserves R (Wld.run_loop body off runs).
Proof.
  intros Hb. induction runs as [| run rest IH]; intros off; simpl; pres.
Qed.

Lemma preserves_convertZone_mesh meshfrag :
  preserves R (Wld.convertZone_mesh fuel meshfrag).
Proof.
  unfold Wld.convertZone_mesh. pres.
  apply preserves_run_loop. intros off run. apply preserves_convertZone_run.
Qed.
Hint Resolve preserves_convertZone_mesh : pres.

Lemma preserves_convertZone : preserves R (Wld.convertZone fuel).
Proof. unfold Wld.convertZone. pres. Qed.

Lemma preserves_objects_texture texflags mtex :
  preserves R (Wld.objects_texture fuel texflags mtex).
Proof. unfold Wld.objects_texture. pres. Qed.

Lemma preserves_objects_item meshfrag index :
  preserves R (Wld.objects_item fuel meshfrag index).
Proof. unfold Wld.objects_item. pres. Qed.
Hint Resolve preserves_objects_texture preserves_objects_item : pres.

Lemma preserves_convertObjects_run obj meshfrag vbuf off run :
  preserves R (Wld.convertObjects_run fuel obj meshfrag vbuf off run).
Proof.
  unfold Wld.convertObjects_run. pres.
  - apply preserves_try_lookup; pres.
  - apply preserves_emit_run. intros m. apply preserves_add_object_mesh.
Qed.

Lemma preserves_convertObjects_mesh meshfrag :
  preserves R (Wld.convertObjects_mesh fuel meshfrag).
Proof.
  unfold Wld.convertObjects_mesh. pres.
  apply preserves_run_loop. intros off run. apply preserves_convertObjects_run.
Qed.

Lemma preserves_convertObjects_placement objfrag :
  preserves R (Wld.convertObjects_placement fuel objfrag).
Proof. unfold Wld.convertObjects_placement. pres. Qed.
Hint Resolve preserves_convertObjects_mesh preserves_convertObjects_placement : pres.

Lemma preserves_convertObjects : preserves R (Wld.convertObjects fuel).
Proof. unfold Wld.convertObjects. pres. Qed.

End ConvertFrame.

Lemma fragments_unchanged_refl w : fragments_unchanged w w.
Proof. destruct w; reflexivity. Qed.

Lemma fragments_unchanged_trans w1 w2 w3 :
  fragments_unchanged w1 w2 -> fragments_unchanged w2 w3 -> fragments_unchanged w1 w3.
Proof.
  unfold fragments_unchanged. intros H12 H23. rewrite H23, H12.
  destruct w1; reflexivity.
Qed.

Lemma same_but_light_refl c : same_but_light c c.
Proof. left. reflexivity. Qed.

Lemma same_but_light_trans c1 c2 c3 :
  same_but_light c1 c2 -> same_but_light c2 c3 -> same_but_light c1 c3.
Proof.
  intros [-> | (d1 & d2 & -> & -> & H12)] [-> | (d2' & d3 & E & -> & H23)].
  - left. reflexivity.
  - right. eauto 6.
  - right. eauto 6.
  - inversion E; subst. right. exists d1, d3. split; [reflexivity |].
    split; [reflexivity |]. intros k Hk. rewrite H23, H12 by assumption. reflexivity.
Qed.

Lemma lights_frame_refl w : lights_frame w w.
Proof.
  repeat split. intros i. destruct (Wld.objs w !! i); constructor.
  apply same_but_light_refl.
Qed.

Lemma lights_frame_trans w1 w2 w3 :
  lights_frame w1 w2 -> lights_frame w2 w3 -> lights_frame w1 w3.
Proof.
  intros (F1 & N1 & T1 & B1 & O1) (F2 & N2 & T2 & B2 & O2).
  repeat split; try congruence.
  intros i. specialize (O1 i). specialize (O2 i).
  destruct O1 as [c1 c2 H12 |]; inversion O2; subst; constructor.
  eapply same_but_light_trans; eauto.
Qed.

Lemma lights_frame_same_objs w w' :
  Wld.frags w' = Wld.frags w -> Wld.names w' = Wld.names w ->
  Wld.byType w' = Wld.byType w -> Wld.b w' = Wld.b w ->
  Wld.objs w' = Wld.objs w -> lights_frame w w'.
Proof.
  intros F N T B O. repeat split; try assumption.
  intros i. rewrite O. destruct (Wld.objs w !! i); constructor.
  apply same_but_light_refl.
Qed.

Lemma dict_get_set_ne k k0 v d :
  k <> k0 -> dict_get k (dict_set k0 v d) = dict_get k d.
Proof.
  intros Hne. induction d as [| [k' v'] d IH]; simpl.
  - destruct (String.eqb_spec k k0); [contradiction | reflexivity].
  - destruct (String.eqb_spec k0 k') as [-> | Hk]; simpl.
    + destruct (String.eqb_spec k k'); [contradiction | reflexivity].
    + destruct (String.eqb_spec k k'); [reflexivity | exact IH].
Qed.

Lemma dict_setitem_light d v : preserves lights_frame (Wld.dict_setitem d "light" v).
Proof.
  intros w r w' H. destruct d; simpl in H;
    try (inversion H; subst; apply lights_frame_refl).
  destruct (Wld.objs w !! i) as [c |] eqn:E;
    [| inversion H; subst; apply lights_frame_refl].
  destruct c; inversion H; subst; try apply lights_frame_refl.
  repeat split. intros j. simpl.
  destruct (decide (i = j)) as [-> | Hne].
  - rewrite lookup_insert_eq, E. constructor. right.
    eexists _, _. split; [reflexivity |]. split; [reflexivity |].
    intros k Hk. apply dict_get_set_ne. exact Hk.
  - rewrite lookup_insert_ne by assumption.
    destruct (Wld.objs w !! j); constructor. apply same_but_light_refl.
Qed.

Lemma preserves_convertLights fuel : preserves lights_frame (Wld.convertLights fuel).
Proof.
  assert (R_refl := lights_frame_refl).
  assert (R_trans := lights_frame_trans).
  assert (R_refs : forall w x, lights_frame w (Wld.set_refs x w))
    by (intros; apply lights_frame_same_objs; reflexivity).
  assert (R_zone : forall w x, lights_frame w (Wld.set_zone x w))
    by (intros; apply lights_frame_same_objs; reflexivity).
  assert (Hlight : forall light, preserves lights_frame (Wld.convertLights_light fuel light)).
  { intros light. unfold Wld.convertLights_light, Wld.call_resolve. pres.
    - apply dict_setitem_light.
    - apply preserves_addLight; assumption. }
  unfold Wld.convertLights. pres.
Qed.

(** *** Fragments are created once, in one forward pass *)

(** The handler-level version of [pres]. *)
Ltac hpres :=
  repeat
    (cbv zeta;
     match goal with
     | |- forall _, _ => intro
     | |- preserves _ (bind _ _) => simple eapply preserves_bind; try eassumption
     | |- preserves _ (Wld.when _ _) => simple eapply preserves_when; try eassumption
     | |- preserves _ (mapM _ _) => simple eapply preserves_mapM; try eassumption
     | |- preserves _ _ => pres_prim
     | |- preserves _ _ => solve [eauto with pres]
     | |- preserves _ (match ?x with _ => _ end) => destruct x
     end).

Section HandlerFrame.

Variable R : Wld.t -> Wld.t -> Prop.
Hypothesis R_refl : forall w, R w w.
Hypothesis R_trans : forall w1 w2 w3, R w1 w2 -> R w2 w3 -> R w1 w3.
Hypothesis R_refs : forall w x, R w (Wld.set_refs x w).
Hypothesis R_b : forall w x, R w (Wld.set_b x w).

Lemma preserves_liftB {A} (m : M Buffer.t A) : preserves R (Wld.liftB m).
Proof.
  intros w r w' Hm. apply liftB_inv in Hm as (b' & _ & ->). apply R_b.
Qed.

Lemma preserves_replicateM {A} n (m : M Wld.t A) :
  preserves R m -> preserves R (replicateM n m).
Proof.
  intros Hm. induction n as [| n IH]; simpl.
  - apply preserves_ret; assumption.
  - eapply preserves_bind; [assumption | exact Hm | intros x].
    eapply preserves_bind; [assumption | exact IH | intros xs].
    apply preserves_ret; assumption.
Qed.

Lemma preserves_new_ref r : preserves R (Wld.new_ref r).
Proof. intros w o w' Hn. inversion Hn; subst. apply R_refs. Qed.

Lemma preserves_getFrag ref : preserves R (Wld.getFrag ref).
Proof.
  unfold Wld.getFrag.
  eapply preserves_bind; [assumption | apply preserves_get; assumption | intros w].
  destruct (0 <? ref).
  - destruct (od_get (ref - 1) (Wld.frags w)); [| apply preserves_new_ref].
    eapply preserves_bind;
      [assumption | apply preserves_lift; assumption | intros v; apply preserves_new_ref].
  - destruct (Wld.names w !! Some (Wld.getString w (- ref))); [| apply preserves_new_ref].
    eapply preserves_bind;
      [assumption | apply preserves_lift; assumption | intros v; apply preserves_new_ref].
Qed.

Lemma preserves_uint : preserves R Wld.uint.
Proof. apply preserves_liftB. Qed.
Lemma preserves_int : preserves R Wld.int.
Proof. apply preserves_liftB. Qed.
Lemma preserves_ushort : preserves R Wld.ushort.
Proof. apply preserves_liftB. Qed.
Lemma preserves_short : preserves R Wld.short.
Proof. apply preserves_liftB. Qed.
Lemma preserves_char : preserves R Wld.char.
Proof. apply preserves_liftB. Qed.
Lemma preserves_float : preserves R Wld.float.
Proof. apply preserves_liftB. Qed.
Lemma preserves_read n : preserves R (Wld.read n).
Proof. apply preserves_liftB. Qed.
Lemma preserves_skip n : preserves R (Wld.skip n).
Proof. apply preserves_liftB. Qed.
Lemma preserves_uintN n : preserves R (Wld.uintN n).
Proof. apply preserves_liftB. Qed.
Lemma preserves_intN n : preserves R (Wld.intN n).
Proof. apply preserves_liftB. Qed.
Lemma preserves_ushortN n : preserves R (Wld.ushortN n).
Proof. apply preserves_liftB. Qed.
Lemma preserves_shortN n : preserves R (Wld.shortN n).
Proof. apply preserves_liftB. Qed.
Lemma preserves_floatN n : preserves R (Wld.floatN n).
Proof. apply preserves_liftB. Qed.

Hint Resolve preserves_uint preserves_int preserves_ushort preserves_short
  preserves_char preserves_float preserves_read preserves_skip preserves_uintN
  preserves_intN preserves_ushortN preserves_shortN preserves_floatN
  preserves_getFrag preserves_liftB : pres.

Lemma preserves_float_of_pow2 n : preserves R (Wld.float_of_pow2 n).
Proof. unfold Wld.float_of_pow2. hpres. Qed.
Hint Resolve preserves_float_of_pow2 : pres.

Lemma preserves_texlist_entries n : preserves R (Wld.texlist_entries n).
Proof. induction n as [| n IH]; simpl; hpres. Qed.
Hint Resolve preserves_texlist_entries : pres.

Lemma preserves_frag_texname : preserves R Wld.frag_texname.
Proof. unfold Wld.frag_texname. hpres. apply preserves_replicateM. hpres. Qed.

Lemma preserves_frag_texbitinfo : preserves R Wld.frag_texbitinfo.
Proof. unfold Wld.frag_texbitinfo. hpres. Qed.

Lemma preserves_frag_skelpiecetrack : preserves R Wld.frag_skelpiecetrack.
Proof.
  unfold Wld.frag_skelpiecetrack. hpres. apply preserves_replicateM.
  unfold Wld.skelpiecetrack_frame. hpres.
Qed.

Lemma preserves_frag_skelpiecetrackref : preserves R Wld.frag_skelpiecetrackref.
Proof. unfold Wld.frag_skelpiecetrackref. hpres. Qed.

Lemma preserves_frag_modelref : preserves R Wld.frag_modelref.
Proof.
  unfold Wld.frag_modelref. hpres. apply preserves_replicateM. hpres.
  apply preserves_replicateM. hpres.
Qed.

Lemma preserves_frag_objloc : preserves R Wld.frag_objloc.
Proof. unfold Wld.frag_objloc. hpres. Qed.

Lemma preserves_frag_light_source : preserves R Wld.frag_light_source.
Proof. unfold Wld.frag_light_source. hpres. Qed.

Lemma preserves_frag_light_info : preserves R Wld.frag_light_info.
Proof. unfold Wld.frag_light_info. hpres. Qed.

Lemma preserves_frag_ambient : preserves R Wld.frag_ambient.
Proof. unfold Wld.frag_ambient. hpres. Qed.

Lemma preserves_frag_texref : preserves R Wld.frag_texref.
Proof. unfold Wld.frag_texref. hpres. Qed.

Lemma preserves_frag_texlist : preserves R Wld.frag_texlist.
Proof. unfold Wld.frag_texlist. hpres. Qed.

Lemma preserves_frag_mesh : preserves R Wld.frag_mesh.
Proof.
  unfold Wld.frag_mesh, Wld.frag_mesh_head, Wld.frag_mesh_tail, assert. hpres;
    try (apply preserves_replicateM; hpres).
Qed.

Lemma preserves_frag_skeltrackset set_order :
  preserves R (Wld.frag_skeltrackset set_order).
Proof.
  unfold Wld.frag_skeltrackset. hpres. apply preserves_replicateM.
  unfold Wld.skeltrackset_track. hpres.
Qed.

(** No handler of the registry touches what [R] protects. *)
Lemma preserves_fragHandlers set_order type h :
  Wld.fragHandlers set_order type = Some h -> preserves R h.
Proof.
  unfold Wld.fragHandlers. intros Hh.
  repeat match type of Hh with
         | (if ?c then _ else _) = _ => destruct c
         end;
    inversion Hh; subst;
    first
      [ apply preserves_frag_texname | apply preserves_frag_texbitinfo
      | apply preserves_frag_skeltrackset | apply preserves_frag_skelpiecetrack
      | apply preserves_frag_skelpiecetrackref | apply preserves_frag_modelref
      | apply preserves_frag_objloc | apply preserves_frag_light_source
      | apply preserves_frag_light_info | apply preserves_frag_ambient
      | apply preserves_frag_texref | apply preserves_frag_texlist
      | apply preserves_frag_mesh
      | unfold Wld.frag_texunk, Wld.frag_skeltracksetref, Wld.frag_light_sourceref,
          Wld.frag_meshref; hpres ].
Qed.

End HandlerFrame.

Lemma same_frags_refl w : same_frags w w.
Proof. reflexivity. Qed.

Lemma same_frags_trans w1 w2 w3 :
  same_frags w1 w2 -> same_frags w2 w3 -> same_frags w1 w3.
Proof. unfold same_frags. congruence. Qed.

Lemma same_frags_refs w x : same_frags w (Wld.set_refs x w).
Proof. destruct w; reflexivity. Qed.

Lemma same_frags_b w x : same_frags w (Wld.set_b x w).
Proof. destruct w; reflexivity. Qed.

Lemma same_frags_liftB {A} (m : M Buffer.t A) : preserves same_frags (Wld.liftB m).
Proof.
  apply preserves_liftB. exact same_frags_b.
Qed.

(** No handler of the registry writes to [self.frags]. *)
Lemma same_frags_fragHandlers set_order type h :
  Wld.fragHandlers set_order type = Some h -> preserves same_frags h.
Proof.
  apply preserves_fragHandlers;
    [ exact same_frags_refl | exact same_frags_trans
    | exact same_frags_refs | exact same_frags_b ].
Qed.

Lemma same_frags_entry_header : preserves same_frags Wld.entry_header.
Proof.
  unfold Wld.entry_header.
  repeat (eapply preserves_bind;
          [ exact same_frags_trans | apply same_frags_liftB | intros ? ]).
  apply preserves_ret. exact same_frags_refl.
Qed.

Lemma same_frags_store_payload i name frag :
  preserves same_frags (Wld.store_payload i name frag).
Proof.
  intros w r w' H. destruct w.
  destruct frag; cbv [Wld.store_payload bind modify ret] in H;
    inversion H; reflexivity.
Qed.

Lemma same_frags_read_header : preserves same_frags Wld.read_header.
Proof.
  unfold Wld.read_header, assert.
  repeat
    (cbv zeta;
     lazymatch goal with
     | |- preserves _ (bind _ _) =>
         eapply preserves_bind; [ exact same_frags_trans | | intros ? ]
     | |- preserves _ (Wld.liftB _) => apply same_frags_liftB
     | |- preserves _ (ret _) => apply preserves_ret; exact same_frags_refl
     | |- preserves _ (raise _) => apply preserves_raise; exact same_frags_refl
     | |- preserves _ (modify _) =>
         let w := fresh in let r := fresh in let w' := fresh in let H := fresh in
         intros w r w' H; inversion H; subst; destruct w; reflexivity
     | |- preserves _ (if ?c then _ else _) => destruct c
     | |- preserves _ Wld.uint => apply same_frags_liftB
     | |- preserves _ (Wld.skip _) => apply same_frags_liftB
     | |- preserves _ (Wld.read _) => apply same_frags_liftB
     end).
Qed.

(** Writing a key the table does not have appends it: Python dicts keep
    insertion order. *)
Lemma od_set_fresh {V} (i : Z) (v : V) (d : list (Z * V)) :
  i ∉ map fst d -> od_set i v d = d ++ [(i, v)].
Proof.
  induction d as [| [k x] d IH]; simpl; intros Hi.
  - reflexivity.
  - destruct (Z.eqb_spec i k) as [-> | Hne].
    + exfalso. apply Hi. left.
    + f_equal. apply IH. intros Hin. apply Hi. right. exact Hin.
Qed.

(** One turn of the loop writes [self.frags[i]] and no other key. *)
Lemma frag_step_frags handlers i w w' :
  (forall type h, handlers type = Some h -> preserves same_frags h) ->
  Wld.frag_step handlers i w = (Ok tt, w') ->
  exists name type frag,
    Wld.frags w' = od_set i (VTuple [VInt i; name; VInt type; frag]) (Wld.frags w).
Proof.
  intros Hh H. unfold Wld.frag_step in H.
  apply bind_ok in H as ([[size type] nameoff] & w1 & Hhead & H).
  apply same_frags_entry_header in Hhead.
  apply bind_ok in H as (w1' & w2 & Hget & H). inversion Hget; subst. clear Hget.
  apply bind_ok in H as (frag & w3 & Hfrag & H).
  assert (H23 : same_frags w2 w3).
  { destruct (handlers type) as [h |] eqn:Eh.
    - eapply Hh; eassumption.
    - inversion Hfrag; subst. reflexivity. }
  clear Hfrag.
  apply bind_ok in H as (obj & w4 & Hstore & H).
  apply same_frags_store_payload in Hstore.
  apply bind_ok in H as ([] & w5 & Hset & H). inversion Hset; subst. clear Hset.
  apply bind_ok in H as ([] & w6 & Hnames & H).
  apply bind_ok in H as ([] & w7 & Hby & H). inversion Hby; subst. clear Hby.
  apply same_frags_liftB in H.
  exists (if negb (nameoff =? 16777216)
          then VStr (Wld.getString w2 (- nameoff)) else VNone), type, obj.
  unfold same_frags in *. rewrite H.
  transitivity (Wld.frags w6); [destruct w6; reflexivity |].
  transitivity (Wld.frags (Wld.set_frags
     (od_set i (VTuple [VInt i;
                        (if negb (nameoff =? 16777216)
                         then VStr (Wld.getString w2 (- nameoff)) else VNone);
                        VInt type; obj]) (Wld.frags w4)) w4)).
  - unfold Wld.when in Hnames. destruct (_ || _); inversion Hnames; subst.
    + destruct w4; reflexivity.
    + reflexivity.
  - destruct w4; simpl in *. rewrite Hstore, H23, Hhead. reflexivity.
Qed.

(** The forward pass from index [i] on: the entries the table had stay as
    they were, and one entry per index is appended, in stream order. *)
Lemma frag_loop_frags handlers n : forall i w w',
  (forall type h, handlers type = Some h -> preserves same_frags h) ->
  map fst (Wld.frags w) = fragment_keys i ->
  Wld.frag_loop handlers n (Z.of_nat i) w = (Ok tt, w') ->
  exists entries,
    Wld.frags w' = Wld.frags w ++ entries /\
    map fst entries = map Z.of_nat (seq i n) /\
    Forall decode_entry entries.
Proof.
  induction n as [| n IH]; intros i w w' Hh Hk H; simpl in H.
  - inversion H; subst. exists []. rewrite app_nil_r. repeat split. constructor.
  - apply bind_ok in H as ([] & w1 & Hstep & H).
    apply frag_step_frags in Hstep as (name & type & frag & Hs); [| exact Hh].
    rewrite od_set_fresh in Hs.
    2:{ rewrite Hk. unfold fragment_keys. intros Hin.
        apply list_elem_of_In, in_map_iff in Hin as (k & Hk1 & Hk2).
        apply in_seq in Hk2. lia. }
    replace (Z.of_nat i + 1) with (Z.of_nat (S i)) in H by lia.
    apply IH in H as (entries & He & Hkeys & Hall); [| exact Hh |].
    2:{ rewrite Hs, map_app, Hk. unfold fragment_keys.
        rewrite seq_S, map_app. reflexivity. }
    exists ((Z.of_nat i, VTuple [VInt (Z.of_nat i); name; VInt type; frag]) :: entries).
    split; [| split].
    + rewrite He, Hs, <- app_assoc. reflexivity.
    + simpl. rewrite Hkeys. reflexivity.
    + constructor; [| exact Hall]. do 3 eexists. reflexivity.
Qed.

Lemma rebake_loop_keys (entries : list (Z * pyval)) : forall acc w acc' w',
  Forall decode_entry entries ->
  NoDup (map fst acc.1 ++ map fst entries) ->
  Wld.rebake_loop (map snd entries) acc w = (Ok acc', w') ->
  map fst acc'.1 = map fst acc.1 ++ map fst entries.
Proof.
  induction entries as [| [i e] entries IH]; intros acc w acc' w' Hall Hnd H;
    simpl in H.
  - inversion H; subst. rewrite app_nil_r. reflexivity.
  - inversion Hall as [| ? ? (name & type & frag & He) Hall']; subst.
    simpl in He. subst e.
    apply bind_ok in H as (acc1 & w1 & Hstep & H).
    unfold Wld.rebake_step in Hstep.
    apply bind_ok in Hstep as (w0 & w0' & Hget & Hstep).
    inversion Hget; subst. clear Hget.
    destruct (_ !! type) as [l |]; [| discriminate].
    apply bind_ok in Hstep as ([] & w2 & _ & Hstep).
    inversion Hstep; subst. clear Hstep.
    simpl in Hnd.
    assert (Hfresh : i ∉ map fst acc.1).
    { intros Hin. apply NoDup_app in Hnd as (_ & Hd & _).
      apply (Hd i Hin). left. }
    apply IH in H; [| exact Hall' |].
    + rewrite H. simpl. rewrite od_set_fresh by exact Hfresh.
      rewrite map_app, <- app_assoc. reflexivity.
    + simpl. rewrite od_set_fresh by exact Hfresh.
      rewrite map_app, <- app_assoc. exact Hnd.
Qed.

Lemma NoDup_fragment_keys n : NoDup (fragment_keys n).
Proof.
  unfold fragment_keys. apply NoDup_fmap_2; [apply Nat2Z.inj' |].
  apply NoDup_ListNoDup, List.seq_NoDup.
Qed.

(** The decode creates the fragments [0 .. fragCount - 1], each at its own
    turn of the one forward loop, and the rebake keeps one entry per index,
    in the same order. *)
Lemma init_body_frags handlers data files w :
  (forall type h, handlers type = Some h -> preserves same_frags h) ->
  Wld.init_body handlers (Wld.fresh data files) = (Ok tt, w) ->
  exists fragCount w0,
    Wld.read_header (Wld.fresh data files) = (Ok fragCount, w0) /\
    map fst (Wld.frags w) = fragment_keys (Wld.range fragCount).
Proof.
  intros Hh H. unfold Wld.init_body in H.
  apply bind_ok in H as (fragCount & w0 & Hhead & H).
  exists fragCount, w0. split; [exact Hhead |].
  apply same_frags_read_header in Hhead. unfold same_frags in Hhead.
  simpl in Hhead.
  apply bind_ok in H as ([] & w1 & Hloop & H).
  apply (frag_loop_frags handlers _ 0) in Hloop as (entries & He & Hkeys & Hall);
    [| exact Hh | rewrite Hhead; reflexivity].
  rewrite Hhead in He. simpl in He. rewrite <- He in Hkeys, Hall. clear He entries.
  unfold Wld.rebake in H.
  apply bind_ok in H as ([] & w2 & Hclear & H). inversion Hclear; subst. clear Hclear.
  apply bind_ok in H as (w2 & w2' & Hget & H). inversion Hget; subst. clear Hget.
  apply bind_ok in H as (acc & w3 & Hre & H).
  replace (Wld.frags _) with (Wld.frags w1) in Hre by (destruct w1; reflexivity).
  apply rebake_loop_keys in Hre; [| exact Hall |].
  2:{ simpl. rewrite Hkeys. apply NoDup_fragment_keys. }
  apply bind_ok in H as ([] & w4 & Hf & H). inversion Hf; subst. clear Hf.
  apply bind_ok in H as ([] & w5 & Hn & H). inversion Hn; subst. clear Hn.
  inversion H; subst.
  destruct w3; simpl in *. rewrite Hre, Hkeys. reflexivity.
Qed.

(** *** convertLights stores the resolved light source *)

Lemma dict_get_set_eq k v d : dict_get k (dict_set k v d) = Some v.
Proof.
  induction d as [| [k' v'] d IH]; simpl.
  - rewrite String.eqb_refl. reflexivity.
  - destruct (String.eqb_spec k k') as [-> | Hk]; simpl.
    + rewrite String.eqb_refl. reflexivity.
    + destruct (String.eqb_spec k k'); [contradiction | exact IH].
Qed.

Lemma refs_kept_refl w : refs_kept w w.
Proof. intros a r Hr _. exact Hr. Qed.

Lemma refs_kept_trans w1 w2 w3 :
  refs_kept w1 w2 -> refs_kept w2 w3 -> refs_kept w1 w3.
Proof. intros H12 H23 a r Hr Hres. apply H23; [apply H12 |]; assumption. Qed.

Lemma refs_kept_same_refs w w' : Wld.refs w' = Wld.refs w -> refs_kept w w'.
Proof. intros E a r Hr _. rewrite E. exact Hr. Qed.

(** Storing into a reference that did not hold its final value in [w0]
    keeps every reference that did. *)
Lemma set_ref_value_kept w0 a r0 v w u w' :
  Wld.refs w0 !! a = Some r0 -> ~ resolved r0 ->
  refs_kept w0 w ->
  Wld.set_ref_value a v w = (Ok u, w') ->
  refs_kept w0 w'.
Proof.
  intros Ha Hun Hk H a1 r1 H1 Hres.
  unfold Wld.set_ref_value in H.
  destruct (Wld.refs w !! a) as [r |]; inversion H; subst. simpl.
  destruct (decide (a = a1)) as [-> | Hne].
  - rewrite Ha in H1. inversion H1; subst. contradiction.
  - rewrite list_lookup_insert_ne by assumption. apply Hk; assumption.
Qed.

Lemma getitem_val_state v idx w r w' :
  Wld.getitem_val v idx w = (r, w') -> w' = w.
Proof.
  unfold Wld.getitem_val, bind, Wld.deref, Wld.lift, ret.
  destruct v; try (intros H; inversion H; reflexivity).
  destruct (Wld.objs w !! i); intros H; inversion H; reflexivity.
Qed.

(** A resolution that returns changes no reference that held its final
    value. *)
Lemma resolve_refs_kept fuel : forall a w v w',
  Wld.resolve fuel a w = (Ok v, w') -> refs_kept w w'.
Proof.
  induction fuel as [| fuel IH]; intros a w v w' H; [discriminate |].
  rewrite resolve_S in H.
  apply bind_ok in H as (r & w1 & Hg & H). apply get_ref_ok in Hg as [-> Hr].
  apply bind_ok in H as (w0 & w1 & Hget & H). inversion Hget; subst w0 w1. clear Hget.
  apply bind_ok in H as ([] & w2 & Hblock & H).
  apply bind_ok in H as (r' & w3 & Hg & H). apply get_ref_ok in Hg as [-> Hr'].
  assert (Hnested : forall e x wa wb,
            Wld.getitem_with (Wld.resolve fuel) e (VInt 3) wa = (Ok x, wb) ->
            refs_kept wa wb).
  { intros e x wa wb Hn. unfold Wld.getitem_with in Hn.
    destruct e;
      try (apply getitem_val_state in Hn; subst; apply refs_kept_refl).
    apply bind_ok in Hn as (y & wc & Hres & Hn).
    apply getitem_val_state in Hn. subst wb. eapply IH; eassumption. }
  assert (Hstore : forall e wa,
            Wld.ref_value r = VNone ->
            (do! Wld.set_ref_value a e in
             if Wld.baked w then ret tt
             else let! v := Wld.getitem_with (Wld.resolve fuel) e (VInt 3) in
                  Wld.set_ref_value a v) w = (Ok tt, wa) ->
            refs_kept w wa).
  { intros e wa Hv Hs.
    assert (Hun : ~ resolved r) by (intros [Hn _]; contradiction).
    apply bind_ok in Hs as ([] & wb & Hset & Hs).
    pose proof (set_ref_value_kept w a r e w tt wb Hr Hun (refs_kept_refl w) Hset)
      as Hk1.
    destruct (Wld.baked w); [inversion Hs; subst; exact Hk1 |].
    apply bind_ok in Hs as (x & wc & Hn & Hs).
    eapply set_ref_value_kept; [exact Hr | exact Hun | | exact Hs].
    eapply refs_kept_trans; [exact Hk1 | eapply Hnested; exact Hn]. }
  assert (Hk2 : refs_kept w w2 /\ (w2 = w \/ Wld.ref_value r = VNone)).
  { destruct (Wld.ref_value r) eqn:Ev;
      try (inversion Hblock; subst; split; [apply refs_kept_refl | left; reflexivity]).
    split; [| right; reflexivity].
    destruct (Wld.ref_id r) as [i |].
    - destruct (od_get i (Wld.frags w)) as [e |]; [| discriminate].
      eapply Hstore; [reflexivity | exact Hblock].
    - destruct (Wld.ref_name r) as [n |].
      + destruct (Wld.names w !! Some n) as [e |]; [| discriminate].
        eapply Hstore; [reflexivity | exact Hblock].
      + inversion Hblock; subst. apply refs_kept_refl. }
  destruct Hk2 as [Hk2 Hcase].
  destruct (Wld.ref_value r') eqn:Ev';
    try (inversion H; subst; exact Hk2).
  apply bind_ok in H as (x & w4 & Hres & H).
  apply bind_ok in H as ([] & w5 & Hset & H). inversion H; subst.
  assert (Hun : ~ resolved r).
  { destruct Hcase as [-> | Hv].
    - rewrite Hr in Hr'. inversion Hr'; subst r'.
      intros [_ Hf]. eapply Hf. exact Ev'.
    - intros [Hn _]. contradiction. }
  eapply set_ref_value_kept; [exact Hr | exact Hun | | exact Hset].
  eapply refs_kept_trans; [exact Hk2 | eapply IH; exact Hres].
Qed.

(** One turn of the loop of [convertLights] that completes. *)
Lemma convertLights_light_ok fuel light w w' :
  Wld.convertLights_light fuel light w = (Ok tt, w') ->
  exists i d a v,
    light = VObj i /\
    Wld.objs w !! i = Some (VDict d) /\
    dict_get "light" d = Some (VFragRef a) /\
    Wld.objs w' = <[i := VDict (dict_set "light" v d)]> (Wld.objs w) /\
    v <> VNone /\ (forall a', v <> VFragRef a') /\
    (exists r, Wld.refs w' !! a = Some r /\ Wld.ref_value r = v) /\
    refs_kept w w'.
Proof.
  unfold Wld.convertLights_light. intros H.
  apply bind_ok in H as (l & w1 & Hl & H).
  apply bind_ok in H as (v & w2 & Hres & H).
  apply bind_ok in H as ([] & w3 & Hset & H).
  destruct light as [| | | | | | | | | i]; try discriminate Hset.
  unfold Wld.py_getitem, Wld.getitem_with in Hl.
  pose proof (getitem_val_state _ _ _ _ _ Hl) as ->.
  destruct l as [| | | | | | | | a |]; try discriminate Hres.
  cbn [Wld.call_resolve] in Hres.
  pose proof (resolve_only_refs _ _ _ _ _ Hres) as Hframe.
  pose proof (resolve_refs_kept _ _ _ _ _ Hres) as Hkept.
  apply resolve_result in Hres as [(r & Hr & Hv) Hnf].
  assert (Hobjs : Wld.objs w2 = Wld.objs w) by (rewrite Hframe; reflexivity).
  unfold Wld.dict_setitem in Hset. rewrite Hobjs in Hset.
  destruct (Wld.objs w !! i) as [c |] eqn:Ec; [| discriminate].
  destruct c as [| | | | | | | d | |]; try discriminate Hset.
  inversion Hset; subst w3. clear Hset.
  unfold Wld.getitem_val, bind, Wld.deref in Hl. rewrite Ec in Hl.
  unfold Wld.lift in Hl. cbn in Hl.
  destruct (dict_get "light" d) as [l0 |] eqn:El; [| discriminate].
  inversion Hl; subst l0. clear Hl.
  set (w3 := Wld.set_objs _ w2) in H.
  assert (Eobj : Wld.objs w3 !! i = Some (VDict (dict_set "light" v d)))
    by (unfold w3; simpl; apply lookup_insert_eq).
  assert (Hget : forall k, Wld.py_getitem fuel (VObj i) (VStr k) w3
                           = (match dict_get k (dict_set "light" v d) with
                              | Some x => Ok x
                              | None => Raise KeyError
                              end, w3)).
  { intros k. unfold Wld.py_getitem, Wld.getitem_with, Wld.getitem_val, bind,
      Wld.deref. rewrite Eobj. reflexivity. }
  apply bind_ok in H as (position & w4 & Hp & H).
  unfold Wld.key in Hp. rewrite Hget in Hp. inversion Hp; subst w4. clear Hp.
  apply bind_ok in H as (radius & w4 & Hp & H).
  unfold Wld.key in Hp. rewrite Hget in Hp. inversion Hp; subst w4. clear Hp.
  apply bind_ok in H as (l1 & w4 & Hp & H).
  unfold Wld.key in Hp. rewrite Hget, dict_get_set_eq in Hp.
  inversion Hp; subst l1 w4. clear Hp.
  apply bind_ok in H as (attenuation & w4 & Hatt & H).
  assert (Hplain : forall k x wa,
            Wld.py_getitem fuel v k w3 = (Ok x, wa) -> wa = w3 /\ v <> VNone).
  { intros k x wa Hp. unfold Wld.py_getitem, Wld.getitem_with in Hp.
    destruct v; try (exfalso; eapply Hnf; reflexivity);
      pose proof (getitem_val_state _ _ _ _ _ Hp) as ->;
      (split; [reflexivity |]); discriminate. }
  apply Hplain in Hatt as [-> Hnn].
  apply bind_ok in H as (l2 & w4 & Hp & H).
  unfold Wld.key in Hp. rewrite Hget, dict_get_set_eq in Hp.
  inversion Hp; subst l2 w4. clear Hp.
  apply bind_ok in H as (color & w4 & Hc & H).
  apply Hplain in Hc as [-> _].
  apply bind_ok in H as (flags & w4 & Hp & H).
  unfold Wld.key in Hp. rewrite Hget in Hp. inversion Hp; subst w4. clear Hp.
  inversion H; subst w'. clear H.
  exists i, d, a, v.
  split; [reflexivity |]. split; [exact Ec |]. split; [exact El |].
  split; [reflexivity |].
  split; [exact Hnn |]. split; [exact Hnf |].
  split; [exists r; split; [exact Hr | exact Hv] |].
  eapply refs_kept_trans; [exact Hkept |].
  apply refs_kept_same_refs. reflexivity.
Qed.

(** The loop of [convertLights], when it completes: each light placement
    has had its reference replaced by what the reference resolved to, and
    payloads that are not in the list are as they were. *)
Lemma convertLights_loop_ok fuel ls : forall w w',
  forM_ ls (Wld.convertLights_light fuel) w = (Ok tt, w') ->
  Forall (light_overwritten w w') ls /\
  refs_kept w w' /\
  forall j, (forall light, light ∈ ls -> light <> VObj j) ->
            Wld.objs w' !! j = Wld.objs w !! j.
Proof.
  induction ls as [| light ls IH]; intros w w' H; simpl in H.
  - inversion H; subst. split; [constructor |]. split; [apply refs_kept_refl | auto].
  - apply bind_ok in H as ([] & w1 & Hturn & H).
    apply convertLights_light_ok in Hturn
      as (i & d & a & v & -> & Ei & El & Eobjs & Hnn & Hnf & (r & Hr & Hv) & Hk1).
    apply IH in H as (Hall & Hk2 & Hrest).
    assert (Hf1 : light_field w1 i = Some v).
    { unfold light_field. rewrite Eobjs, lookup_insert_eq. apply dict_get_set_eq. }
    assert (Hother : forall light, light_overwritten w1 w' light -> light <> VObj i).
    { intros light (i' & a' & v' & -> & Hf & _) E. inversion E; subst i'.
      rewrite Hf1 in Hf. injection Hf as Hf. eapply Hnf. exact Hf. }
    rewrite Forall_forall in Hall.
    split; [| split].
    + constructor.
      * exists i, a, v. split; [reflexivity |].
        split; [unfold light_field; rewrite Ei; exact El |].
        split.
        { unfold light_field in *. rewrite Hrest; [exact Hf1 |].
          intros light Hin. apply Hother, Hall, Hin. }
        split; [exact Hnf |].
        exists r. split; [| exact Hv].
        apply Hk2; [exact Hr |]. split; rewrite Hv; assumption.
      * rewrite Forall_forall. intros light Hin.
        pose proof (Hall light Hin) as Hov.
        pose proof (Hother light Hov) as Hne.
        destruct Hov as (i' & a' & v' & -> & Hf & Hrest').
        exists i', a', v'. split; [reflexivity |]. split; [| exact Hrest'].
        unfold light_field in *. rewrite Eobjs in Hf.
        rewrite lookup_insert_ne in Hf by congruence. exact Hf.
    + eapply refs_kept_trans; eassumption.
    + intros j Hj. rewrite Hrest.
      * rewrite Eobjs. apply lookup_insert_ne.
        intros ->. eapply Hj; [apply list_elem_of_here | reflexivity].
      * intros light Hin. apply Hj. apply list_elem_of_further. exact Hin.
Qed.

Lemma convertLights_overwrites fuel w w' ls :
  Wld.byType w !! 0x28 = Some ls ->
  Wld.convertLights fuel w = (Ok tt, w') ->
  Forall (light_overwritten w w') ls.
Proof.
  intros Hls H. unfold Wld.convertLights in H.
  apply bind_ok in H as (w0 & w1 & Hget & H). inversion Hget; subst w0 w1.
  rewrite Hls in H. apply convertLights_loop_ok in H as [Hall _]. exact Hall.
Qed.

(** C9, as the code has it.  A decode that completes has created the
    fragments [0 .. fragCount - 1], one per turn of the single forward loop
    and in stream order.  Afterwards convertZone and convertObjects leave
    the stream, the fragment tables and every payload object as they are:
    they change only reference objects (whose cached value they fill), the
    warning counters and the zone.  convertLights leaves the tables as they
    are and changes payload objects in their ["light"] entry only; when it
    returns, it has overwritten that entry in the payload of every light
    placement: the entry held a reference, and now holds the light source
    the reference resolved to.  The frame holds of every run of a
    converter, also one that ends in an exception. *)
Theorem converters_frame (fuel : nat) :
  (forall set_order data files w,
     Wld.init set_order data files = (Ok tt, w) ->
     exists fragCount w0,
       Wld.read_header (Wld.fresh data files) = (Ok fragCount, w0) /\
       map fst (Wld.frags w) = fragment_keys (Wld.range fragCount)) /\
  preserves fragments_unchanged (Wld.convertZone fuel) /\
  preserves fragments_unchanged (Wld.convertObjects fuel) /\
  preserves lights_frame (Wld.convertLights fuel) /\
  (forall w w' ls,
     Wld.byType w !! 0x28 = Some ls ->
     Wld.convertLights fuel w = (Ok tt, w') ->
     Forall (light_overwritten w w') ls).
Proof.
  assert (Hrefs : forall w x, fragments_unchanged w (Wld.set_refs x w))
    by (intros [] x; reflexivity).
  assert (Hzone : forall w x, fragments_unchanged w (Wld.set_zone x w))
    by (intros [] x; reflexivity).
  assert (Hwarn : forall w x, fragments_unchanged w (Wld.set_texture_warnings x w))
    by (intros [] x; reflexivity).
  split; [| split; [| split; [| split]]].
  - intros set_order data files w H.
    apply (init_body_frags (Wld.fragHandlers set_order)); [| exact H].
    apply same_frags_fragHandlers.
  - apply preserves_convertZone;
      [ exact fragments_unchanged_refl | exact fragments_unchanged_trans
      | exact Hrefs | exact Hzone | exact Hwarn ].
  - apply preserves_convertObjects;
      [ exact fragments_unchanged_refl | exact fragments_unchanged_trans
      | exact Hrefs | exact Hzone | exact Hwarn ].
  - apply preserves_convertLights.
  - intros w w' ls. apply convertLights_overwrites.
Qed.

(** The decode of [lights_stream] completes; its table has the keys 0, 1, 2
    its header declares.  Fragment 2 is its one light placement, and
    convertLights overwrites the ["light"] entry of its payload. *)
Lemma converters_frame_witness :
  (exists fragCount w0,
     Wld.read_header (Wld.fresh lights_stream ∅) = (Ok fragCount, w0) /\
     map fst (Wld.frags lights_scene) = fragment_keys (Wld.range fragCount)) /\
  Forall (light_overwritten lights_scene (Wld.convertLights 10 lights_scene).2)
         [VObj 2].
Proof.
  split.
  - apply (proj1 (converters_frame 0) no_sets lights_stream ∅).
    vm_compute. reflexivity.
  - apply (proj2 (proj2 (proj2 (proj2 (converters_frame 10))))).
    + vm_compute. reflexivity.
    + assert (Ho : (Wld.convertLights 10 lights_scene).1 = Ok tt)
        by (vm_compute; reflexivity).
      destruct (Wld.convertLights 10 lights_scene) as [o w'].
      simpl in Ho. subst o. reflexivity.
Defined.

(** C9 fails as stated.  In [lights_scene] the payload of fragment 2, a
    light placement, holds a reference in its ["light"] field; convertLights
    runs to its end and leaves the payload of fragment 0 there instead. *)
Lemma convertLights_overwrites_light :
  light_field lights_scene 2 = Some (VFragRef 1) /\
  (Wld.convertLights 10 lights_scene).1 = Ok tt /\
  light_field (Wld.convertLights 10 lights_scene).2 2 = Some (VObj 0).
Proof. repeat split; vm_compute; reflexivity. Qed.

(** ** C4: the chunks of an archive entry *)

Section ReaderFacts.

Variable decompress : list byte -> option (list byte).

Lemma read_chunks_done fuel size data b :
  size <= Z.of_nat (length data) ->
  S3D.read_chunks decompress fuel size data b = (Ok data, b).
Proof.
  intros Hs. destruct fuel; simpl;
    (destruct (Z.ltb_spec (Z.of_nat (length data)) size); [lia | reflexivity]).
Qed.

Lemma read_chunks_step fuel size data b deflen b1 inflen b2 raw b3 plain :
  Z.of_nat (length data) < size ->
  Buffer.uint b = (Ok deflen, b1) ->
  Buffer.uint b1 = (Ok inflen, b2) ->
  Buffer.read deflen b2 = (Ok raw, b3) ->
  decompress raw = Some plain ->
  S3D.read_chunks decompress (S fuel) size data b
  = S3D.read_chunks decompress fuel size (data ++ plain) b3.
Proof.
  intros Hs H1 H2 H3 H4. simpl.
  destruct (Z.ltb_spec (Z.of_nat (length data)) size); [| lia].
  rewrite (bind_step _ _ _ _ _ H1), (bind_step _ _ _ _ _ H2),
    (bind_step _ _ _ _ _ H3), H4.
  destruct fuel; reflexivity.
Qed.

(** What the loop returns: the data it started from, followed by the
    decompressed bytes of the chunks it read; it has reached [size], and it
    had not before its last chunk.  The stated lengths play no part. *)
Lemma read_chunks_reaches_size fuel : forall size data b out b',
  S3D.read_chunks decompress fuel size data b = (Ok out, b') ->
  exists cs, chunk_run decompress b cs b' /\
    out = data ++ run_data cs /\
    size <= Z.of_nat (length out) /\
    forall ps last, cs = ps ++ [last] ->
      Z.of_nat (length (data ++ run_data ps)) < size.
Proof.
  assert (Hstop : forall size data b out b',
    size <= Z.of_nat (length data) -> (Ok data, b) = (Ok out, b') ->
    exists cs, chunk_run decompress b cs b' /\
      out = data ++ run_data cs /\
      size <= Z.of_nat (length out) /\
      forall ps last, cs = ps ++ [last] ->
        Z.of_nat (length (data ++ run_data ps)) < size).
  { intros size data b out b' Hge H. inversion H; subst. exists [].
    split; [constructor |]. split; [unfold run_data; simpl; rewrite app_nil_r; reflexivity |].
    split; [lia |]. intros ps last E. destruct ps; discriminate. }
  induction fuel as [| fuel IH]; intros size data b out b' H; simpl in H.
  - destruct (Z.ltb_spec (Z.of_nat (length data)) size); [discriminate |].
    eapply Hstop; eauto.
  - destruct (Z.ltb_spec (Z.of_nat (length data)) size) as [Hlt | Hge];
      [| eapply Hstop; eauto].
    do 3 bind_inv H. destruct (decompress x1) as [plain |] eqn:Ed; [| discriminate].
    apply IH in H as (cs & Hrun & -> & Hsize & Hmin).
    exists ((x0, plain) :: cs).
    split; [econstructor; eauto |].
    split; [unfold run_data; simpl; rewrite app_assoc; reflexivity |].
    split; [exact Hsize |].
    intros ps last E. destruct ps as [| p ps]; simpl in E.
    + unfold run_data. simpl. rewrite app_nil_r. exact Hlt.
    + inversion E; subst. unfold run_data. simpl. rewrite app_assoc.
      eapply Hmin. reflexivity.
Qed.

(** On a run of chunks that decompress to [size] bytes in all, the loop
    returns exactly their bytes. *)
Lemma read_chunks_whole_run b cs b' :
  chunk_run decompress b cs b' ->
  forall fuel size data,
    (length cs <= fuel)%nat ->
    Z.of_nat (length data) + Z.of_nat (length (run_data cs)) = size ->
    exists b'', S3D.read_chunks decompress fuel size data b
                = (Ok (data ++ run_data cs), b'').
Proof.
  induction 1 as [b | b deflen b1 inflen b2 raw b3 plain rest b' H1 H2 H3 H4 Hrest IH];
    intros fuel size data Hfuel Hsum; unfold run_data in *.
  - simpl in *. rewrite app_nil_r. eexists. apply read_chunks_done. lia.
  - simpl in Hsum. rewrite length_app in Hsum.
    destruct (Z.ltb_spec (Z.of_nat (length data)) size) as [Hlt | Hge].
    + destruct fuel as [| fuel]; [simpl in Hfuel; lia |].
      rewrite (read_chunks_step _ _ _ _ _ _ _ _ _ _ _ Hlt H1 H2 H3 H4).
      destruct (IH fuel size (data ++ plain)) as [b'' Hb].
      * simpl in Hfuel. lia.
      * rewrite length_app. lia.
      * exists b''. rewrite Hb. simpl. rewrite app_assoc. reflexivity.
    + assert (E : plain ++ concat (map snd rest) = []).
      { apply length_zero_iff_nil. rewrite length_app. lia. }
      simpl. rewrite E, app_nil_r. eexists. apply read_chunks_done. lia.
Qed.

(** A run of chunks takes at least eight bytes of the buffer each. *)
Lemma chunk_run_bytes b cs b' :
  chunk_run decompress b cs b' ->
  cs = [] \/
  (0 <= Buffer.pos b /\
   Buffer.pos b + 8 * Z.of_nat (length cs) <= Buffer.pos b' /\
   Buffer.pos b' <= Z.of_nat (length (Buffer.data b)) /\
   Buffer.data b' = Buffer.data b).
Proof.
  induction 1 as [b | b deflen b1 inflen b2 raw b3 plain rest b' H1 H2 H3 H4 Hrest IH];
    [left; reflexivity | right].
  unfold Buffer.uint in H1, H2. bind_inv H1. bind_inv H2.
  inversion H1; inversion H2; subst.
  apply read_ok in H1a as (_ & -> & Hp & _ & Hq).
  apply read_ok in H2a as (_ & -> & _ & _ & Hr).
  apply read_ok in H3 as (_ & -> & _ & Hd & Hs).
  simpl in *. destruct IH as [-> | (I1 & I2 & I3 & I4)].
  - inversion Hrest; subst. simpl. repeat split; lia.
  - simpl in *. repeat split; try lia. exact I4.
Qed.
(** The bound [readS3D] passes is enough: every turn of the loop reads at
    least eight bytes. *)
Lemma read_chunks_fuel fuel : forall size data b,
  (1 <= fuel)%nat ->
  (0 <= Buffer.pos b ->
   Buffer.pos b <= Z.of_nat (length (Buffer.data b)) ->
   Z.of_nat (length (Buffer.data b)) - Buffer.pos b < 8 * Z.of_nat fuel) ->
  (S3D.read_chunks decompress fuel size data b).1 <> Raise OutOfFuel.
Proof.
  induction fuel as [| fuel IH]; intros size data b Hf Hb; [lia |].
  simpl. destruct (Z.ltb_spec (Z.of_nat (length data)) size); [| discriminate].
  unfold bind at 1.
  destruct (Buffer.uint b) as [[deflen | e] b1] eqn:E1.
  2:{ unfold Buffer.uint in E1. apply bind_raise in E1 as [E1 | (? & ? & _ & E1)];
        [apply read_raise in E1 as [-> _] | ]; discriminate. }
  pose proof E1 as E1'. unfold Buffer.uint in E1'. bind_inv E1'.
  apply read_ok in E1'a as (_ & _ & Hq0 & _ & Hq4).
  apply (fixed_read_ok 4 le_uint) in E1 as [_ ->].
  unfold bind at 1.
  destruct (Buffer.uint _) as [[inflen | e] b2] eqn:E2.
  2:{ unfold Buffer.uint in E2. apply bind_raise in E2 as [E2 | (? & ? & _ & E2)];
        [apply read_raise in E2 as [-> _] | ]; discriminate. }
  pose proof E2 as E2'. unfold Buffer.uint in E2'. bind_inv E2'.
  apply read_ok in E2'a as (_ & _ & Hp0 & _ & Hp4). simpl in Hp0, Hp4.
  apply (fixed_read_ok 4 le_uint) in E2 as [_ ->]. simpl.
  unfold bind at 1.
  destruct (Buffer.read deflen _) as [[raw | e] b3] eqn:E3.
  2:{ apply read_raise in E3 as [-> _]. discriminate. }
  apply read_ok in E3 as (_ & -> & _ & Hd & Hlen). simpl in Hlen.
  destruct (decompress raw); [| discriminate].
  assert (Hb' := Hb Hq0 ltac:(lia)).
  apply IH; simpl; lia.
Qed.

End ReaderFacts.

(** C4, as the code has it.  For the entry at offset [foff] of the file
    [fp], with declared size [size], run with the bound [readS3D] uses:
    - when the loop returns, it has read a run of chunks and returns their
      decompressed bytes, at least [size] of them, fewer than [size] before
      the last chunk; the decompressed length a chunk states is read and
      never compared with anything;
    - when the entry's chunks decompress to [size] bytes in all, the loop
      does return, and returns exactly those bytes, [size] of them;
    - the bound is never what stops the loop. *)
Theorem read_chunks_accumulates
  (decompress : list byte -> option (list byte)) (fp : list byte) (foff size : Z) :
  let b := Buffer.mk fp foff in
  let fuel := S (length fp) in
  (forall out b',
     S3D.read_chunks decompress fuel size [] b = (Ok out, b') ->
     exists cs, chunk_run decompress b cs b' /\ out = run_data cs /\
       size <= Z.of_nat (length out) /\
       forall ps last, cs = ps ++ [last] -> Z.of_nat (length (run_data ps)) < size) /\
  (forall cs b',
     chunk_run decompress b cs b' ->
     Z.of_nat (length (run_data cs)) = size ->
     exists b'', S3D.read_chunks decompress fuel size [] b = (Ok (run_data cs), b'')) /\
  (S3D.read_chunks decompress fuel size [] b).1 <> Raise OutOfFuel.
Proof.
  intros b fuel. split; [| split].
  - intros out b' H. apply read_chunks_reaches_size in H as (cs & Hrun & -> & Hs & Hmin).
    eauto 6.
  - intros cs b' Hrun Hsum.
    apply (read_chunks_whole_run _ _ _ _ Hrun fuel size []); [| simpl; lia].
    destruct (chunk_run_bytes _ _ _ _ Hrun) as [-> | (H0 & H8 & Hlen & _)];
      [simpl; lia |].
    unfold fuel. simpl in *. lia.
  - apply read_chunks_fuel; [unfold fuel; lia |].
    unfold fuel. simpl. lia.
Qed.

(** C4 on the file of [lying_archive], at offset 8 with declared size 1. *)
Lemma read_chunks_accumulates_witness :
  exists cs b', chunk_run zlib_stored (Buffer.mk lying_archive 8) cs b' /\
                bytes_of [65] = run_data cs.
Proof.
  assert (H : S3D.read_chunks zlib_stored (S (length lying_archive)) 1 []
                (Buffer.mk lying_archive 8)
              = (Ok (bytes_of [65]),
                 (S3D.read_chunks zlib_stored (S (length lying_archive)) 1 []
                    (Buffer.mk lying_archive 8)).2))
    by (vm_compute; reflexivity).
  destruct (proj1 (read_chunks_accumulates zlib_stored lying_archive 8 1) _ _ H)
    as (cs & Hrun & Hout & _).
  eauto.
Defined.

(** C4 fails as stated.  The chunk of the file in [lying_archive] states a
    decompressed length of 100 and decompresses to one byte; the reader
    raises nothing and returns the file. *)
Lemma readS3D_ignores_stated_length :
  exists files, S3D.readS3D zlib_stored ascii_lower lying_archive = Ok files /\
                files !! [97] = Some (bytes_of [65]).
Proof. eexists. split; vm_compute; reflexivity. Qed.

(** ** C6: the directory entry is not a file *)

Lemma buffer_uint_ok (b b' : Buffer.t) z :
  Buffer.uint b = (Ok z, b') ->
  z = uint_at (Buffer.data b) (Buffer.pos b) /\
  b' = Buffer.mk (Buffer.data b) (Buffer.pos b + 4).
Proof. apply (fixed_read_ok 4 le_uint). Qed.

Lemma insert_by_offset_perm {A} (x : Z * A) l : S3D.insert_by_offset x l ≡ₚ x :: l.
Proof.
  induction l as [| y l IH]; simpl; [reflexivity |].
  destruct (x.1 <=? y.1); [reflexivity |].
  rewrite IH. apply Permutation_swap.
Qed.

Lemma sort_by_offset_perm {A} (l : list (Z * A)) : S3D.sort_by_offset l ≡ₚ l.
Proof.
  induction l as [| x l IH]; simpl; [reflexivity |].
  rewrite insert_by_offset_perm, IH. reflexivity.
Qed.

Section DirectoryFacts.

Variable decompress : list byte -> option (list byte).
Context {K : Type} `{Countable K}.
Variable decode_lower : list byte -> K.

Lemma read_chunks_data fuel size data b out b' :
  S3D.read_chunks decompress fuel size data b = (Ok out, b') ->
  Buffer.data b' = Buffer.data b.
Proof.
  intros Hr. apply read_chunks_reaches_size in Hr as (cs & Hrun & _).
  destruct (chunk_run_bytes _ _ _ _ Hrun) as [-> | (_ & _ & _ & E)]; [| exact E].
  inversion Hrun; subst. reflexivity.
Qed.

(** One entry of the table: the directory blob is set aside, anything else
    is appended with its offset. *)
Lemma read_entry_ok fp i acc b acc' b' :
  Buffer.data b = fp ->
  S3D.read_entry decompress (S (length fp)) (dir_offset fp) i acc b = (Ok acc', b') ->
  Buffer.data b' = fp /\
  if dir_entry_crc fp i =? S3D.DIRECTORY_CRC
  then acc'.2 = acc.2 /\ acc'.1 = Some
         match dir_entry_data decompress fp i with Ok d => d | Raise _ => [] end
  else acc'.1 = acc.1 /\
       exists d, acc'.2 = acc.2 ++ [(dir_entry_foff fp i, d)] /\
                 dir_entry_data decompress fp i = Ok d.
Proof.
  intros Hfp Hr. unfold S3D.read_entry in Hr.
  bind_inv Hr. inversion Hra; subst. clear Hra.
  bind_inv Hr. apply buffer_uint_ok in Hra as [-> ->]. cbn [Buffer.data Buffer.pos] in Hr.
  bind_inv Hr. apply buffer_uint_ok in Hra as [-> ->]. cbn [Buffer.data Buffer.pos] in Hr.
  bind_inv Hr. apply buffer_uint_ok in Hra as [-> ->]. cbn [Buffer.data Buffer.pos] in Hr.
  bind_inv Hr. inversion Hra; subst. clear Hra. cbn [Buffer.data Buffer.pos] in Hr.
  bind_inv Hr.
  match goal with
  | Hc : S3D.read_chunks _ _ _ _ _ = (Ok ?d, _) |- _ =>
      rename Hc into Hchunks; rename d into data
  end.
  change (uint_at (Buffer.data b) (dir_offset (Buffer.data b) + 4 + i * 12))
    with (dir_entry_crc (Buffer.data b) i) in Hr.
  change (uint_at (Buffer.data b) (dir_offset (Buffer.data b) + 4 + i * 12 + 4))
    with (dir_entry_foff (Buffer.data b) i) in Hr, Hchunks.
  change (uint_at (Buffer.data b) (dir_offset (Buffer.data b) + 4 + i * 12 + 4 + 4))
    with (dir_entry_size (Buffer.data b) i) in Hchunks.
  assert (Hd : dir_entry_data decompress (Buffer.data b) i = Ok data)
    by (unfold dir_entry_data; rewrite Hchunks; reflexivity).
  apply read_chunks_data in Hchunks. cbn [Buffer.data Buffer.pos] in Hchunks.
  destruct (dir_entry_crc (Buffer.data b) i =? S3D.DIRECTORY_CRC);
    inversion Hr; subst; simpl.
  - rewrite Hd. auto.
  - split; [assumption |]. split; [reflexivity |]. eauto.
Qed.

Lemma read_entries_ok fp n : forall i acc b acc' b',
  Buffer.data b = fp ->
  0 <= i ->
  Forall (fun x => exists j, 0 <= j < i /\
            dir_entry_crc fp j <> S3D.DIRECTORY_CRC /\
            dir_entry_foff fp j = x.1 /\
            dir_entry_data decompress fp j = Ok x.2) acc.2 ->
  S3D.read_entries decompress (S (length fp)) (dir_offset fp) n i acc b
    = (Ok acc', b') ->
  Forall (fun x => exists j, 0 <= j < i + Z.of_nat n /\
            dir_entry_crc fp j <> S3D.DIRECTORY_CRC /\
            dir_entry_foff fp j = x.1 /\
            dir_entry_data decompress fp j = Ok x.2) acc'.2 /\
  (length acc'.2 + reserved_entries fp i n = length acc.2 + n)%nat.
Proof.
  induction n as [| n IH]; intros i acc b acc' b' Hfp Hi Hacc Hr; simpl in Hr.
  - inversion Hr; subst. split; [| simpl; lia].
    eapply Forall_impl; [exact Hacc |]. intros x (j & Hj & Hrest).
    exists j. split; [lia | exact Hrest].
  - bind_inv Hr. apply read_entry_ok in Hra as [Hfp' Hstep]; [| exact Hfp].
    apply IH in Hr as [Hall Hlen]; [| exact Hfp' | lia |].
    + split.
      * eapply Forall_impl; [exact Hall |]. intros y (j & Hj & Hrest).
        exists j. split; [lia | exact Hrest].
      * simpl. destruct (Z.eqb_spec (dir_entry_crc fp i) S3D.DIRECTORY_CRC).
        -- destruct Hstep as [E _]. rewrite E in Hlen. lia.
        -- destruct Hstep as [_ (d & E & _)]. rewrite E, length_app in Hlen.
           simpl in Hlen. lia.
    + destruct (Z.eqb_spec (dir_entry_crc fp i) S3D.DIRECTORY_CRC) as [Ec | Ec].
      * destruct Hstep as [E _]. rewrite E.
        eapply Forall_impl; [exact Hacc |]. intros y (j & Hj & Hrest).
        exists j. split; [lia | exact Hrest].
      * destruct Hstep as [_ (d & E & Hd)]. rewrite E.
        apply Forall_app. split.
        -- eapply Forall_impl; [exact Hacc |]. intros y (j & Hj & Hrest).
           exists j. split; [lia | exact Hrest].
        -- constructor; [| constructor]. exists i. simpl.
           split; [lia |]. auto.
Qed.

(** The loop over the names reads the names in order and binds each to the
    data at its place in the list. *)
Lemma read_names_ok fl : forall files b files' b',
  S3D.read_names decode_lower fl files b = (Ok files', b') ->
  exists keys, name_list decode_lower (length fl) b = (Ok keys, b') /\
    length keys = length fl /\
    files' = insert_all (zip keys (map snd fl)) files.
Proof.
  induction fl as [| [foff d] fl IH]; intros files b files' b' Hr; simpl in Hr.
  - inversion Hr; subst. exists []. auto.
  - do 2 bind_inv Hr. apply IH in Hr as (keys & Hk & Hlen & ->).
    exists (decode_lower (S3D.strip_nul x0) :: keys). simpl.
    rewrite (bind_step _ _ _ _ _ Hra), (bind_step _ _ _ _ _ Hra0),
      (bind_step _ _ _ _ _ Hk).
    split; [reflexivity |]. split; [lia | reflexivity].
Qed.

Lemma insert_all_size_le (l : list (K * list byte)) : forall files,
  (size (insert_all l files) <= size files + length l)%nat.
Proof.
  induction l as [| [k d] l IH]; intros files; simpl; [lia |].
  etransitivity; [apply IH |]. rewrite map_size_insert.
  destruct (files !! k); simpl; lia.
Qed.

Lemma insert_all_size_fresh (l : list (K * list byte)) : forall files,
  NoDup (map fst l) ->
  (forall k, k ∈ map fst l -> files !! k = None) ->
  size (insert_all l files) = (size files + length l)%nat.
Proof.
  induction l as [| [k d] l IH]; intros files Hnd Hfresh; simpl; [lia |].
  simpl in Hnd. apply NoDup_cons in Hnd as [Hk Hnd].
  rewrite IH; [| exact Hnd |].
  - rewrite map_size_insert_None; [lia |].
    apply Hfresh. simpl. apply list_elem_of_here.
  - intros k' Hk'. rewrite lookup_insert_ne.
    + apply Hfresh. simpl. apply list_elem_of_further. exact Hk'.
    + intros ->. contradiction.
Qed.

Lemma insert_all_lookup (l : list (K * list byte)) : forall files k d,
  insert_all l files !! k = Some d ->
  files !! k = Some d \/ (k, d) ∈ l.
Proof.
  induction l as [| [k0 d0] l IH]; intros files k d Hl; simpl in Hl; [auto |].
  apply IH in Hl as [Hl | Hl].
  - destruct (decide (k0 = k)) as [-> | Hne].
    + rewrite lookup_insert_eq in Hl. inversion Hl; subst.
      right. apply list_elem_of_here.
    + rewrite lookup_insert_ne in Hl by assumption. auto.
  - right. apply list_elem_of_further. exact Hl.
Qed.

(** One entry of the table, exactly. *)
Lemma read_entry_spec fp i acc b acc' b' :
  Buffer.data b = fp ->
  S3D.read_entry decompress (S (length fp)) (dir_offset fp) i acc b = (Ok acc', b') ->
  Buffer.data b' = fp /\
  exists d, dir_entry_data decompress fp i = Ok d /\
    acc' = if dir_entry_crc fp i =? S3D.DIRECTORY_CRC then (Some d, acc.2)
           else (acc.1, acc.2 ++ [(dir_entry_foff fp i, d)]).
Proof.
  intros Hfp Hr. unfold S3D.read_entry in Hr.
  bind_inv Hr. inversion Hra; subst. clear Hra.
  bind_inv Hr. apply buffer_uint_ok in Hra as [-> ->]. cbn [Buffer.data Buffer.pos] in Hr.
  bind_inv Hr. apply buffer_uint_ok in Hra as [-> ->]. cbn [Buffer.data Buffer.pos] in Hr.
  bind_inv Hr. apply buffer_uint_ok in Hra as [-> ->]. cbn [Buffer.data Buffer.pos] in Hr.
  bind_inv Hr. inversion Hra; subst. clear Hra. cbn [Buffer.data Buffer.pos] in Hr.
  bind_inv Hr.
  match goal with
  | Hc : S3D.read_chunks _ _ _ _ _ = (Ok ?d, _) |- _ =>
      rename Hc into Hchunks; rename d into data
  end.
  change (uint_at (Buffer.data b) (dir_offset (Buffer.data b) + 4 + i * 12))
    with (dir_entry_crc (Buffer.data b) i) in Hr.
  change (uint_at (Buffer.data b) (dir_offset (Buffer.data b) + 4 + i * 12 + 4))
    with (dir_entry_foff (Buffer.data b) i) in Hr, Hchunks.
  change (uint_at (Buffer.data b) (dir_offset (Buffer.data b) + 4 + i * 12 + 4 + 4))
    with (dir_entry_size (Buffer.data b) i) in Hchunks.
  assert (Hd : dir_entry_data decompress (Buffer.data b) i = Ok data)
    by (unfold dir_entry_data; rewrite Hchunks; reflexivity).
  apply read_chunks_data in Hchunks. cbn [Buffer.data Buffer.pos] in Hchunks.
  split.
  - destruct (dir_entry_crc (Buffer.data b) i =? S3D.DIRECTORY_CRC);
      inversion Hr; subst; assumption.
  - exists data. split; [exact Hd |].
    destruct (dir_entry_crc (Buffer.data b) i =? S3D.DIRECTORY_CRC);
      inversion Hr; subst; reflexivity.
Qed.

(** The loop over the table: [filelist] gains the entries without the
    reserved checksum, in table order, and [directory] ends as the data of
    the last entry with it. *)
Lemma read_entries_spec fp n : forall i acc b acc' b',
  Buffer.data b = fp ->
  S3D.read_entries decompress (S (length fp)) (dir_offset fp) n i acc b
    = (Ok acc', b') ->
  acc'.2 = acc.2 ++ table_files decompress fp i n /\
  acc'.1 = match table_directory decompress fp i n with
           | Some d => Some d
           | None => acc.1
           end.
Proof.
  induction n as [| n IH]; intros i acc b acc' b' Hfp Hr; simpl in Hr.
  - inversion Hr; subst. simpl. rewrite app_nil_r. auto.
  - bind_inv Hr.
    apply read_entry_spec in Hra as (Hfp' & d & Hd & ->); [| exact Hfp].
    apply IH in Hr as [H2 H1]; [| exact Hfp'].
    cbn [table_files table_directory]. rewrite Hd.
    destruct (dir_entry_crc fp i =? S3D.DIRECTORY_CRC); cbn [fst snd] in H1, H2.
    + split; [exact H2 |].
      rewrite H1. destruct (table_directory decompress fp (i + 1) n); reflexivity.
    + split; [rewrite H2, <- app_assoc; reflexivity |].
      rewrite H1. destruct (table_directory decompress fp (i + 1) n); reflexivity.
Qed.

End DirectoryFacts.

Lemma assert_ok {S} (c : bool) (s : S) u s' :
  assert c s = (Ok u, s') -> c = true /\ s' = s.
Proof. destruct c; intros E; inversion E; auto. Qed.

(** What [readS3D] returns, in terms of the archive's bytes: the names of
    the directory, bound in order to the data of the entries without the
    reserved checksum, these taken by ascending file offset. *)
Lemma readS3D_ok
  (decompress : list byte -> option (list byte))
  {K : Type} `{Countable K} (decode_lower : list byte -> K)
  (fp : list byte) (files : gmap K (list byte)) :
  S3D.readS3D decompress decode_lower fp = Ok files ->
  let n := Z.to_nat (dir_count fp) in
  let filelist := S3D.sort_by_offset (table_files decompress fp 0 n) in
  exists keys,
    directory_names decompress decode_lower fp = Ok keys /\
    length keys = length filelist /\
    (length filelist + reserved_entries fp 0 n = n)%nat /\
    Forall (kept_entry decompress fp) filelist /\
    files = insert_all (zip keys (map snd filelist)) ∅.
Proof.
  intros Hr n filelist. unfold S3D.readS3D in Hr. cbv zeta in Hr.
  match type of Hr with
  | match ?m with _ => _ end = _ =>
      destruct m as [[[directory fl] | e] b1] eqn:Hmain; [| discriminate]
  end.
  do 5 bind_inv Hmain.
  apply buffer_uint_ok in Hmaina as [-> ->].
  apply read_ok in Hmaina0 as (_ & -> & _).
  apply assert_ok in Hmaina1 as [_ ->].
  inversion Hmaina2; subst. clear Hmaina2.
  apply buffer_uint_ok in Hmaina3 as [-> ->].
  cbn [Buffer.data Buffer.pos] in Hmain.
  change (uint_at fp 0) with (dir_offset fp) in Hmain.
  change (uint_at fp (dir_offset fp)) with (dir_count fp) in Hmain.
  fold n in Hmain.
  assert (Hcount : 0 <= dir_count fp) by apply le_uint_nonneg.
  assert (Hspec := Hmain).
  apply (read_entries_spec decompress fp) in Hspec as [Hfl Hdir]; [| reflexivity].
  apply (read_entries_ok decompress fp) in Hmain as [Hkept Hlen];
    [| reflexivity | lia | constructor].
  cbn [fst snd] in Hfl, Hdir, Hkept, Hlen. simpl in Hfl, Hlen. subst fl.
  fold filelist in Hr.
  assert (Hperm : filelist ≡ₚ table_files decompress fp 0 n)
    by apply sort_by_offset_perm.
  destruct directory as [directory |]; [| discriminate].
  match type of Hr with
  | (?m ?b0).1 = _ => destruct (m b0) as [r bn] eqn:Hnames
  end.
  simpl in Hr. subst r.
  do 2 bind_inv Hnames.
  apply buffer_uint_ok in Hnamesa as [-> ->].
  apply assert_ok in Hnamesa0 as [Hn ->].
  apply Z.eqb_eq in Hn.
  apply read_names_ok in Hnames as (keys & Hk & Hklen & ->).
  cbn [Buffer.data Buffer.pos] in Hk, Hn.
  exists keys.
  split.
  { unfold directory_names. fold n.
    destruct (table_directory decompress fp 0 n) as [d |]; [| discriminate].
    inversion Hdir; subst d. rewrite Hn, Nat2Z.id.
    change 4 with (0 + 4). rewrite Hk. reflexivity. }
  split; [exact Hklen |].
  split; [rewrite Hperm; lia |].
  split; [| reflexivity].
  rewrite Hperm. eapply Forall_impl; [exact Hkept |].
  intros x (j & Hj & Hrest). exists j. split; [lia | exact Hrest].
Qed.

(** C6, as the code has it.  When [readS3D] returns a mapping for an
    archive whose table has exactly one entry with the reserved checksum:
    that entry's data is the directory, and is no file; the files kept are
    the entries whose checksum is not the reserved one, one fewer than the
    table's count; the mapping binds the names the directory lists, in
    order, to the kept files' data in file-offset order, so every value of
    the mapping is the data of a kept entry; it holds at most [count - 1]
    files, and exactly [count - 1] when the directory's names, once stripped
    of NUL bytes, decoded and lower-cased, are pairwise distinct. *)
Theorem readS3D_directory_excluded
  (decompress : list byte -> option (list byte))
  {K : Type} `{Countable K} (decode_lower : list byte -> K)
  (fp : list byte) (files : gmap K (list byte)) :
  S3D.readS3D decompress decode_lower fp = Ok files ->
  reserved_entries fp 0 (Z.to_nat (dir_count fp)) = 1%nat ->
  exists (keys : list K) (filelist : list (Z * list byte)),
    directory_names decompress decode_lower fp = Ok keys /\
    filelist ≡ₚ table_files decompress fp 0 (Z.to_nat (dir_count fp)) /\
    Forall (kept_entry decompress fp) filelist /\
    Z.of_nat (length filelist) = dir_count fp - 1 /\
    length keys = length filelist /\
    files = insert_all (zip keys (map snd filelist)) ∅ /\
    (forall k d, files !! k = Some d -> d ∈ map snd filelist) /\
    Z.of_nat (size files) <= dir_count fp - 1 /\
    (NoDup keys -> Z.of_nat (size files) = dir_count fp - 1).
Proof.
  intros Hr Hone.
  assert (Hcount : 0 <= dir_count fp) by apply le_uint_nonneg.
  destruct (readS3D_ok decompress decode_lower fp files Hr)
    as (keys & Hnames & Hklen & Hlen & Hkept & ->).
  set (n := Z.to_nat (dir_count fp)) in *.
  set (filelist := S3D.sort_by_offset (table_files decompress fp 0 n)) in *.
  rewrite Hone in Hlen.
  assert (Hflen : Z.of_nat (length filelist) = dir_count fp - 1) by lia.
  exists keys, filelist.
  split; [exact Hnames |].
  split; [apply sort_by_offset_perm |].
  split; [exact Hkept |].
  split; [exact Hflen |].
  split; [exact Hklen |].
  split; [reflexivity |].
  assert (Hzip : length (zip keys (map snd filelist)) = length filelist).
  { rewrite length_zip, length_map. lia. }
  split.
  { intros k d Hl. apply insert_all_lookup in Hl as [Hl | Hl].
    - rewrite lookup_empty in Hl. discriminate.
    - eapply elem_of_zip_r. exact Hl. }
  split.
  { pose proof (insert_all_size_le (zip keys (map snd filelist)) ∅) as Hle.
    rewrite map_size_empty, Hzip in Hle. lia. }
  intros Hnd.
  rewrite insert_all_size_fresh.
  - rewrite map_size_empty, Hzip. lia.
  - rewrite fst_zip; [exact Hnd | rewrite length_map; lia].
  - intros k _. apply lookup_empty.
Qed.

(** C6 on [lying_archive]: one file and the directory, which lists the one
    name "a". *)
Lemma readS3D_directory_excluded_witness :
  exists files : gmap (list Z) (list byte),
    S3D.readS3D zlib_stored ascii_lower lying_archive = Ok files /\
    directory_names zlib_stored ascii_lower lying_archive = Ok [[97]] /\
    Z.of_nat (size files) = dir_count lying_archive - 1.
Proof.
  assert (Hrun : exists files : gmap (list Z) (list byte),
            S3D.readS3D zlib_stored ascii_lower lying_archive = Ok files)
    by (eexists; vm_compute; reflexivity).
  destruct Hrun as [files Hr].
  exists files. split; [exact Hr |].
  destruct (readS3D_directory_excluded zlib_stored ascii_lower lying_archive files Hr)
    as (keys & filelist & Hnames & _ & _ & _ & _ & _ & _ & _ & Heq).
  - vm_compute. reflexivity.
  - assert (Hk : directory_names zlib_stored ascii_lower lying_archive = Ok [[97]])
      by (vm_compute; reflexivity).
    split; [exact Hk |].
    apply Heq. rewrite Hk in Hnames. inversion Hnames; subst keys.
    apply NoDup_singleton.
Defined.

(** C6 fails as stated.  The table of [clash_archive] has three entries, one
    of them with the reserved checksum, and the mapping [readS3D] returns
    holds one file, not two: the names "a" and "A" are one key. *)
Lemma readS3D_name_clash :
  dir_count clash_archive = 3 /\
  reserved_entries clash_archive 0 3 = 1%nat /\
  exists files : gmap (list Z) (list byte),
    S3D.readS3D zlib_stored ascii_lower clash_archive = Ok files /\
    size files = 1%nat.
Proof.
  split; [vm_compute; reflexivity |]. split; [vm_compute; reflexivity |].
  eexists. split; vm_compute; reflexivity.
Qed.

(** ** C1: a run whose texture index is out of range *)

(** C1 at [scene_out_of_range]: one mesh, two textures, one run of one
    polygon bound to texture index 3.  convertZone adds the polygon with
    the material at index 3 mod 2 = 1 (the flags of fragment 7, the bytes
    of "b.bmp") and counts one warning for its call site.  convertObjects
    counts one warning for its call site and adds no mesh: the object "A"
    it creates stays empty, the run's polygon is dropped. *)
Theorem out_of_range_run_at_both_call_sites :
  let z := Wld.convertZone 100 scene_out_of_range in
  let o := Wld.convertObjects 100 scene_out_of_range in
  (z.1 = Ok tt /\
   mesh_summary (zoneobj (Wld.zone z.2))
   = [(mkMaterial (VInt FLAG_TRANSLUCENT) [bytes_of [66; 77; 2]] (VInt 0),
       [VTuple [VInt 0; VInt 1; VInt 2]], true)] /\
   map_to_list (Wld.texture_warnings z.2) = [("convertZone_idx3_avail2"%string, 1)]) /\
  (o.1 = Ok tt /\
   objects (Wld.zone o.2) = [("A"%string, [])] /\
   map_to_list (Wld.texture_warnings o.2) = [("convertObjects_idx3_avail2"%string, 1)]).
Proof. repeat split; vm_compute; reflexivity. Qed.

(** * Further properties of the code *)

(** ** wld.py: strings of the stream *)

Lemma xorkey_nth_lt (i : nat) :
  exists j, (j < 8)%nat /\ nth (i mod length Wld.xorkey)%nat Wld.xorkey 0
                           = nth j Wld.xorkey 0.
Proof.
  exists (i mod 8)%nat. split; [apply Nat.mod_upper_bound; discriminate | reflexivity].
Qed.

Lemma xor_twice_byte (x : byte) (j : nat) :
  (j < 8)%nat ->
  chr (Z.lxor (ord (chr (Z.lxor (byte_val x) (nth j Wld.xorkey 0))))
              (nth j Wld.xorkey 0))
  = chr (byte_val x).
Proof.
  intros Hj.
  do 8 (destruct j as [| j]; [destruct x; reflexivity |]).
  lia.
Qed.

Lemma decodeString_from_twice bs : forall i,
  decodeString_str_from i (Wld.decodeString_from i bs) = str_of_bytes bs.
Proof.
  induction bs as [| x bs IH]; intros i;
    cbn [decodeString_str_from Wld.decodeString_from str_of_bytes]; [reflexivity |].
  destruct (xorkey_nth_lt i) as (j & Hj & E). rewrite E.
  rewrite xor_twice_byte by exact Hj. f_equal. apply IH.
Qed.

Lemma decodeString_from_length bs : forall i,
  String.length (Wld.decodeString_from i bs) = length bs.
Proof. induction bs as [| x bs IH]; intros i; simpl; [reflexivity | f_equal; apply IH]. Qed.

(** X1.  The string obfuscation is its own inverse: decoding the [str] that
    decoding a byte string gave yields the bytes again, as code points; and
    decoding keeps the length. *)
Theorem decodeString_involutive (bs : list byte) :
  decodeString_str (Wld.decodeString bs) = str_of_bytes bs /\
  String.length (Wld.decodeString bs) = length bs.
Proof.
  split; [apply decodeString_from_twice | apply decodeString_from_length].
Qed.

Lemma until_nul_split s :
  has_nul (until_nul s) = false /\
  exists rest, s = (until_nul s ++ rest)%string /\
    (rest = EmptyString \/ exists r, rest = String (chr 0) r).
Proof.
  induction s as [| c s (IH1 & rest & IH2 & IH3)]; simpl.
  - split; [reflexivity |]. exists EmptyString. auto.
  - destruct (Z.eqb_spec (ord c) 0) as [E | E]; simpl.
    + split; [reflexivity |]. exists (String c s). split; [reflexivity |].
      right. exists s. f_equal.
      rewrite <- (ascii_N_embedding c). unfold chr, ord in *.
      replace (N_of_ascii c) with 0%N by lia. reflexivity.
    + split.
      * apply Z.eqb_neq in E. rewrite E. exact IH1.
      * exists rest. split; [| exact IH3].
        change (String c s = String c (until_nul s ++ rest)%string).
        f_equal. exact IH2.
Qed.

Lemma str_drop_all n s : (String.length s <= n)%nat -> str_drop n s = EmptyString.
Proof.
  revert s. induction n as [| n IH]; intros [| c s] Hl; simpl in *;
    try reflexivity; try lia.
  apply IH. lia.
Qed.

(** X2.  [getString(i)] is the part of the string table from offset [i] up
    to the next NUL (or to the end of the table): it holds no NUL, and what
    follows it in the table is nothing or starts with NUL.  An offset at or
    past the end of the table gives the empty string and no error. *)
Theorem getString_up_to_nul (w : Wld.t) (i : Z) :
  has_nul (Wld.getString w i) = false /\
  (exists rest,
     str_from (Wld.stringTable w) i = (Wld.getString w i ++ rest)%string /\
     (rest = EmptyString \/ exists r, rest = String (chr 0) r)) /\
  (Z.of_nat (String.length (Wld.stringTable w)) <= i ->
   Wld.getString w i = EmptyString).
Proof.
  unfold Wld.getString.
  destruct (until_nul_split (str_from (Wld.stringTable w) i)) as [H1 H2].
  split; [exact H1 |]. split; [exact H2 |].
  intros Hi. unfold str_from.
  destruct (Z.ltb_spec i 0) as [Hneg | _]; [lia |].
  rewrite str_drop_all by lia. reflexivity.
Qed.

(** ** wld.py: the scale of an object placement *)

(** X3.  Whenever [frag_objloc] returns, the scale it stores is a function
    of the third scale float alone, the four bytes at offset 44 of the
    fragment: that float three times over when it exceeds 0.0001, and the
    integers (1, 1, 1) otherwise, so also when it is zero, negative or not a
    number.  The first two scale floats, at offsets 36 and 40, are read and
    never used. *)
Theorem frag_objloc_scale_uniform (w : Wld.t) (v : pyval) (w' : Wld.t) :
  Wld.frag_objloc w = (Ok v, w') ->
  let s := float_at (Buffer.data (Wld.b w)) (Buffer.pos (Wld.b w) + 44) in
  exists d, v = VDict d /\
    dict_get "scale" d
    = Some (if PrimFloat.ltb 0.0001 s
            then VTuple [VFloat s; VFloat s; VFloat s]
            else VTuple [VInt 1; VInt 1; VInt 1]).
Proof.
  intros H s.
  destruct (frag_objloc_reads w v w' H) as (sref & pos & ->).
  eexists. split; reflexivity.
Qed.

(** X3 on the placement of [objloc_payload], whose scale floats are 1.0:
    the handler returns, and the scale is (1.0, 1.0, 1.0). *)
Lemma frag_objloc_scale_uniform_witness :
  exists v d,
    (Wld.frag_objloc (Wld.fresh objloc_payload ∅)).1 = Ok v /\
    v = VDict d /\
    dict_get "scale" d = Some (VTuple [VFloat 1; VFloat 1; VFloat 1]).
Proof.
  destruct (Wld.frag_objloc (Wld.fresh objloc_payload ∅)) as [[v | e] w'] eqn:E;
    [| vm_compute in E; discriminate E].
  destruct (frag_objloc_scale_uniform _ _ _ E) as (d & -> & Hs).
  exists (VDict d), d. split; [reflexivity |]. split; [reflexivity |].
  rewrite Hs. vm_compute. reflexivity.
Defined.

(** ** utility.py *)

Lemma zip3_length a : forall b c,
  length (zip3 a b c) = Nat.min (length a) (Nat.min (length b) (length c)).
Proof.
  induction a as [| x a IH]; intros [| y b] [| z c]; simpl; try reflexivity.
  rewrite IH. reflexivity.
Qed.

Lemma interleave_cons x a y b z c :
  interleave (x :: a) (y :: b) (z :: c) = x :: y :: z :: interleave a b c.
Proof. reflexivity. Qed.

Lemma interleave_length a : forall b c,
  length (interleave a b c)
  = (3 * Nat.min (length a) (Nat.min (length b) (length c)))%nat.
Proof.
  induction a as [| x a IH]; intros [| y b] [| z c]; try reflexivity.
  rewrite interleave_cons. cbn [length]. rewrite IH. lia.
Qed.

Lemma interleave_lookup a : forall b c i x y z,
  a !! i = Some x -> b !! i = Some y -> c !! i = Some z ->
  interleave a b c !! (3 * i)%nat = Some x /\
  interleave a b c !! (3 * i + 1)%nat = Some y /\
  interleave a b c !! (3 * i + 2)%nat = Some z.
Proof.
  induction a as [| x0 a IH]; intros [| y0 b] [| z0 c] i x y z Ha Hb Hc;
    try discriminate.
  rewrite interleave_cons.
  destruct i as [| i]; simpl in Ha, Hb, Hc.
  - inversion Ha; inversion Hb; inversion Hc; subst. auto.
  - replace (3 * S i)%nat with (S (S (S (3 * i)))) by lia.
    replace (S (S (S (3 * i))) + 1)%nat with (S (S (S (3 * i + 1)))) by lia.
    replace (S (S (S (3 * i))) + 2)%nat with (S (S (S (3 * i + 2)))) by lia.
    cbn [lookup list_lookup]. eapply IH; eassumption.
Qed.

(** X4.  [interleave] of three lists stops at the shortest: it yields three
    items for each position all three lists have, the item of the first
    list, then of the second, then of the third, and nothing for positions
    that one of the lists lacks. *)
Theorem interleave_truncates (a b c : list pyval) :
  length (interleave a b c)
  = (3 * Nat.min (length a) (Nat.min (length b) (length c)))%nat /\
  forall i x y z,
    a !! i = Some x -> b !! i = Some y -> c !! i = Some z ->
    interleave a b c !! (3 * i)%nat = Some x /\
    interleave a b c !! (3 * i + 1)%nat = Some y /\
    interleave a b c !! (3 * i + 2)%nat = Some z.
Proof. split; [apply interleave_length | apply interleave_lookup]. Qed.

Lemma flatten_head fuel : forall x y,
  flatten fuel x = Ok y ->
  forall first, head y = Some first -> is_seq first = false.
Proof.
  induction fuel as [| fuel IH]; intros [| x0 x] y H first Hf; cbn [flatten] in H.
  - injection H as <-. discriminate Hf.
  - destruct (is_seq x0) eqn:E; [discriminate H |].
    injection H as <-. injection Hf as <-. exact E.
  - injection H as <-. discriminate Hf.
  - destruct (is_seq x0) eqn:E.
    + destruct (flatten_once (x0 :: x)) as [x' |] eqn:Ef; [| discriminate H].
      eapply IH; eassumption.
    + injection H as <-. injection Hf as <-. exact E.
Qed.

Lemma flatten_fixed y fuel :
  (forall first, head y = Some first -> is_seq first = false) ->
  flatten fuel y = Ok y.
Proof.
  intros Hh. destruct y as [| first y]; [destruct fuel; reflexivity |].
  specialize (Hh first eq_refl).
  destruct fuel; simpl; rewrite Hh; reflexivity.
Qed.

(** X5.  What [flatten] returns never starts with a tuple or a list, and
    flattening it again, with any bound on the loop, returns it as it is.
    (Only the first item is looked at: the loop stops as soon as the first
    item is not a tuple or list.) *)
Theorem flatten_result_is_flat (fuel : nat) (x y : list pyval) :
  flatten fuel x = Ok y ->
  (forall first, head y = Some first -> is_seq first = false) /\
  forall fuel', flatten fuel' y = Ok y.
Proof.
  intros H. pose proof (flatten_head _ _ _ H) as Hh.
  split; [exact Hh |]. intros fuel'. apply flatten_fixed. exact Hh.
Qed.

(** X5 on a list nested two deep, which flattens to 1, 2, 3. *)
Lemma flatten_result_is_flat_witness :
  let y := [VInt 1; VInt 2; VInt 3] in
  (forall first, head y = Some first -> is_seq first = false) /\
  forall fuel', flatten fuel' y = Ok y.
Proof.
  intros y.
  apply (flatten_result_is_flat 5
           [VTuple [VList [VInt 1; VInt 2]]; VTuple [VTuple [VInt 3]]] y).
  reflexivity.
Defined.

Lemma flatten_once_rows (rows : list (list pyval)) :
  flatten_once (map VTuple rows) = Some (concat rows).
Proof.
  induction rows as [| r rows IH]; simpl; [reflexivity |].
  rewrite IH. reflexivity.
Qed.

(** X6.  On a list of tuples whose items are not themselves tuples or
    lists, as [interleave] builds from vertices, normals and texture
    coordinates, [flatten] returns the items of all the tuples in order.
    One turn of its loop is enough, and the empty list gives the empty
    list. *)
Theorem flatten_rows (fuel : nat) (rows : list (list pyval)) :
  Forall (Forall (fun v => is_seq v = false)) rows ->
  flatten (S fuel) (map VTuple rows) = Ok (concat rows).
Proof.
  intros Hrows. destruct rows as [| r rows]; [reflexivity |].
  cbn [flatten map is_seq].
  change (VTuple r :: map VTuple rows) with (map VTuple (r :: rows)).
  rewrite flatten_once_rows.
  apply flatten_fixed. intros first Hf.
  assert (Hin : first ∈ concat (r :: rows)).
  { destruct (concat (r :: rows)) as [| f l]; [discriminate |].
    inversion Hf; subst. left. }
  apply list_elem_of_In, in_concat in Hin as (row & Hrow & Hin).
  rewrite Forall_forall in Hrows.
  apply list_elem_of_In in Hrow. specialize (Hrows row Hrow).
  rewrite Forall_forall in Hrows. apply Hrows, list_elem_of_In, Hin.
Qed.

(** X6 on a vertex row of three floats and a texture row of two integers. *)
Lemma flatten_rows_witness :
  flatten 1 (map VTuple [[VFloat 1; VFloat 2; VFloat 3]; [VInt 0; VInt 0]])
  = Ok [VFloat 1; VFloat 2; VFloat 3; VInt 0; VInt 0].
Proof.
  apply (flatten_rows 0 [[VFloat 1; VFloat 2; VFloat 3]; [VInt 0; VInt 0]]).
  repeat constructor.
Defined.

(** ** s3d.py: the order of the file list *)

Lemma insert_by_offset_sorted {A} (x : Z * A) l :
  StronglySorted (fun a b => a.1 <= b.1) l ->
  StronglySorted (fun a b => a.1 <= b.1) (S3D.insert_by_offset x l).
Proof.
  induction l as [| y l IH]; intros Hs; simpl.
  - repeat constructor.
  - inversion Hs as [| ? ? Hs' Hall]; subst.
    destruct (Z.leb_spec x.1 y.1) as [Hle | Hgt].
    + constructor; [exact Hs |]. constructor; [exact Hle |].
      eapply Forall_impl; [exact Hall |]. simpl. intros a Ha. lia.
    + constructor; [apply IH; exact Hs' |].
      rewrite insert_by_offset_perm. constructor; [lia | exact Hall].
Qed.

Lemma insert_by_offset_filter {A} (k : Z) (x : Z * A) l :
  filter (fun a => a.1 = k) (S3D.insert_by_offset x l)
  = filter (fun a => a.1 = k) (x :: l).
Proof.
  induction l as [| y l IH]; simpl; [reflexivity |].
  destruct (Z.leb_spec x.1 y.1) as [Hle | Hgt]; [reflexivity |].
  rewrite (filter_cons _ y), IH, !filter_cons.
  destruct (decide (y.1 = k)), (decide (x.1 = k)); try reflexivity. lia.
Qed.

(** The sort of the file list is stable: its result is in ascending order
    of offset, has the entries of the list, each as often, and keeps the
    order of entries with the same offset. *)
Lemma sort_by_offset_stable {A} (l : list (Z * A)) :
  StronglySorted (fun a b => a.1 <= b.1) (S3D.sort_by_offset l) /\
  S3D.sort_by_offset l ≡ₚ l /\
  forall k, filter (fun a => a.1 = k) (S3D.sort_by_offset l)
            = filter (fun a => a.1 = k) l.
Proof.
  split; [| split].
  - induction l as [| x l IH]; simpl; [constructor |].
    apply insert_by_offset_sorted. exact IH.
  - apply sort_by_offset_perm.
  - intros k. induction l as [| x l IH]; simpl; [reflexivity |].
    rewrite insert_by_offset_filter, !filter_cons, IH. reflexivity.
Qed.

(** X7.  When [readS3D] returns, names and files are matched by file
    offset, not by the order of the table: the mapping binds the names of
    the directory, in order, to the data of a file list that holds the
    table's entries without the reserved checksum, each once, in ascending
    order of file offset, entries with the same offset in the order of the
    table. *)
Theorem readS3D_names_by_offset
  (decompress : list byte -> option (list byte))
  {K : Type} `{Countable K} (decode_lower : list byte -> K)
  (fp : list byte) (files : gmap K (list byte)) :
  S3D.readS3D decompress decode_lower fp = Ok files ->
  let table := table_files decompress fp 0 (Z.to_nat (dir_count fp)) in
  exists (keys : list K) (filelist : list (Z * list byte)),
    directory_names decompress decode_lower fp = Ok keys /\
    length keys = length filelist /\
    files = insert_all (zip keys (map snd filelist)) ∅ /\
    StronglySorted (fun a b => a.1 <= b.1) filelist /\
    filelist ≡ₚ table /\
    forall k, filter (fun a => a.1 = k) filelist = filter (fun a => a.1 = k) table.
Proof.
  intros Hr table.
  destruct (readS3D_ok decompress decode_lower fp files Hr)
    as (keys & Hnames & Hlen & _ & _ & Hfiles).
  destruct (sort_by_offset_stable table) as (Hsorted & Hperm & Hstable).
  exists keys, (S3D.sort_by_offset table).
  repeat split; assumption.
Qed.

(** X7 on [swapped_archive], whose table lists the file at the higher
    offset first: the first name of the directory, "a", is bound to the
    file at the lower offset. *)
Lemma readS3D_names_by_offset_witness :
  exists files : gmap (list Z) (list byte),
    S3D.readS3D zlib_stored ascii_lower swapped_archive = Ok files /\
    table_files zlib_stored swapped_archive 0 3
    = [(28, bytes_of [66]); (8, bytes_of [65])] /\
    files !! [97] = Some (bytes_of [65]) /\
    files !! [98] = Some (bytes_of [66]) /\
    exists filelist,
      files = insert_all (zip [[97]; [98]] (map snd filelist)) ∅ /\
      StronglySorted (fun a b => a.1 <= b.1) filelist.
Proof.
  assert (Hrun : exists files : gmap (list Z) (list byte),
            S3D.readS3D zlib_stored ascii_lower swapped_archive = Ok files /\
            files !! [97] = Some (bytes_of [65]) /\
            files !! [98] = Some (bytes_of [66]))
    by (eexists; repeat split; vm_compute; reflexivity).
  destruct Hrun as (files & Hr & Ha & Hb).
  exists files. split; [exact Hr |].
  split; [vm_compute; reflexivity |].
  split; [exact Ha |]. split; [exact Hb |].
  destruct (readS3D_names_by_offset zlib_stored ascii_lower swapped_archive files Hr)
    as (keys & filelist & Hnames & _ & Hfiles & Hsorted & _).
  assert (Hk : directory_names zlib_stored ascii_lower swapped_archive
               = Ok [[97]; [98]]) by (vm_compute; reflexivity).
  rewrite Hk in Hnames. inversion Hnames; subst keys.
  exists filelist. split; assumption.
Defined.

(** ** s3d.py: archives that are refused *)

Section ArchiveErrors.

Variable decompress : list byte -> option (list byte).

Lemma buffer_read_at (fp : list byte) (pos n : Z) :
  0 <= pos -> 0 <= n -> pos + n <= Z.of_nat (length fp) ->
  Buffer.read n (Buffer.mk fp pos)
  = (Ok (take (Z.to_nat n) (drop (Z.to_nat pos) fp)), Buffer.mk fp (pos + n)).
Proof.
  intros H0 Hn Hl. unfold Buffer.read. cbn [Buffer.pos Buffer.data].
  destruct (Z.leb_spec 0 pos); [| lia].
  destruct (Z.leb_spec 0 n); [| lia].
  destruct (Z.leb_spec (pos + n) (Z.of_nat (length fp))); [| lia].
  reflexivity.
Qed.

Lemma read_entries_no_directory fp n : forall i acc b acc' b',
  Buffer.data b = fp ->
  reserved_entries fp i n = 0%nat ->
  S3D.read_entries decompress (S (length fp)) (dir_offset fp) n i acc b
    = (Ok acc', b') ->
  acc'.1 = acc.1.
Proof.
  induction n as [| n IH]; intros i acc b acc' b' Hfp Hres Hr; simpl in Hr.
  - inversion Hr; subst. reflexivity.
  - apply bind_ok in Hr as (acc1 & b1 & Hentry & Hr).
    simpl in Hres.
    apply (read_entry_ok decompress fp) in Hentry as [Hfp1 Hentry]; [| exact Hfp].
    destruct (dir_entry_crc fp i =? S3D.DIRECTORY_CRC); [discriminate |].
    destruct Hentry as [E _].
    rewrite <- E. eapply IH; [exact Hfp1 | exact Hres | exact Hr].
Qed.

End ArchiveErrors.

(** X8.  A file of at least eight bytes whose bytes 4 to 7 are not the
    magic "PFS " is refused with [AssertionError], before the directory
    table is looked at. *)
Theorem readS3D_bad_magic
  (decompress : list byte -> option (list byte))
  {K : Type} `{Countable K} (decode_lower : list byte -> K) (fp : list byte) :
  8 <= Z.of_nat (length fp) ->
  map byte_val (take 4 (drop 4 fp)) <> S3D.PFS_MAGIC ->
  S3D.readS3D decompress decode_lower fp = Raise AssertionError.
Proof.
  intros Hlen Hmagic. unfold S3D.readS3D. cbv zeta.
  unfold Buffer.uint at 1.
  unfold bind at 1. unfold bind at 1.
  rewrite (buffer_read_at fp 0 4) by lia.
  unfold ret at 1. unfold bind at 1.
  rewrite (buffer_read_at fp (0 + 4) 4) by lia.
  unfold bind at 1.
  change (Z.to_nat (0 + 4)) with 4%nat. change (Z.to_nat 4) with 4%nat.
  rewrite bool_decide_eq_false_2 by exact Hmagic.
  reflexivity.
Qed.

(** X9.  [readS3D] returns a mapping only for an archive whose directory
    table has an entry with the reserved checksum 0x61580AC9: when no entry
    of the table carries it, the call ends in an exception whatever the
    entries hold. *)
Theorem readS3D_needs_directory
  (decompress : list byte -> option (list byte))
  {K : Type} `{Countable K} (decode_lower : list byte -> K)
  (fp : list byte) (files : gmap K (list byte)) :
  S3D.readS3D decompress decode_lower fp = Ok files ->
  (1 <= reserved_entries fp 0 (Z.to_nat (dir_count fp)))%nat.
Proof.
  intros Hr. unfold S3D.readS3D in Hr. cbv zeta in Hr.
  match type of Hr with
  | match ?m with _ => _ end = _ =>
      destruct m as [[[directory fl] | e] b1] eqn:Hmain; [| discriminate]
  end.
  apply bind_ok in Hmain as (offset & b2 & Hoff & Hmain).
  apply bind_ok in Hmain as (magic & b3 & Hmagic & Hmain).
  apply bind_ok in Hmain as ([] & b4 & Hassert & Hmain).
  apply bind_ok in Hmain as ([] & b5 & Hset & Hmain).
  apply bind_ok in Hmain as (count & b6 & Hcount & Hmain).
  apply buffer_uint_ok in Hoff as [-> ->].
  apply read_ok in Hmagic as (_ & -> & _).
  apply assert_ok in Hassert as [_ ->].
  inversion Hset; subst. clear Hset.
  apply buffer_uint_ok in Hcount as [-> ->].
  cbn [Buffer.data Buffer.pos] in Hmain.
  change (uint_at fp 0) with (dir_offset fp) in Hmain.
  change (uint_at fp (dir_offset fp)) with (dir_count fp) in Hmain.
  destruct (reserved_entries fp 0 (Z.to_nat (dir_count fp))) as [| k] eqn:Hres; [| lia].
  apply (read_entries_no_directory decompress fp) in Hmain;
    [| reflexivity | exact Hres].
  simpl in Hmain. subst directory. discriminate.
Qed.


(** X8 on eight bytes that end in "PFS!". *)
Lemma readS3D_bad_magic_witness :
  S3D.readS3D zlib_stored ascii_lower (bytes_of [8; 0; 0; 0; 80; 70; 83; 33])
  = Raise AssertionError.
Proof.
  apply (readS3D_bad_magic zlib_stored ascii_lower
           (bytes_of [8; 0; 0; 0; 80; 70; 83; 33])).
  - vm_compute. discriminate.
  - vm_compute. discriminate.
Defined.

(** X9 on [lying_archive], which [readS3D] accepts. *)
Lemma readS3D_needs_directory_witness :
  (1 <= reserved_entries lying_archive 0 (Z.to_nat (dir_count lying_archive)))%nat.
Proof.
  assert (Hrun : exists files : gmap (list Z) (list byte),
            S3D.readS3D zlib_stored ascii_lower lying_archive = Ok files)
    by (eexists; vm_compute; reflexivity).
  destruct Hrun as [files Hr].
  exact (readS3D_needs_directory zlib_stored ascii_lower lying_archive files Hr).
Defined.

(** ** converter.py: s3dFallback *)

Section FallbackFacts.

Context {V : Type}.
Variable content : nat -> gmap string V.

(** What the inner loop leaves under a key: the entry of the last dict,
    in argument order, that is another object than [files] and has the
    key. *)
Lemma fallback_others_lookup files l k :
  match fallback_others content files l !! k with
  | Some v =>
      exists l1 x l2, l = l1 ++ x :: l2 /\ x <> files /\
        content x !! k = Some v /\
        Forall (fun y => y <> files -> content y !! k = None) l2
  | None => Forall (fun y => y <> files -> content y !! k = None) l
  end.
Proof.
  unfold fallback_others.
  induction l as [| x l IH] using rev_ind.
  - simpl. rewrite lookup_empty. constructor.
  - rewrite fold_left_app. cbn [fold_left].
    set (acc := fold_left _ l ∅) in *.
    destruct (Nat.eqb_spec x files) as [-> | Hne].
    + destruct (acc !! k) as [v |].
      * destruct IH as (l1 & y & l2 & -> & Hy & Hk & Hl2).
        exists l1, y, (l2 ++ [files]). split; [rewrite <- app_assoc; reflexivity |].
        split; [exact Hy |]. split; [exact Hk |].
        apply Forall_app. split; [exact Hl2 |].
        constructor; [| constructor]. intros Hc. contradiction.
      * apply Forall_app. split; [exact IH |].
        constructor; [| constructor]. intros Hc. contradiction.
    + unfold dict_update. rewrite lookup_union.
      destruct (content x !! k) as [vx |] eqn:Ex.
      * destruct (acc !! k); cbn;
          (exists l, x, []; repeat split; [exact Hne | exact Ex | constructor]).
      * destruct (acc !! k) as [v |]; cbn.
        -- destruct IH as (l1 & y & l2 & -> & Hy & Hk & Hl2).
           exists l1, y, (l2 ++ [x]). split; [rewrite <- app_assoc; reflexivity |].
           split; [exact Hy |]. split; [exact Hk |].
           apply Forall_app. split; [exact Hl2 |].
           constructor; [| constructor]. intros _. exact Ex.
        -- apply Forall_app. split; [exact IH |].
           constructor; [| constructor]. intros _. exact Ex.
Qed.

End FallbackFacts.

(** X10.  [s3dFallback] returns one new dict per argument, in order.  The
    dict made for an argument holds that argument's own entries unchanged;
    for a key the argument lacks it holds the entry of the last of the other
    dicts that has the key; and it has a key exactly when one of the
    arguments has it, so all the dicts returned have the same keys. *)
Theorem s3dFallback_own_entries_win {V : Type} (content : nat -> gmap string V)
  (filedicts : list nat) :
  length (s3dFallback content filedicts) = length filedicts /\
  forall i files, filedicts !! i = Some files ->
    exists r, s3dFallback content filedicts !! i = Some r /\
      (forall k v, content files !! k = Some v -> r !! k = Some v) /\
      (forall k v, content files !! k = None -> r !! k = Some v ->
         exists l1 x l2, filedicts = l1 ++ x :: l2 /\ x <> files /\
           content x !! k = Some v /\
           Forall (fun y => y <> files -> content y !! k = None) l2) /\
      (forall k, is_Some (r !! k) <->
                 exists x, x ∈ filedicts /\ is_Some (content x !! k)).
Proof.
  split; [apply length_map |].
  intros i files Hi. unfold s3dFallback.
  eexists. split; [rewrite list_lookup_fmap, Hi; reflexivity |].
  unfold dict_update.
  split; [| split].
  - intros k v Hk. rewrite lookup_union, Hk.
    destruct (fallback_others content files filedicts !! k); reflexivity.
  - intros k v Hk Hr. rewrite lookup_union, Hk in Hr.
    pose proof (fallback_others_lookup content files filedicts k) as Hl.
    destruct (fallback_others content files filedicts !! k) as [v1 |];
      [| discriminate].
    cbn in Hr. injection Hr as ->. exact Hl.
  - intros k. rewrite lookup_union.
    pose proof (fallback_others_lookup content files filedicts k) as Hl.
    split.
    + intros [v Hv].
      destruct (content files !! k) as [v0 |] eqn:E0.
      * exists files. split; [eapply list_elem_of_lookup_2; exact Hi | eauto].
      * destruct (fallback_others content files filedicts !! k) as [v1 |];
          [| discriminate].
        destruct Hl as (l1 & x & l2 & -> & _ & Hx & _).
        exists x. split; [| eauto].
        apply elem_of_app. right. left.
    + intros (x & Hx & [v Hv]).
      destruct (content files !! k) as [v0 |] eqn:E0.
      * destruct (fallback_others content files filedicts !! k); cbn; eauto.
      * destruct (fallback_others content files filedicts !! k) as [v1 |];
          cbn; [eauto |].
        rewrite Forall_forall in Hl.
        assert (Hxf : x <> files) by (intros ->; congruence).
        rewrite (Hl x Hx Hxf) in Hv. discriminate.
Qed.

(** ** wld.py: getFrag while the stream is decoded *)

Lemma is_entry_getitem e :
  is_entry e = true -> Wld.getitem_plain e (VInt 3) = Ok (entry_payload e).
Proof.
  destruct e as [| | | | | l | | | |]; try discriminate.
  destruct l as [| a [| b [| c [| d [| x l]]]]]; try discriminate.
  reflexivity.
Qed.

Lemma decode_tables_frags w i e :
  decode_tables w = true -> od_get i (Wld.frags w) = Some e -> is_entry e = true.
Proof.
  unfold decode_tables. intros H Hg. apply andb_prop in H as [H _].
  induction (Wld.frags w) as [| [k x] l IH]; simpl in *; [discriminate |].
  apply andb_prop in H as [Hx Hl].
  destruct (i =? k); [inversion Hg; subst; exact Hx | exact (IH Hl Hg)].
Qed.

Lemma decode_tables_names w k e :
  decode_tables w = true -> Wld.names w !! k = Some e -> is_entry e = true.
Proof.
  unfold decode_tables. intros H Hg. apply andb_prop in H as [_ H].
  rewrite forallb_forall in H.
  apply (H (k, e)). apply list_elem_of_In, elem_of_map_to_list. exact Hg.
Qed.

Lemma getFrag_total (w : Wld.t) (ref : Z) :
  decode_tables w = true ->
  Wld.getFrag ref w
  = (Ok (VFragRef (length (Wld.refs w))),
     Wld.set_refs (Wld.refs w ++ [getFrag_ref w ref]) w).
Proof.
  intros Hd. unfold Wld.getFrag, getFrag_ref, bind, get.
  destruct (0 <? ref).
  - destruct (od_get (ref - 1) (Wld.frags w)) as [e |] eqn:E; [| reflexivity].
    unfold Wld.lift. rewrite (is_entry_getitem e); [reflexivity |].
    eapply decode_tables_frags; eassumption.
  - destruct (Wld.names w !! Some (Wld.getString w (- ref))) as [e |] eqn:E;
      [| reflexivity].
    unfold Wld.lift. rewrite (is_entry_getitem e); [reflexivity |].
    eapply decode_tables_names; eassumption.
Qed.

(** ** wld.py: a stream that is not a scene description *)

(** X12.  [Wld(data, s3d)] on a stream of at least four bytes that does
    not start with the magic number 0x54503D02 raises [AssertionError] when
    it has read those four bytes; no table has an entry then. *)
Theorem init_bad_magic (set_order : list Z -> list Z) (data : list byte)
  (files : gmap string (list byte)) :
  4 <= Z.of_nat (length data) ->
  le_uint (take 4 data) <> 0x54503D02 ->
  Wld.init set_order data files
  = (Raise AssertionError, Wld.set_b (Buffer.mk data 4) (Wld.fresh data files)).
Proof.
  intros Hlen Hmagic.
  unfold Wld.init, Wld.init_body, Wld.read_header.
  assert (Hu : Wld.uint (Wld.fresh data files)
               = (Ok (le_uint (take 4 data)),
                  Wld.set_b (Buffer.mk data 4) (Wld.fresh data files))).
  { unfold Wld.uint, Wld.liftB, zoom, Buffer.uint, bind.
    cbn [Wld.b Wld.fresh].
    rewrite (buffer_read_at data 0 4) by lia. reflexivity. }
  unfold bind at 1. unfold bind at 1. rewrite Hu.
  unfold bind at 1.
  destruct (Z.eqb_spec (le_uint (take 4 data)) 0x54503D02) as [E | _];
    [contradiction | reflexivity].
Qed.

(** X12 on five bytes that do not start with the magic number. *)
Lemma init_bad_magic_witness :
  Wld.init no_sets (bytes_of [1; 2; 3; 4; 5]) ∅
  = (Raise AssertionError,
     Wld.set_b (Buffer.mk (bytes_of [1; 2; 3; 4; 5]) 4)
       (Wld.fresh (bytes_of [1; 2; 3; 4; 5]) ∅)).
Proof.
  apply (init_bad_magic no_sets (bytes_of [1; 2; 3; 4; 5]) ∅).
  - vm_compute. discriminate.
  - vm_compute. discriminate.
Defined.

(** ** wld.py: the lists of a decoded mesh *)

Lemma replicateM_Forall {S A} (P : A -> Prop) (m : M S A) :
  (forall s x s', m s = (Ok x, s') -> P x) ->
  forall n s l s', replicateM n m s = (Ok l, s') -> Forall P l.
Proof.
  intros Hm. induction n as [| n IH]; intros s l s' H; simpl in H.
  - inversion H. constructor.
  - apply bind_ok in H as (x & s1 & Hx & H).
    apply bind_ok in H as (xs & s2 & Hxs & H).
    inversion H; subst. constructor; [eapply Hm; exact Hx | eapply IH; exact Hxs].
Qed.

Lemma ushortN_length n w l w' :
  Wld.ushortN n w = (Ok l, w') -> length l = Z.to_nat n.
Proof.
  intros H. apply liftB_inv in H as (b' & H & _).
  eapply replicateM_length. exact H.
Qed.

Lemma frag_mesh_head_vertices w h w1 :
  Wld.frag_mesh_head w = (Ok h, w1) ->
  length (Wld.mh_vertices h) = Wld.range (Wld.mh_vertcount h).
Proof.
  unfold Wld.frag_mesh_head. intros H.
  repeat bind_inv H. inversion H; subst. simpl.
  match goal with
  | Hv : replicateM (Wld.range (nth 0 _ 0)) _ _ = (Ok ?l, _) |- length ?l = _ =>
      apply replicateM_length in Hv; exact Hv
  end.
Qed.

(** A pair read by [ushort(2)]. *)
Lemma ushort_pair_shape w v w' :
  (let! p := Wld.ushortN 2 in ret (VTuple (map VInt p))) w = (Ok v, w') ->
  exists x y, v = VTuple [VInt x; VInt y] /\ 0 <= x /\ 0 <= y.
Proof.
  intros H. apply bind_ok in H as (p & w1 & Hp & H). inversion H; subst.
  pose proof (ushortN_length _ _ _ _ Hp) as Hl.
  apply ushortN_nonneg in Hp.
  destruct p as [| x [| y [| z p]]]; try discriminate.
  inversion Hp as [| ? ? Hx Hp']; subst. inversion Hp' as [| ? ? Hy _]; subst.
  eauto.
Qed.

(** X13.  A mesh that decodes has one colour for each of its vertices;
    every polygon is a collision flag with three vertex indices; and every
    entry of the polygon-to-texture table is a pair of two non-negative
    integers (the count of polygons and the texture index). *)
Theorem frag_mesh_one_colour_per_vertex (w : Wld.t) (v : pyval) (w' : Wld.t) :
  Wld.frag_mesh w = (Ok v, w') ->
  exists d vs cs ps pts, v = VDict d /\
    dict_get "vertices" d = Some (VList vs) /\
    dict_get "colors" d = Some (VList cs) /\
    length cs = length vs /\
    dict_get "polys" d = Some (VList ps) /\
    Forall (fun p => exists c i j k,
              p = VTuple [VBool c; VTuple [VInt i; VInt j; VInt k]]) ps /\
    dict_get "polytex" d = Some (VList pts) /\
    Forall (fun r => exists count index,
              r = VTuple [VInt count; VInt index] /\ 0 <= count /\ 0 <= index) pts.
Proof.
  unfold Wld.frag_mesh. intros H.
  apply bind_ok in H as (h & w1 & Hh & H).
  pose proof (frag_mesh_head_vertices _ _ _ Hh) as Hvs.
  pose proof (frag_mesh_head_vertcount _ _ _ Hh) as Hvc.
  unfold Wld.frag_mesh_tail in H.
  apply bind_ok in H as ([] & w2 & Hassert & H).
  apply assert_ok in Hassert as [Hassert ->].
  apply bind_ok in H as (polys & w3 & Hpolys & H).
  apply bind_ok in H as (bv & w4 & Hbv & H).
  apply bind_ok in H as (pt & w5 & Hpt & H).
  inversion H; subst. clear H.
  eexists _, _, _, _, _. split; [reflexivity |].
  split; [reflexivity |]. split; [reflexivity |].
  split.
  { rewrite length_map. apply Z.eqb_eq in Hassert.
    rewrite Hvs. unfold Wld.range in *. lia. }
  split; [reflexivity |].
  split.
  { eapply replicateM_Forall; [| exact Hpolys].
    intros s x s' Hx.
    apply bind_ok in Hx as (flag & s1 & _ & Hx).
    apply bind_ok in Hx as (idx & s2 & Hidx & Hx).
    inversion Hx; subst.
    apply ushortN_length in Hidx.
    destruct idx as [| i [| j [| k [| z idx]]]]; try discriminate.
    eauto. }
  split; [reflexivity |].
  eapply replicateM_Forall; [| exact Hpt].
  intros s x s' Hx. apply ushort_pair_shape in Hx. exact Hx.
Qed.

(** X13 on the mesh of [scene_stream], decoded from the cursor at its
    payload. *)
Lemma frag_mesh_one_colour_per_vertex_witness :
  let w := Wld.set_b (Buffer.mk (mesh_payload 0 0 [(1, 0)]) 0) (Wld.fresh [] ∅) in
  exists d vs cs,
    (Wld.frag_mesh w).1 = Ok (VDict d) /\
    dict_get "vertices" d = Some (VList vs) /\
    dict_get "colors" d = Some (VList cs) /\
    length cs = length vs.
Proof.
  intros w.
  destruct (Wld.frag_mesh w) as [[v |] w'] eqn:E; [| vm_compute in E; discriminate E].
  destruct (frag_mesh_one_colour_per_vertex w v w' E)
    as (d & vs & cs & ps & pts & -> & Hv & Hc & Hl & _).
  exists d, vs, cs. auto.
Defined.

(** ** wld.py: the texture list *)

Lemma wld_uint_step w z b' :
  Buffer.uint (Wld.b w) = (Ok z, b') -> Wld.uint w = (Ok z, Wld.set_b b' w).
Proof. intros H. unfold Wld.uint, Wld.liftB, zoom. rewrite H. reflexivity. Qed.

Lemma set_refs_set_b w l x :
  Wld.set_refs l (Wld.set_b x w) = Wld.set_b x (Wld.set_refs l w).
Proof. reflexivity. Qed.

(** The references made for the ids of a texture list: one for each id
    above zero, in order. *)
Lemma texlist_entries_spec n : forall w ids b3,
  decode_tables w = true ->
  replicateM n Buffer.uint (Wld.b w) = (Ok ids, b3) ->
  Wld.texlist_entries n w
  = (Ok (map VFragRef (seq (length (Wld.refs w))
                           (length (filter (fun x : Z => (0 < x)%Z) ids)))),
     Wld.set_refs (Wld.refs w ++ map (getFrag_ref w) (filter (fun x : Z => 0 < x) ids))
       (Wld.set_b b3 w)).
Proof.
  induction n as [| n IH]; intros w ids b3 Hd H; simpl in H.
  - inversion H; subst. simpl. rewrite app_nil_r. destruct w as [[] ]; reflexivity.
  - apply bind_ok in H as (id0 & b1 & Hid & H).
    apply bind_ok in H as (ids' & b2 & Hids & H).
    inversion H; subst. clear H.
    cbn [Wld.texlist_entries].
    rewrite (bind_step _ _ _ _ _ (wld_uint_step _ _ _ Hid)).
    rewrite filter_cons.
    destruct (Z.ltb_spec 0 id0) as [Hpos | Hle].
    + rewrite decide_True by exact Hpos.
      rewrite (bind_step _ _ _ _ _ (getFrag_total (Wld.set_b b1 w) id0 Hd)).
      set (w2 := Wld.set_refs _ (Wld.set_b b1 w)).
      rewrite (bind_step _ _ _ _ _ (IH w2 ids' b3 Hd Hids)).
      unfold ret. f_equal.
      * f_equal. unfold w2. cbn [Wld.refs Wld.set_refs Wld.set_b length map seq].
        rewrite length_app. cbn [length]. rewrite Nat.add_1_r. reflexivity.
      * unfold w2. cbn [Wld.refs Wld.set_refs Wld.set_b map].
        rewrite <- app_assoc. destruct w; reflexivity.
    + rewrite decide_False by lia.
      rewrite (IH (Wld.set_b b1 w) ids' b3 Hd Hids).
      destruct w; reflexivity.
Qed.

(** X14.  A texture list holds one reference for each id above zero that
    the stream lists, in the order of the stream, each by index [id - 1];
    an id of zero is passed over and leaves no placeholder, so the entries
    after it move up.  While the stream is decoded the handler fails only
    if the stream ends before the ids do. *)
Theorem frag_texlist_skips_zero_ids (w : Wld.t) (zero count : Z) (ids : list Z)
  (b1 b2 b3 : Buffer.t) :
  decode_tables w = true ->
  Buffer.uint (Wld.b w) = (Ok zero, b1) ->
  Buffer.uint b1 = (Ok count, b2) ->
  Buffer.uintN count b2 = (Ok ids, b3) ->
  let kept := filter (fun x : Z => 0 < x) ids in
  Wld.frag_texlist w
  = (Ok (VList (map VFragRef (seq (length (Wld.refs w)) (length kept)))),
     Wld.set_refs (Wld.refs w ++ map (getFrag_ref w) kept) (Wld.set_b b3 w)).
Proof.
  intros Hd Hz Hc Hids kept. unfold Wld.frag_texlist.
  rewrite (bind_step _ _ _ _ _ (wld_uint_step _ _ _ Hz)).
  rewrite (bind_step _ _ _ _ _ (wld_uint_step (Wld.set_b b1 w) _ _ Hc)).
  rewrite (bind_step _ _ _ _ _
             (texlist_entries_spec (Wld.range count) (Wld.set_b b2 (Wld.set_b b1 w))
                ids b3 Hd Hids)).
  destruct w; reflexivity.
Qed.

(** X14 on a list of the ids 4, 0 and 8. *)
Lemma frag_texlist_skips_zero_ids_witness :
  let data := u32 0 ++ u32 3 ++ u32 4 ++ u32 0 ++ u32 8 in
  let w := Wld.set_b (Buffer.mk data 0) (Wld.fresh [] ∅) in
  Wld.frag_texlist w
  = (Ok (VList [VFragRef 0; VFragRef 1]),
     Wld.set_refs [Wld.mkFragRef (Some 3) None VNone; Wld.mkFragRef (Some 7) None VNone]
       (Wld.set_b (Buffer.mk data 20) w)).
Proof.
  intros data w.
  apply (frag_texlist_skips_zero_ids w 0 3 [4; 0; 8]
           (Buffer.mk data 4) (Buffer.mk data 8) (Buffer.mk data 20));
    vm_compute; reflexivity.
Defined.

(** ** wld.py: what each converter adds to the zone *)

Section OperationFrame.

Variable R : Wld.t -> Wld.t -> Prop.
Hypothesis R_refl : forall w, R w w.
Hypothesis R_trans : forall w1 w2 w3, R w1 w2 -> R w2 w3 -> R w1 w3.
Hypothesis R_refs : forall w x, R w (Wld.set_refs x w).
Hypothesis R_zone_mesh : forall m, preserves R (Wld.add_zone_mesh m).
Hypothesis R_object_mesh : forall obj m, preserves R (Wld.add_object_mesh obj m).
Hypothesis R_object : forall name, preserves R (Wld.addObject name).
Hypothesis R_placeable : forall n p r s, preserves R (Wld.addPlaceable n p r s).
Hypothesis R_light : forall l, preserves R (Wld.addLight l).
Hypothesis R_warning : forall k, preserves R (Wld.count_warning k).
Hypothesis R_setitem : forall d k v, preserves R (Wld.dict_setitem d k v).

Variable fuel : nat.

Lemma op_as_int v : preserves R (Wld.as_int v).
Proof. unfold Wld.as_int. pres. Qed.

Lemma op_as_str v : preserves R (Wld.as_str v).
Proof. unfold Wld.as_str. pres. Qed.

Hint Resolve op_as_int op_as_str : pres.

Lemma op_zone_run_meshes meshfrag vbuf texflags mtex off count :
  preserves R (Wld.zone_run_meshes fuel meshfrag vbuf texflags mtex off count).
Proof.
  unfold Wld.zone_run_meshes. pres.
  - apply preserves_any_sky_word; assumption.
  - apply preserves_texture_blobs; assumption.
  - apply preserves_emit_run; assumption.
Qed.

Lemma op_convertZone_run meshfrag vbuf off run :
  preserves R (Wld.convertZone_run fuel meshfrag vbuf off run).
Proof.
  unfold Wld.convertZone_run.
  pres; first [ apply preserves_textures_len; assumption
              | apply op_zone_run_meshes ].
Qed.

Lemma op_convertZone : preserves R (Wld.convertZone fuel).
Proof.
  unfold Wld.convertZone. pres. unfold Wld.convertZone_mesh. pres.
  - apply preserves_vertex_buffer; assumption.
  - apply preserves_run_loop; try assumption.
    intros off run. apply op_convertZone_run.
Qed.

Lemma op_convertObjects_run obj meshfrag vbuf off run :
  preserves R (Wld.convertObjects_run fuel obj meshfrag vbuf off run).
Proof.
  unfold Wld.convertObjects_run.
  pres; first [ apply preserves_textures_len; assumption
              | apply preserves_texture_blobs; assumption
              | apply preserves_objects_texture; assumption
              | apply preserves_emit_run; try assumption; apply R_object_mesh
              | apply preserves_try_lookup; [assumption | | pres]; pres;
                apply preserves_objects_item; assumption ].
Qed.

Lemma op_convertObjects_mesh meshfrag :
  preserves R (Wld.convertObjects_mesh fuel meshfrag).
Proof.
  unfold Wld.convertObjects_mesh. pres.
  - apply preserves_vertex_buffer; assumption.
  - apply preserves_run_loop; try assumption.
    intros off run. apply op_convertObjects_run.
Qed.

Lemma op_convertObjects_placement objfrag :
  preserves R (Wld.convertObjects_placement fuel objfrag).
Proof. unfold Wld.convertObjects_placement. pres. Qed.

Lemma op_convertObjects : preserves R (Wld.convertObjects fuel).
Proof.
  unfold Wld.convertObjects. pres;
    first [apply op_convertObjects_mesh | apply op_convertObjects_placement].
Qed.

Lemma op_convertLights_light light :
  preserves R (Wld.convertLights_light fuel light).
Proof. unfold Wld.convertLights_light, Wld.call_resolve. pres. Qed.

Lemma op_convertLights : preserves R (Wld.convertLights fuel).
Proof. unfold Wld.convertLights. pres. apply op_convertLights_light. Qed.

End OperationFrame.

Lemma extends_refl {A} (l : list A) : extends l l.
Proof. exists []. rewrite app_nil_r. reflexivity. Qed.

Lemma extends_trans {A} (l1 l2 l3 : list A) :
  extends l1 l2 -> extends l2 l3 -> extends l1 l3.
Proof.
  intros [m1 ->] [m2 ->]. exists (m1 ++ m2). rewrite app_assoc. reflexivity.
Qed.

Lemma extends_eq {A} (l l' : list A) : l' = l -> extends l l'.
Proof. intros ->. apply extends_refl. Qed.

Lemma objects_grow_refl os : objects_grow os os.
Proof. intros i name ms H. exists []. rewrite app_nil_r. exact H. Qed.

Lemma objects_grow_trans os1 os2 os3 :
  objects_grow os1 os2 -> objects_grow os2 os3 -> objects_grow os1 os3.
Proof.
  intros H12 H23 i name ms H.
  destruct (H12 i name ms H) as [m1 H1].
  destruct (H23 i name _ H1) as [m2 H2].
  exists (m1 ++ m2). rewrite app_assoc. exact H2.
Qed.

Lemma zone_meshes_added_refl w : zone_meshes_added w w.
Proof. repeat split. apply extends_refl. Qed.

Lemma zone_meshes_added_trans w1 w2 w3 :
  zone_meshes_added w1 w2 -> zone_meshes_added w2 w3 -> zone_meshes_added w1 w3.
Proof.
  intros (Z1 & O1 & L1 & P1) (Z2 & O2 & L2 & P2).
  repeat split; try congruence. eapply extends_trans; eassumption.
Qed.

Lemma zone_meshes_added_same w w' :
  Wld.zone w' = Wld.zone w -> zone_meshes_added w w'.
Proof. intros E. unfold zone_meshes_added. rewrite E. repeat split. apply extends_refl. Qed.

Lemma zone_objects_added_refl w : zone_objects_added w w.
Proof. repeat split; [apply objects_grow_refl | apply extends_refl]. Qed.

Lemma zone_objects_added_trans w1 w2 w3 :
  zone_objects_added w1 w2 -> zone_objects_added w2 w3 -> zone_objects_added w1 w3.
Proof.
  intros (Z1 & O1 & L1 & P1) (Z2 & O2 & L2 & P2).
  repeat split; try congruence.
  - eapply objects_grow_trans; eassumption.
  - eapply extends_trans; eassumption.
Qed.

Lemma zone_objects_added_same w w' :
  Wld.zone w' = Wld.zone w -> zone_objects_added w w'.
Proof.
  intros E. unfold zone_objects_added. rewrite E.
  repeat split; [apply objects_grow_refl | apply extends_refl].
Qed.

Lemma zone_lights_added_refl w : zone_lights_added w w.
Proof. repeat split. apply extends_refl. Qed.

Lemma zone_lights_added_trans w1 w2 w3 :
  zone_lights_added w1 w2 -> zone_lights_added w2 w3 -> zone_lights_added w1 w3.
Proof.
  intros (Z1 & O1 & L1 & P1) (Z2 & O2 & L2 & P2).
  repeat split; try congruence. eapply extends_trans; eassumption.
Qed.

Lemma zone_lights_added_same w w' :
  Wld.zone w' = Wld.zone w -> zone_lights_added w w'.
Proof. intros E. unfold zone_lights_added. rewrite E. repeat split. apply extends_refl. Qed.

Lemma count_warning_zone k w r w' :
  Wld.count_warning k w = (r, w') -> Wld.zone w' = Wld.zone w.
Proof. intros H. inversion H; subst. reflexivity. Qed.

Lemma dict_setitem_zone d k v w r w' :
  Wld.dict_setitem d k v w = (r, w') -> Wld.zone w' = Wld.zone w.
Proof.
  intros H. destruct d; simpl in H; try (inversion H; subst; reflexivity).
  destruct (Wld.objs w !! i) as [c |]; [| inversion H; subst; reflexivity].
  destruct c; inversion H; subst; reflexivity.
Qed.

Lemma add_object_mesh_grows obj m os :
  objects_grow os (alter (fun o => (o.1, o.2 ++ [m])) obj os).
Proof.
  intros i name ms H.
  destruct (decide (i = obj)) as [-> | Hne].
  - exists [m]. rewrite list_lookup_alter_eq, H. reflexivity.
  - exists []. rewrite list_lookup_alter_ne by congruence.
    rewrite app_nil_r. exact H.
Qed.

(** X15.  Each converter only adds to its own part of the zone, whether it
    returns or raises.  convertZone adds meshes to the world object and
    leaves the objects, lights and placeables as they are.  convertObjects
    adds objects, meshes to objects and placeables: an object that was
    there keeps its place, its name and its meshes; the world object and
    the lights stay as they are.  convertLights adds lights and nothing
    else.  Nothing is ever removed or reordered. *)
Theorem converters_only_add (fuel : nat) :
  preserves zone_meshes_added (Wld.convertZone fuel) /\
  preserves zone_objects_added (Wld.convertObjects fuel) /\
  preserves zone_lights_added (Wld.convertLights fuel).
Proof.
  split; [| split].
  - apply op_convertZone.
    + exact zone_meshes_added_refl.
    + exact zone_meshes_added_trans.
    + intros w x. apply zone_meshes_added_same. reflexivity.
    + intros m w r w' H. inversion H; subst.
      repeat split. exists [m]. reflexivity.
    + intros k w r w' H. apply zone_meshes_added_same.
      eapply count_warning_zone. exact H.
  - apply op_convertObjects.
    + exact zone_objects_added_refl.
    + exact zone_objects_added_trans.
    + intros w x. apply zone_objects_added_same. reflexivity.
    + intros obj m w r w' H. inversion H; subst.
      repeat split; [apply add_object_mesh_grows | apply extends_refl].
    + intros name w r w' H. inversion H; subst.
      repeat split; [| apply extends_refl].
      intros i nm ms Hi. exists []. cbn. rewrite app_nil_r.
      apply lookup_app_l_Some. exact Hi.
    + intros objname position rotation scale w r w' H. inversion H; subst.
      cbn. destruct (find_object objname (objects (Wld.zone w))) as [obj |];
        cbn; repeat split;
        first [ apply objects_grow_refl | apply extends_refl
              | eexists [_]; reflexivity ].
    + intros k w r w' H. apply zone_objects_added_same.
      eapply count_warning_zone. exact H.
  - apply op_convertLights.
    + exact zone_lights_added_refl.
    + exact zone_lights_added_trans.
    + intros w x. apply zone_lights_added_same. reflexivity.
    + intros l w r w' H. inversion H; subst.
      repeat split. exists [l]. reflexivity.
    + intros d k v w r w' H. apply zone_lights_added_same.
      eapply dict_setitem_zone. exact H.
Qed.

(** ** wld.py: one light per light placement, one object per mesh *)

Lemma bind_ok_frame {A B} (R : Wld.t -> Wld.t -> Prop) (m : M Wld.t A)
  (k : A -> M Wld.t B) w y w' :
  preserves R m ->
  bind m k w = (Ok y, w') ->
  exists x w1, R w w1 /\ k x w1 = (Ok y, w').
Proof.
  intros Hm H. apply bind_ok in H as (x & w1 & H1 & H).
  exists x, w1. split; [eapply Hm; exact H1 | exact H].
Qed.

Lemma same_zone_refl w : same_zone w w.
Proof. split; reflexivity. Qed.

Lemma same_zone_trans w1 w2 w3 : same_zone w1 w2 -> same_zone w2 w3 -> same_zone w1 w3.
Proof. intros [Z1 T1] [Z2 T2]. split; congruence. Qed.

Lemma same_zone_refs w x : same_zone w (Wld.set_refs x w).
Proof. split; reflexivity. Qed.

Lemma same_zone_getitem fuel v idx : preserves same_zone (Wld.py_getitem fuel v idx).
Proof.
  apply preserves_py_getitem;
    [exact same_zone_refl | exact same_zone_trans | exact same_zone_refs].
Qed.

Lemma same_zone_setitem d k v : preserves same_zone (Wld.dict_setitem d k v).
Proof.
  intros w r w' H. destruct d; simpl in H; try (inversion H; subst; apply same_zone_refl).
  destruct (Wld.objs w !! i) as [c |]; [| inversion H; subst; apply same_zone_refl].
  destruct c; inversion H; subst; split; reflexivity.
Qed.

Lemma forM__count {A} (len : Wld.t -> nat) (body : A -> M Wld.t unit) :
  (forall x w u w', body x w = (Ok u, w') -> len w' = S (len w)) ->
  forall xs w u w', forM_ xs body w = (Ok u, w') -> len w' = (len w + length xs)%nat.
Proof.
  intros Hb. induction xs as [| x xs IH]; intros w u w' H; simpl in H.
  - inversion H; subst. simpl. lia.
  - apply bind_ok in H as (u1 & w1 & H1 & H).
    apply Hb in H1. apply IH in H. simpl. lia.
Qed.

Lemma convertLights_light_adds_one fuel light w u w' :
  Wld.convertLights_light fuel light w = (Ok u, w') ->
  length (lights (Wld.zone w')) = S (length (lights (Wld.zone w))).
Proof.
  unfold Wld.convertLights_light. intros H.
  apply (bind_ok_frame same_zone) in H as (l & w1 & [Z1 _] & H);
    [| apply same_zone_getitem].
  apply (bind_ok_frame same_zone) in H as (v & w2 & [Z2 _] & H).
  2:{ unfold Wld.call_resolve. destruct l;
        try (apply preserves_raise; exact same_zone_refl).
      apply preserves_resolve;
        [exact same_zone_refl | exact same_zone_trans | exact same_zone_refs]. }
  apply (bind_ok_frame same_zone) in H as ([] & w3 & [Z3 _] & H);
    [| apply same_zone_setitem].
  apply (bind_ok_frame same_zone) in H as (position & w4 & [Z4 _] & H);
    [| apply same_zone_getitem].
  apply (bind_ok_frame same_zone) in H as (radius & w5 & [Z5 _] & H);
    [| apply same_zone_getitem].
  apply (bind_ok_frame same_zone) in H as (l1 & w6 & [Z6 _] & H);
    [| apply same_zone_getitem].
  apply (bind_ok_frame same_zone) in H as (attenuation & w7 & [Z7 _] & H);
    [| apply same_zone_getitem].
  apply (bind_ok_frame same_zone) in H as (l2 & w8 & [Z8 _] & H);
    [| apply same_zone_getitem].
  apply (bind_ok_frame same_zone) in H as (color & w9 & [Z9 _] & H);
    [| apply same_zone_getitem].
  apply (bind_ok_frame same_zone) in H as (flags & w10 & [Z10 _] & H);
    [| apply same_zone_getitem].
  inversion H; subst. cbn. rewrite length_app. cbn.
  rewrite Z10, Z9, Z8, Z7, Z6, Z5, Z4, Z3, Z2, Z1. lia.
Qed.

(** X16.  When convertLights returns, it has added exactly one light to
    the zone for each light-placement fragment (type 0x28) of the decoder. *)
Theorem convertLights_one_light_per_placement (fuel : nat) (w w' : Wld.t)
  (ls : list pyval) :
  Wld.byType w !! 0x28 = Some ls ->
  Wld.convertLights fuel w = (Ok tt, w') ->
  length (lights (Wld.zone w'))
  = (length (lights (Wld.zone w)) + length ls)%nat.
Proof.
  intros Hls H. unfold Wld.convertLights in H.
  apply bind_ok in H as (w0 & w1 & Hget & H). inversion Hget; subst. clear Hget.
  rewrite Hls in H.
  eapply (forM__count (fun w => length (lights (Wld.zone w)))); [| exact H].
  intros x wa u wb. apply convertLights_light_adds_one.
Qed.

(** X16 on [lights_scene], which has one light placement. *)
Lemma convertLights_one_light_per_placement_witness :
  length (lights (Wld.zone (Wld.convertLights 10 lights_scene).2)) = 1%nat.
Proof.
  apply (convertLights_one_light_per_placement 10 lights_scene
           (Wld.convertLights 10 lights_scene).2 [VObj 2]);
    vm_compute; reflexivity.
Defined.

Lemma forM__count_inv {A X} (len : Wld.t -> nat) (inv : Wld.t -> X)
  (body : A -> M Wld.t unit) :
  (forall x w u w', body x w = (Ok u, w') ->
     len w' = S (len w) /\ inv w' = inv w) ->
  forall xs w u w', forM_ xs body w = (Ok u, w') ->
    len w' = (len w + length xs)%nat /\ inv w' = inv w.
Proof.
  intros Hb. induction xs as [| x xs IH]; intros w u w' H; simpl in H.
  - inversion H; subst. simpl. split; [lia | reflexivity].
  - apply bind_ok in H as (u1 & w1 & H1 & H).
    apply Hb in H1 as [L1 I1]. apply IH in H as [L I]. simpl.
    split; [lia | congruence].
Qed.

Lemma same_objects_count_refl w : same_objects_count w w.
Proof. repeat split. Qed.

Lemma same_objects_count_trans w1 w2 w3 :
  same_objects_count w1 w2 -> same_objects_count w2 w3 -> same_objects_count w1 w3.
Proof. intros (T1 & O1 & P1) (T2 & O2 & P2). repeat split; congruence. Qed.

Lemma same_objects_count_refs w x : same_objects_count w (Wld.set_refs x w).
Proof. repeat split. Qed.

Lemma same_objects_count_run fuel obj meshfrag vbuf runs off :
  preserves same_objects_count
    (Wld.run_loop (Wld.convertObjects_run fuel obj meshfrag vbuf) off runs).
Proof.
  apply preserves_run_loop;
    [exact same_objects_count_refl | exact same_objects_count_trans |].
  intros off' run. apply op_convertObjects_run.
  - exact same_objects_count_refl.
  - exact same_objects_count_trans.
  - exact same_objects_count_refs.
  - intros o m w r w' H. inversion H; subst. repeat split.
    cbn. apply length_alter.
  - intros k w r w' H. inversion H; subst. repeat split.
Qed.

Lemma convertObjects_mesh_adds_one fuel meshfrag w u w' :
  Wld.convertObjects_mesh fuel meshfrag w = (Ok u, w') ->
  length (objects (Wld.zone w')) = S (length (objects (Wld.zone w))) /\
  (Wld.byType w', placeables (Wld.zone w'))
  = (Wld.byType w, placeables (Wld.zone w)).
Proof.
  unfold Wld.convertObjects_mesh. intros H.
  assert (Hget : forall v idx, preserves same_objects_count (Wld.py_getitem fuel v idx)).
  { intros v idx. apply preserves_py_getitem;
      [exact same_objects_count_refl | exact same_objects_count_trans
      | exact same_objects_count_refs]. }
  apply (bind_ok_frame same_objects_count) in H as (nm & w1 & (T1 & O1 & P1) & H);
    [| apply Hget].
  apply bind_ok in H as (s & w2 & Hs & H).
  assert (w2 = w1) as -> by (destruct nm; inversion Hs; reflexivity). clear Hs.
  apply bind_ok in H as (obj & w3 & Hobj & H).
  inversion Hobj; subst. clear Hobj.
  apply (bind_ok_frame same_objects_count) in H as (vbuf & w4 & (T4 & O4 & P4) & H).
  2:{ apply preserves_vertex_buffer;
        [exact same_objects_count_refl | exact same_objects_count_trans
        | exact same_objects_count_refs]. }
  apply (bind_ok_frame same_objects_count) in H as (pt & w5 & (T5 & O5 & P5) & H);
    [| apply Hget].
  apply (bind_ok_frame same_objects_count) in H as (runs & w6 & (T6 & O6 & P6) & H).
  2:{ apply preserves_py_iter;
        [exact same_objects_count_refl | exact same_objects_count_trans
        | exact same_objects_count_refs]. }
  apply same_objects_count_run in H as (T7 & O7 & P7).
  cbn in T4, O4, P4. rewrite length_app in O4. cbn in O4.
  split; [lia | f_equal; congruence].
Qed.

Lemma find_object_Some name os i :
  find_object name os = Some i -> exists ms, os !! i = Some (name, ms).
Proof.
  revert i. induction os as [| [n ms] os IH]; intros i H; simpl in H; [discriminate |].
  destruct (String.eqb_spec name n) as [-> | Hne].
  - inversion H; subst. exists ms. reflexivity.
  - destruct (find_object name os) as [j |]; [| discriminate].
    inversion H; subst. simpl. apply IH. reflexivity.
Qed.

(** One placement: the objects stay as they are, and the placeables gain
    at most one item, which refers to an object of the zone. *)
Lemma convertObjects_placement_adds fuel objfrag w u w' :
  Wld.convertObjects_placement fuel objfrag w = (Ok u, w') ->
  objects (Wld.zone w') = objects (Wld.zone w) /\
  exists added,
    placeables (Wld.zone w') = placeables (Wld.zone w) ++ added /\
    (length added <= 1)%nat /\
    Forall (fun p => is_Some (objects (Wld.zone w) !! pl_obj p)) added.
Proof.
  unfold Wld.convertObjects_placement. intros H.
  apply (bind_ok_frame same_zone) in H as (off & w1 & [Z1 _] & H);
    [| apply same_zone_getitem].
  apply bind_ok in H as (off' & w2 & Hs & H).
  assert (w2 = w1) as -> by (destruct off; inversion Hs; reflexivity). clear Hs.
  apply bind_ok in H as (w0 & w3 & Hg & H). inversion Hg; subst. clear Hg.
  apply (bind_ok_frame same_zone) in H as (position & w4 & [Z4 _] & H);
    [| apply same_zone_getitem].
  apply (bind_ok_frame same_zone) in H as (rotation & w5 & [Z5 _] & H);
    [| apply same_zone_getitem].
  apply (bind_ok_frame same_zone) in H as (scale & w6 & [Z6 _] & H);
    [| apply same_zone_getitem].
  inversion H; subst. clear H. cbn.
  rewrite Z6, Z5, Z4, Z1.
  destruct (find_object _ (objects (Wld.zone w))) as [obj |] eqn:Ef; cbn.
  - split; [reflexivity |]. eexists [_]. split; [reflexivity |].
    split; [simpl; lia |]. constructor; [| constructor]. cbn.
    apply find_object_Some in Ef as [ms Ef]. rewrite Ef. eauto.
  - split; [reflexivity |]. exists []. rewrite app_nil_r.
    split; [reflexivity |]. split; [simpl; lia | constructor].
Qed.

Lemma convertObjects_placements_add fuel objs : forall w u w',
  forM_ objs (Wld.convertObjects_placement fuel) w = (Ok u, w') ->
  objects (Wld.zone w') = objects (Wld.zone w) /\
  exists added,
    placeables (Wld.zone w') = placeables (Wld.zone w) ++ added /\
    (length added <= length objs)%nat /\
    Forall (fun p => is_Some (objects (Wld.zone w) !! pl_obj p)) added.
Proof.
  induction objs as [| x objs IH]; intros w u w' H; simpl in H.
  - inversion H; subst. split; [reflexivity |]. exists []. rewrite app_nil_r.
    split; [reflexivity |]. split; [simpl; lia | constructor].
  - apply bind_ok in H as (u1 & w1 & H1 & H).
    apply convertObjects_placement_adds in H1 as (O1 & a1 & P1 & L1 & F1).
    apply IH in H as (O2 & a2 & P2 & L2 & F2).
    split; [congruence |]. exists (a1 ++ a2).
    split; [rewrite P2, P1, app_assoc; reflexivity |].
    split; [rewrite length_app; simpl; lia |].
    apply Forall_app. split; [exact F1 |]. rewrite O1 in F2. exact F2.
Qed.

(** X17.  When convertObjects returns, it has added exactly one object to
    the zone for each mesh fragment (type 0x36), and at most one placeable
    for each object-placement fragment (type 0x15): a placement whose
    object the zone does not have adds none.  The placeables that were
    there stay, in order, and every placeable added refers to an object of
    the zone.  A type the decoder has no fragment of adds nothing and is no
    error. *)
Theorem convertObjects_one_object_per_mesh (fuel : nat) (w w' : Wld.t) :
  Wld.convertObjects fuel w = (Ok tt, w') ->
  length (objects (Wld.zone w'))
  = (length (objects (Wld.zone w)) + length (default [] (Wld.byType w !! 0x36%Z)))%nat /\
  exists added,
    placeables (Wld.zone w') = placeables (Wld.zone w) ++ added /\
    (length added <= length (default [] (Wld.byType w !! 0x15%Z)))%nat /\
    Forall (fun p => is_Some (objects (Wld.zone w') !! pl_obj p)) added.
Proof.
  intros H. unfold Wld.convertObjects in H.
  apply bind_ok in H as (w0 & w1 & Hget & H). inversion Hget; subst. clear Hget.
  apply bind_ok in H as ([] & w2 & Hmeshes & H).
  apply bind_ok in H as (w0 & w3 & Hget & H). inversion Hget; subst. clear Hget.
  assert (H1 : length (objects (Wld.zone w3))
               = (length (objects (Wld.zone w1))
                  + length (default [] (Wld.byType w1 !! 0x36%Z)))%nat /\
               (Wld.byType w3, placeables (Wld.zone w3))
               = (Wld.byType w1, placeables (Wld.zone w1))).
  { destruct (Wld.byType w1 !! 0x36) as [meshes |].
    - eapply (forM__count_inv (fun w => length (objects (Wld.zone w)))
                (fun w => (Wld.byType w, placeables (Wld.zone w))));
        [| exact Hmeshes].
      intros x wa u wb. apply convertObjects_mesh_adds_one.
    - inversion Hmeshes; subst. simpl. split; [lia | reflexivity]. }
  destruct H1 as [Ho Hinv]. injection Hinv as Ht Hp.
  rewrite Ht in H.
  assert (H2 : objects (Wld.zone w') = objects (Wld.zone w3) /\
               exists added,
                 placeables (Wld.zone w') = placeables (Wld.zone w3) ++ added /\
                 (length added <= length (default [] (Wld.byType w1 !! 0x15%Z)))%nat /\
                 Forall (fun p => is_Some (objects (Wld.zone w3) !! pl_obj p)) added).
  { destruct (Wld.byType w1 !! 0x15) as [objs |].
    - eapply convertObjects_placements_add. exact H.
    - inversion H; subst. split; [reflexivity |]. exists []. rewrite app_nil_r.
      split; [reflexivity |]. split; [simpl; lia | constructor]. }
  destruct H2 as (Ho2 & added & Hp2 & Hl & Hf).
  split; [rewrite Ho2; exact Ho |].
  exists added. rewrite Hp in Hp2. rewrite Ho2.
  split; [exact Hp2 |]. split; [exact Hl | exact Hf].
Qed.

(** X17 on [placement_scene]: one mesh, whose object is "A", and two
    placements, of which the one that names "A" adds a placeable and the
    one that names "B" adds none. *)
Lemma convertObjects_one_object_per_mesh_witness :
  let w' := (Wld.convertObjects 100 placement_scene).2 in
  length (default [] (Wld.byType placement_scene !! 0x15%Z)) = 2%nat /\
  length (objects (Wld.zone w')) = 1%nat /\
  map pl_obj (placeables (Wld.zone w')) = [0%nat] /\
  Forall (fun p => is_Some (objects (Wld.zone w') !! pl_obj p))
         (placeables (Wld.zone w')).
Proof.
  intros w'.
  assert (Hrun : Wld.convertObjects 100 placement_scene = (Ok tt, w'))
    by (vm_compute; reflexivity).
  destruct (convertObjects_one_object_per_mesh 100 placement_scene _ Hrun)
    as (Ho & added & Hp & _ & Hf).
  split; [vm_compute; reflexivity |].
  split; [rewrite Ho; vm_compute; reflexivity |].
  split; [vm_compute; reflexivity |].
  assert (Hnone : placeables (Wld.zone placement_scene) = [])
    by (vm_compute; reflexivity).
  rewrite Hp, Hnone. exact Hf.
Defined.
(** ** wld.py: the warning counters and the offset of a run *)

Lemma same_warnings_refl w : same_warnings w w.
Proof. reflexivity. Qed.

Lemma same_warnings_trans w1 w2 w3 :
  same_warnings w1 w2 -> same_warnings w2 w3 -> same_warnings w1 w3.
Proof. unfold same_warnings. congruence. Qed.

Lemma same_warnings_refs w x : same_warnings w (Wld.set_refs x w).
Proof. reflexivity. Qed.

Lemma same_warnings_zone w x : same_warnings w (Wld.set_zone x w).
Proof. reflexivity. Qed.

Lemma same_warnings_textures_len fuel meshfrag :
  preserves same_warnings (Wld.textures_len fuel meshfrag).
Proof.
  apply preserves_textures_len;
    [exact same_warnings_refl | exact same_warnings_trans | exact same_warnings_refs].
Qed.

Lemma same_warnings_getitem fuel v idx :
  preserves same_warnings (Wld.py_getitem fuel v idx).
Proof.
  apply preserves_py_getitem;
    [exact same_warnings_refl | exact same_warnings_trans | exact same_warnings_refs].
Qed.

Lemma same_warnings_unpack2 fuel v : preserves same_warnings (Wld.unpack2 fuel v).
Proof.
  apply preserves_unpack2;
    [exact same_warnings_refl | exact same_warnings_trans | exact same_warnings_refs].
Qed.

Lemma same_warnings_getattr v : preserves same_warnings (Wld.getattr_value v).
Proof.
  apply preserves_getattr_value;
    first [exact same_warnings_refl | exact same_warnings_trans
          | exact same_warnings_refs].
Qed.

Lemma same_warnings_zone_run_meshes fuel meshfrag vbuf texflags mtex off count :
  preserves same_warnings
    (Wld.zone_run_meshes fuel meshfrag vbuf texflags mtex off count).
Proof.
  apply preserves_zone_run_meshes;
    [exact same_warnings_refl | exact same_warnings_trans | exact same_warnings_refs
    | exact same_warnings_zone].
Qed.

Lemma run_pair fuel count index w :
  Wld.unpack2 fuel (VTuple [VInt count; VInt index]) w
  = (Ok (VInt count, VInt index), w).
Proof. reflexivity. Qed.

Lemma convertZone_run_counted fuel meshfrag vbuf off count index w off' w' :
  Wld.convertZone_run fuel meshfrag vbuf off (VTuple [VInt count; VInt index]) w
  = (Ok off', w') ->
  off' = off + count /\ run_counted "convertZone" fuel meshfrag index w w'.
Proof.
  unfold Wld.convertZone_run. intros H.
  rewrite (bind_step _ _ _ _ _ (run_pair fuel count index w)) in H.
  cbn [Wld.as_int] in H.
  unfold bind at 1 in H. unfold ret at 1 in H.
  unfold bind at 1 in H. unfold ret at 1 in H.
  apply bind_ok in H as (n & w1 & Hn & H).
  pose proof (same_warnings_textures_len _ _ _ _ _ Hn) as W1.
  unfold run_counted.
  destruct (n <=? index) eqn:En.
  - apply bind_ok in H as (avail & w2 & Havail & H).
    pose proof (same_warnings_textures_len _ _ _ _ _ Havail) as W2.
    apply bind_ok in H as ([] & w3 & Hcount & H).
    inversion Hcount; subst. clear Hcount.
    apply (bind_ok_frame same_warnings) in H as (n1 & w4 & W4 & H);
      [| apply same_warnings_textures_len].
    apply (bind_ok_frame same_warnings) in H as ([] & w5 & W5 & H).
    2:{ pose proof same_warnings_refl as R_refl.
        pose proof same_warnings_trans as R_trans.
        pose proof same_warnings_refs as R_refs.
        pose proof same_warnings_textures_len as Hlen.
        pose proof same_warnings_zone_run_meshes as Hmeshes.
        pres. }
    inversion H; subst. split; [reflexivity |].
    exists n, w1. split; [exact Hn |]. rewrite En.
    exists avail, w2. split; [exact Havail |].
    unfold same_warnings in *. rewrite W5, W4. cbn. rewrite W2, W1. reflexivity.
  - apply (bind_ok_frame same_warnings) in H as (t & w2 & W2 & H);
      [| apply same_warnings_getitem].
    apply (bind_ok_frame same_warnings) in H as (item & w3 & W3 & H);
      [| apply same_warnings_getitem].
    apply (bind_ok_frame same_warnings) in H as ([texflags mtex] & w4 & W4 & H);
      [| apply same_warnings_unpack2].
    apply (bind_ok_frame same_warnings) in H as (v & w5 & W5 & H);
      [| apply same_warnings_getattr].
    assert (off' = off + count /\ same_warnings w5 w') as [-> W6].
    { destruct (Wld.is_none v).
      - inversion H; subst. split; reflexivity.
      - apply (bind_ok_frame same_warnings) in H as ([] & w6 & W6 & H);
          [| apply same_warnings_zone_run_meshes].
        inversion H; subst. split; [reflexivity | exact W6]. }
    split; [reflexivity |].
    exists n, w1. split; [exact Hn |]. rewrite En.
    unfold same_warnings in *. congruence.
Qed.


Lemma convertObjects_run_counted fuel obj meshfrag vbuf off count index w off' w' :
  Wld.convertObjects_run fuel obj meshfrag vbuf off (VTuple [VInt count; VInt index]) w
  = (Ok off', w') ->
  off' = off + count /\ run_counted "convertObjects" fuel meshfrag index w w'.
Proof.
  unfold Wld.convertObjects_run. intros H.
  rewrite (bind_step _ _ _ _ _ (run_pair fuel count index w)) in H.
  cbn [Wld.as_int] in H.
  unfold bind at 1 in H. unfold ret at 1 in H.
  unfold bind at 1 in H. unfold ret at 1 in H.
  apply bind_ok in H as (n & w1 & Hn & H).
  pose proof (same_warnings_textures_len _ _ _ _ _ Hn) as W1.
  unfold run_counted.
  pose proof same_warnings_refl as R_refl.
  pose proof same_warnings_trans as R_trans.
  pose proof same_warnings_refs as R_refs.
  destruct (n <=? index) eqn:En.
  - apply bind_ok in H as (avail & w2 & Havail & H).
    pose proof (same_warnings_textures_len _ _ _ _ _ Havail) as W2.
    apply bind_ok in H as ([] & w3 & Hcount & H).
    inversion Hcount; subst. clear Hcount.
    inversion H; subst. split; [reflexivity |].
    exists n, w1. split; [exact Hn |]. rewrite En.
    exists avail, w2. split; [exact Havail |].
    unfold same_warnings in *. cbn. rewrite W2, W1. reflexivity.
  - apply (bind_ok_frame same_warnings) in H as (item & w2 & W2 & H).
    2:{ apply preserves_try_lookup; [assumption | | apply preserves_ret; assumption].
        eapply preserves_bind; [assumption | | intros x; apply preserves_ret; assumption].
        apply preserves_objects_item; assumption. }
    assert (off' = off + count /\ same_warnings w2 w') as [-> W3].
    { destruct item as [[texflags mtex] |];
        [| inversion H; subst; split; reflexivity].
      apply (bind_ok_frame same_warnings) in H as (tex & w3 & W3 & H);
        [| apply preserves_objects_texture; assumption].
      destruct tex as [[[texflags' texnames] params] |];
        [| inversion H; subst; split; [reflexivity | exact W3]].
      apply (bind_ok_frame same_warnings) in H as (blobs & w4 & W4 & H);
        [| apply preserves_texture_blobs; assumption].
      apply (bind_ok_frame same_warnings) in H as ([] & w5 & W5 & H).
      2:{ apply preserves_emit_run; try assumption.
          intros m wa r wb Hm. inversion Hm; subst. reflexivity. }
      inversion H; subst. split; [reflexivity |].
      unfold same_warnings in *. congruence. }
    split; [reflexivity |].
    exists n, w1. split; [exact Hn |]. rewrite En.
    unfold same_warnings in *. congruence.
Qed.

(** X18.  One turn of the loop over a mesh's polygon-to-texture table, for
    a run of [count] polygons bound to texture [index], when it completes:
    the polygon offset has moved on by [count] in every branch, so later
    runs stay aligned with their polygons whatever happened to this one;
    a run whose index is out of range has added exactly one to the warning
    counter of its key and touched no other counter; a run in range has
    left the counters alone.  This holds at both call sites. *)
Theorem run_advances_and_counts_once (fuel : nat) (obj : nat) (meshfrag : pyval)
  (vbuf : VertexBuffer) (off count index : Z) (w : Wld.t) :
  (forall off' w',
     Wld.convertZone_run fuel meshfrag vbuf off (VTuple [VInt count; VInt index]) w
     = (Ok off', w') ->
     off' = off + count /\ run_counted "convertZone" fuel meshfrag index w w') /\
  (forall off' w',
     Wld.convertObjects_run fuel obj meshfrag vbuf off
       (VTuple [VInt count; VInt index]) w
     = (Ok off', w') ->
     off' = off + count /\ run_counted "convertObjects" fuel meshfrag index w w').
Proof.
  split; intros off' w'.
  - apply convertZone_run_counted.
  - apply convertObjects_run_counted.
Qed.

(** X18 on the mesh of [scene_out_of_range] (fragment 9) and its run of one
    polygon bound to texture 3: the offset moves from 0 to 1. *)
Lemma run_advances_and_counts_once_witness :
  let vbuf := mkVertexBuffer [] 3 in
  let r := Wld.convertZone_run 100 (VObj 9) vbuf 0 (VTuple [VInt 1; VInt 3])
             scene_out_of_range in
  r.1 = Ok 1 /\ run_counted "convertZone" 100 (VObj 9) 3 scene_out_of_range r.2.
Proof.
  intros vbuf r.
  assert (Hrun : Wld.convertZone_run 100 (VObj 9) vbuf 0 (VTuple [VInt 1; VInt 3])
                   scene_out_of_range = (Ok 1, r.2)) by (vm_compute; reflexivity).
  destruct (proj1 (run_advances_and_counts_once 100 0 (VObj 9) vbuf 0 1 3
                     scene_out_of_range) 1 r.2 Hrun) as [_ Hc].
  split; [vm_compute; reflexivity | exact Hc].
Defined.

(** ** wld.py: the tables that __init__ builds *)

Lemma same_tables_refl w : same_tables w w.
Proof. repeat split. Qed.

Lemma same_tables_trans w1 w2 w3 :
  same_tables w1 w2 -> same_tables w2 w3 -> same_tables w1 w3.
Proof.
  intros (F1 & N1 & T1 & B1 & O1) (F2 & N2 & T2 & B2 & O2).
  repeat split; congruence.
Qed.

Lemma same_tables_refs w x : same_tables w (Wld.set_refs x w).
Proof. repeat split. Qed.

Lemma same_tables_b w x : same_tables w (Wld.set_b x w).
Proof. repeat split. Qed.

Lemma same_tables_fragHandlers set_order type h :
  Wld.fragHandlers set_order type = Some h -> preserves same_tables h.
Proof.
  apply preserves_fragHandlers;
    [ exact same_tables_refl | exact same_tables_trans
    | exact same_tables_refs | exact same_tables_b ].
Qed.

Lemma same_tables_liftB {A} (m : M Buffer.t A) : preserves same_tables (Wld.liftB m).
Proof. apply preserves_liftB. exact same_tables_b. Qed.

Lemma same_tables_entry_header : preserves same_tables Wld.entry_header.
Proof.
  unfold Wld.entry_header.
  repeat (eapply preserves_bind;
          [ exact same_tables_trans | apply same_tables_liftB | intros ? ]).
  apply preserves_ret. exact same_tables_refl.
Qed.


(** What [store_payload] returns and does to the payload objects. *)
Lemma store_payload_ok i name frag w v w' :
  Wld.store_payload i name frag w = (Ok v, w') ->
  Wld.frags w' = Wld.frags w /\ Wld.names w' = Wld.names w /\
  Wld.byType w' = Wld.byType w /\ Wld.baked w' = Wld.baked w /\
  payload_stored i name v (Wld.objs w') /\
  forall j, j <> i -> Wld.objs w' !! j = Wld.objs w !! j.
Proof.
  intros H. destruct w.
  destruct frag; cbv [Wld.store_payload bind modify ret] in H;
    inversion H; subst; cbn;
    repeat (split; [reflexivity |]);
    try (split; [| intros j Hj; try reflexivity;
                   apply lookup_insert_ne; congruence]);
    first
      [ left; reflexivity
      | right; left; eexists; reflexivity
      | right; right; split; [reflexivity |];
        eexists; split; [apply lookup_insert_eq |];
        intros d0 E;
        first [discriminate E | inversion E; subst; apply dict_get_set_eq] ].
Qed.

(** One turn of the forward loop: the entry it adds to the three tables. *)
Lemma frag_step_tables handlers i w w' :
  (forall type h, handlers type = Some h -> preserves same_tables h) ->
  Wld.frag_step handlers i w = (Ok tt, w') ->
  exists e,
    is_name (e_name e) /\
    Wld.frags w' = od_set i (entry_tuple (i, e)) (Wld.frags w) /\
    Wld.byType w'
    = <[e_type e := default [] (Wld.byType w !! e_type e) ++ [entry_tuple (i, e)]]>
        (Wld.byType w) /\
    Wld.names w'
    = (if negb (Wld.is_empty_str (e_name e)) || (e_type e =? 0x05)
       then <[Wld.name_key (e_name e) := entry_tuple (i, e)]> (Wld.names w)
       else Wld.names w) /\
    Wld.baked w' = Wld.baked w /\
    payload_stored i (e_name e) (e_frag e) (Wld.objs w') /\
    forall j, j <> i -> Wld.objs w' !! j = Wld.objs w !! j.
Proof.
  intros Hh H. unfold Wld.frag_step in H.
  apply bind_ok in H as ([[size type] nameoff] & w1 & Hhead & H).
  apply same_tables_entry_header in Hhead as (F1 & N1 & T1 & B1 & O1).
  apply bind_ok in H as (w1' & w2 & Hget & H). inversion Hget; subst. clear Hget.
  apply bind_ok in H as (frag & w3 & Hfrag & H).
  assert (H23 : same_tables w2 w3).
  { destruct (handlers type) as [h |] eqn:Eh.
    - eapply Hh; eassumption.
    - inversion Hfrag; subst. apply same_tables_refl. }
  destruct H23 as (F3 & N3 & T3 & B3 & O3). clear Hfrag.
  apply bind_ok in H as (obj & w4 & Hstore & H).
  apply store_payload_ok in Hstore as (F4 & N4 & T4 & B4 & Hp & O4).
  apply bind_ok in H as ([] & w5 & Hset & H). inversion Hset; subst. clear Hset.
  apply bind_ok in H as ([] & w6 & Hnames & H).
  apply bind_ok in H as ([] & w7 & Hby & H). inversion Hby; subst. clear Hby.
  apply same_tables_liftB in H as (F8 & N8 & T8 & B8 & O8).
  set (name := if negb (nameoff =? 16777216)
               then VStr (Wld.getString w2 (- nameoff)) else VNone) in *.
  exists (mkEntry name type obj). cbn [e_name e_type e_frag].
  assert (Hw6 : w6 = (if negb (Wld.is_empty_str name) || (type =? 0x05)
                      then Wld.set_names
                             (<[Wld.name_key name := entry_tuple (i, mkEntry name type obj)]>
                                (Wld.names w4))
                      else fun x => x)
                       (Wld.set_frags
                          (od_set i (entry_tuple (i, mkEntry name type obj)) (Wld.frags w4))
                          w4)).
  { unfold Wld.when in Hnames.
    destruct (negb (Wld.is_empty_str name) || (type =? 5));
      inversion Hnames; subst; reflexivity. }
  split.
  { unfold is_name, name. destruct (negb (nameoff =? 16777216)); eauto. }
  rewrite F8, N8, T8, B8, O8. subst w6.
  unfold entry_tuple. cbn [fst snd e_name e_type e_frag].
  destruct (negb (Wld.is_empty_str name) || (type =? 5)); destruct w4; cbn in *;
    (split; [congruence |]); (split; [congruence |]); (split; [congruence |]);
    (split; [congruence |]); (split; [exact Hp |]);
    intros j Hj; rewrite (O4 j Hj); congruence.
Qed.

Lemma payload_stored_same i name frag (o o' : gmap Z pyval) :
  o' !! i = o !! i -> payload_stored i name frag o -> payload_stored i name frag o'.
Proof.
  intros E [H | [H | (H & c & Hc & Hd)]]; [left; exact H | right; left; exact H |].
  right. right. split; [exact H |]. exists c. split; [congruence | exact Hd].
Qed.

Lemma number_keys es : forall i : nat,
  map fst (number (Z.of_nat i) es) = map Z.of_nat (seq i (length es)).
Proof.
  induction es as [| e es IH]; intros i; simpl; [reflexivity |].
  f_equal. replace (Z.of_nat i + 1) with (Z.of_nat (S i)) by lia. apply IH.
Qed.

Lemma number_indices es : forall i x, x ∈ number i es -> i <= x.1.
Proof.
  induction es as [| e es IH]; intros i x Hx; simpl in Hx.
  - inversion Hx.
  - apply elem_of_cons in Hx as [-> | Hx]; [simpl; lia |].
    apply IH in Hx. lia.
Qed.

(** The forward pass from index [i] on: what it adds to the tables. *)
Lemma frag_loop_tables handlers n : forall (i : nat) w w',
  (forall type h, handlers type = Some h -> preserves same_tables h) ->
  map fst (Wld.frags w) = fragment_keys i ->
  Wld.frag_loop handlers n (Z.of_nat i) w = (Ok tt, w') ->
  exists es, length es = n /\
    Wld.frags w'
    = Wld.frags w ++ map (fun x => (x.1, entry_tuple x)) (number (Z.of_nat i) es) /\
    (forall t, is_Some (Wld.byType w' !! t)
               <-> is_Some (Wld.byType w !! t) \/ of_type t es <> []) /\
    Wld.baked w' = Wld.baked w /\
    (forall j, j < Z.of_nat i -> Wld.objs w' !! j = Wld.objs w !! j) /\
    Forall (fun x => is_name (e_name x.2) /\
                     payload_stored x.1 (e_name x.2) (e_frag x.2) (Wld.objs w'))
           (number (Z.of_nat i) es).
Proof.
  induction n as [| n IH]; intros i w w' Hh Hk H; simpl in H.
  - inversion H; subst. exists []. simpl. rewrite app_nil_r.
    split; [reflexivity |]. split; [reflexivity |].
    split; [intros t; split; [tauto | intros [Hs | Hne]; [exact Hs | contradiction]] |].
    split; [reflexivity |]. split; [reflexivity | constructor].
  - apply bind_ok in H as ([] & w1 & Hstep & H).
    apply frag_step_tables in Hstep
      as (e & Hname & Hf & Ht & _ & Hb & Hp & Ho); [| exact Hh].
    rewrite od_set_fresh in Hf.
    2:{ rewrite Hk. unfold fragment_keys. intros Hin.
        apply list_elem_of_In, in_map_iff in Hin as (k & Hk1 & Hk2).
        apply in_seq in Hk2. lia. }
    replace (Z.of_nat i + 1) with (Z.of_nat (S i)) in H by lia.
    apply IH in H as (es & Hlen & Hf' & Ht' & Hb' & Ho' & Hall); [| exact Hh |].
    2:{ rewrite Hf, map_app, Hk. unfold fragment_keys.
        rewrite seq_S, map_app. reflexivity. }
    exists (e :: es). cbn [number length].
    replace (Z.of_nat i + 1) with (Z.of_nat (S i)) by lia.
    split; [lia |]. split.
    { rewrite Hf', Hf, <- app_assoc. reflexivity. }
    split.
    { intros t. rewrite Ht', Ht. unfold of_type. rewrite filter_cons.
      destruct (decide (e_type e = t)) as [<- | Hne].
      - rewrite lookup_insert_eq. split; [intros _; right; discriminate |].
        intros _. left. eauto.
      - rewrite lookup_insert_ne by exact Hne. tauto. }
    split; [congruence |].
    split.
    { intros j Hj. rewrite Ho' by lia. apply Ho. lia. }
    constructor; [| exact Hall]. cbn [fst snd].
    split; [exact Hname |].
    eapply payload_stored_same; [| exact Hp]. apply Ho'. lia.
Qed.

Lemma rebake_loop_tables (ies : list (Z * entry)) : forall acc w acc' w',
  NoDup (map fst acc.1 ++ map fst ies) ->
  Wld.rebake_loop (map entry_tuple ies) acc w = (Ok acc', w') ->
  acc'.1 = acc.1 ++ map (fun x => (x.1, e_frag x.2)) ies /\
  acc'.2 = fold_left (fun m x => <[Wld.name_key (e_name x.2) := e_frag x.2]> m)
                     ies acc.2 /\
  (forall t, Wld.byType w' !! t
             = (fun l => l ++ map e_frag (of_type t (map snd ies)))
                 <$> Wld.byType w !! t) /\
  w' = Wld.set_byType (Wld.byType w') w.
Proof.
  induction ies as [| [i e] ies IH]; intros acc w acc' w' Hnd H; simpl in H.
  - inversion H; subst. simpl. rewrite app_nil_r.
    repeat split; [| destruct w'; reflexivity].
    intros t. destruct (Wld.byType w' !! t); simpl; [rewrite app_nil_r |]; reflexivity.
  - apply bind_ok in H as (acc1 & w1 & Hstep & H).
    unfold entry_tuple in Hstep. cbn [fst snd Wld.rebake_step] in Hstep.
    apply bind_ok in Hstep as (w0 & w0' & Hget & Hstep).
    inversion Hget; subst. clear Hget.
    destruct (Wld.byType w0' !! e_type e) as [l |] eqn:El; [| discriminate].
    apply bind_ok in Hstep as ([] & w2 & Hmod & Hstep).
    inversion Hmod; subst. clear Hmod.
    inversion Hstep; subst. clear Hstep.
    simpl in Hnd.
    assert (Hfresh : i ∉ map fst acc.1).
    { intros Hin. apply NoDup_app in Hnd as (_ & Hd & _).
      apply (Hd i Hin). left. }
    apply IH in H as (H1 & H2 & H3 & H4).
    2:{ cbn [fst]. rewrite od_set_fresh by exact Hfresh.
        rewrite map_app, <- app_assoc. exact Hnd. }
    cbn [fst snd] in *. rewrite od_set_fresh in H1 by exact Hfresh.
    split; [rewrite H1, <- app_assoc; reflexivity |].
    split; [exact H2 |].
    split.
    { intros t. rewrite H3. cbn [Wld.byType Wld.set_byType].
      cbn [map snd]. unfold of_type. rewrite filter_cons.
      destruct (decide (e_type e = t)) as [<- | Hne].
      - rewrite lookup_insert_eq, El. cbn. rewrite <- app_assoc. reflexivity.
      - rewrite lookup_insert_ne by exact Hne. reflexivity. }
    rewrite H4. destruct w0'; reflexivity.
Qed.

Lemma last_cons_some {A} (x : A) l :
  last (x :: l) = match last l with Some y => Some y | None => Some x end.
Proof.
  destruct l as [| y l]; [reflexivity |].
  change (last (x :: y :: l)) with (last (y :: l)).
  destruct (last (y :: l)) eqn:E; [reflexivity |].
  apply last_None in E. discriminate.
Qed.

Lemma names_fold_lookup (ies : list (Z * entry)) :
  forall (m0 : gmap (option string) pyval) k,
  fold_left (fun m x => <[Wld.name_key (e_name x.2) := e_frag x.2]> m) ies m0 !! k
  = match last (named k (map snd ies)) with
    | Some e => Some (e_frag e)
    | None => m0 !! k
    end.
Proof.
  induction ies as [| [i e] ies IH]; intros m0 k; simpl; [reflexivity |].
  rewrite IH. unfold named. rewrite filter_cons. cbn [snd].
  destruct (decide (Wld.name_key (e_name e) = k)) as [<- | Hne].
  - rewrite last_cons_some.
    destruct (last (filter _ (map snd ies))); [reflexivity |].
    apply lookup_insert_eq.
  - destruct (last (filter _ (map snd ies))); [reflexivity |].
    apply lookup_insert_ne. exact Hne.
Qed.

Lemma number_snd es : forall i, map snd (number i es) = es.
Proof. induction es as [| e es IH]; intros i; simpl; [reflexivity | f_equal; apply IH]. Qed.

Lemma same_tables_read_header : preserves same_tables Wld.read_header.
Proof.
  unfold Wld.read_header, assert.
  repeat
    (cbv zeta;
     lazymatch goal with
     | |- preserves _ (bind _ _) =>
         eapply preserves_bind; [ exact same_tables_trans | | intros ? ]
     | |- preserves _ (Wld.liftB _) => apply same_tables_liftB
     | |- preserves _ (ret _) => apply preserves_ret; exact same_tables_refl
     | |- preserves _ (raise _) => apply preserves_raise; exact same_tables_refl
     | |- preserves _ (modify _) =>
         let w := fresh in let r := fresh in let w' := fresh in let H := fresh in
         intros w r w' H; inversion H; subst; destruct w; repeat split
     | |- preserves _ (if ?c then _ else _) => destruct c
     | |- preserves _ Wld.uint => apply same_tables_liftB
     | |- preserves _ (Wld.skip _) => apply same_tables_liftB
     | |- preserves _ (Wld.read _) => apply same_tables_liftB
     end).
Qed.

(** The decode, from the fresh object to the rebuilt tables. *)
Lemma init_body_tables handlers data files w :
  (forall type h, handlers type = Some h -> preserves same_tables h) ->
  Wld.init_body handlers (Wld.fresh data files) = (Ok tt, w) ->
  exists es,
    Wld.frags w = map (fun x => (x.1, e_frag x.2)) (number 0 es) /\
    (forall t, Wld.byType w !! t
               = match of_type t es with
                 | [] => None
                 | l => Some (map e_frag l)
                 end) /\
    (forall k, Wld.names w !! k = e_frag <$> last (named k es)) /\
    Wld.baked w = true /\
    Forall (fun x => is_name (e_name x.2) /\
                     payload_stored x.1 (e_name x.2) (e_frag x.2) (Wld.objs w))
           (number 0 es).
Proof.
  intros Hh H. unfold Wld.init_body in H.
  apply bind_ok in H as (fragCount & w0 & Hhead & H).
  apply same_tables_read_header in Hhead as (F0 & _ & T0 & _ & _).
  cbn in F0, T0.
  apply bind_ok in H as ([] & w1 & Hloop & H).
  apply (frag_loop_tables handlers _ 0) in Hloop
    as (es & Hlen & Hf & Ht & _ & _ & Hall);
    [| exact Hh | rewrite F0; reflexivity].
  rewrite F0 in Hf. cbn [app] in Hf. change (Z.of_nat 0) with 0 in *.
  unfold Wld.rebake in H.
  apply bind_ok in H as ([] & w2 & Hclear & H). inversion Hclear; subst. clear Hclear.
  apply bind_ok in H as (w2 & w2' & Hget & H). inversion Hget; subst. clear Hget.
  apply bind_ok in H as (acc & w3 & Hre & H).
  replace (map snd (Wld.frags _)) with (map entry_tuple (number 0 es)) in Hre.
  2:{ cbn [Wld.frags Wld.set_byType]. rewrite Hf, map_map. reflexivity. }
  apply rebake_loop_tables in Hre as (H1 & H2 & H3 & H4).
  2:{ cbn [fst map app]. change (number 0 es) with (number (Z.of_nat 0) es).
      rewrite number_keys. apply NoDup_fragment_keys. }
  apply bind_ok in H as ([] & w4 & Hsf & H). inversion Hsf; subst. clear Hsf.
  apply bind_ok in H as ([] & w5 & Hsn & H). inversion Hsn; subst. clear Hsn.
  inversion H; subst. clear H.
  exists es. cbn [Wld.frags Wld.names Wld.byType Wld.baked Wld.objs
                  Wld.set_frags Wld.set_names Wld.set_baked].
  rewrite number_snd in H3.
  split; [exact H1 |]. split.
  { intros t. rewrite H3. cbn [Wld.byType Wld.set_byType].
    rewrite lookup_fmap.
    specialize (Ht t). rewrite T0, lookup_empty in Ht.
    destruct (of_type t es) as [| e l] eqn:E.
    - destruct (Wld.byType w1 !! t) as [x |] eqn:Ex; [| reflexivity].
      exfalso. destruct (proj1 Ht (mk_is_Some _ _ eq_refl)) as [[y Hy] | Hne];
        [discriminate | contradiction].
    - destruct (Wld.byType w1 !! t) as [x |] eqn:Ex; [reflexivity |].
      exfalso. assert (Hne : e :: l <> []) by discriminate.
      destruct (proj2 Ht (or_intror Hne)) as [y Hy]. discriminate. }
  split.
  { intros k. rewrite H2, names_fold_lookup, number_snd. cbn [snd].
    rewrite lookup_empty. destruct (last (named k es)); reflexivity. }
  split; [reflexivity |].
  rewrite H4. cbn [Wld.objs Wld.set_byType]. exact Hall.
Qed.
(** X19.  When [Wld(data, s3d)] returns, its three tables describe one and
    the same list of fragments, numbered from 0 in stream order: [frags]
    maps each index to the payload of its fragment; [byType] has a key for
    exactly the types that occur, with the payloads of that type in stream
    order; [names] maps every name that occurs, the empty name and [None]
    included, to the payload of the last fragment with that name; and the
    decoder is marked as baked. *)
Theorem init_tables_agree (set_order : list Z -> list Z) (data : list byte)
  (files : gmap string (list byte)) (w : Wld.t) :
  Wld.init set_order data files = (Ok tt, w) ->
  exists es,
    Wld.frags w = map (fun x => (x.1, e_frag x.2)) (number 0 es) /\
    (forall t, Wld.byType w !! t
               = match of_type t es with
                 | [] => None
                 | l => Some (map e_frag l)
                 end) /\
    (forall k, Wld.names w !! k = e_frag <$> last (named k es)) /\
    Wld.baked w = true.
Proof.
  intros H. unfold Wld.init in H.
  apply init_body_tables in H as (es & Hf & Ht & Hn & Hb & _);
    [| apply same_tables_fragHandlers].
  exists es. auto.
Qed.

(** X19 on [lights_stream]. *)
Lemma init_tables_agree_witness :
  exists es,
    Wld.frags lights_scene = map (fun x => (x.1, e_frag x.2)) (number 0 es) /\
    (forall t, Wld.byType lights_scene !! t
               = match of_type t es with
                 | [] => None
                 | l => Some (map e_frag l)
                 end) /\
    (forall k, Wld.names lights_scene !! k = e_frag <$> last (named k es)) /\
    Wld.baked lights_scene = true.
Proof.
  apply (init_tables_agree no_sets lights_stream ∅ lights_scene).
  vm_compute. reflexivity.
Defined.

(** X20.  When [Wld(data, s3d)] returns, take the list of fragments that
    the tables describe: [frags] holds the payload of each under its index,
    [byType] files the payloads by type, and [names] files under each name
    the payload of the last fragment that carries it.  The payload of
    fragment [i] is [None], a reference, or an object of its own (the object
    of fragment [i], which exists); and if that object is a dict it has the
    key ["_name"], bound to the name of that same fragment, which is [None]
    or a string. *)
Theorem init_payload_objects (set_order : list Z -> list Z) (data : list byte)
  (files : gmap string (list byte)) (w : Wld.t) :
  Wld.init set_order data files = (Ok tt, w) ->
  exists es,
    Wld.frags w = map (fun x => (x.1, e_frag x.2)) (number 0 es) /\
    (forall t, Wld.byType w !! t
               = match of_type t es with
                 | [] => None
                 | l => Some (map e_frag l)
                 end) /\
    (forall k, Wld.names w !! k = e_frag <$> last (named k es)) /\
    Forall (fun x => is_name (e_name x.2) /\
                     payload_stored x.1 (e_name x.2) (e_frag x.2) (Wld.objs w))
           (number 0 es).
Proof.
  intros H. unfold Wld.init in H.
  apply init_body_tables in H as (es & Hf & Ht & Hn & _ & Hall);
    [| apply same_tables_fragHandlers].
  exists es. auto.
Qed.

(** X20 on [scene_out_of_range]: fragment 9, the mesh, is filed under the
    name A_DMSPRITEDEF, and its dict holds that name under ["_name"]. *)
Lemma init_payload_objects_witness :
  Wld.names scene_out_of_range !! Some "A_DMSPRITEDEF"%string = Some (VObj 9) /\
  (exists d, Wld.objs scene_out_of_range !! 9 = Some (VDict d) /\
             dict_get "_name" d = Some (VStr "A_DMSPRITEDEF")) /\
  exists es,
    Wld.frags scene_out_of_range = map (fun x => (x.1, e_frag x.2)) (number 0 es) /\
    (forall k, Wld.names scene_out_of_range !! k = e_frag <$> last (named k es)) /\
    Forall (fun x => is_name (e_name x.2) /\
                     payload_stored x.1 (e_name x.2) (e_frag x.2)
                       (Wld.objs scene_out_of_range))
           (number 0 es).
Proof.
  split; [vm_compute; reflexivity |].
  split; [eexists; split; vm_compute; reflexivity |].
  destruct (init_payload_objects no_sets (scene_stream 0 [(1, 3)]) scene_files
              scene_out_of_range) as (es & Hf & _ & Hn & Hall).
  - vm_compute. reflexivity.
  - exists es. auto.
Defined.
(** ** wld.py: resolving a reference after the decode *)

Lemma set_ref_value_step a v w r :
  Wld.refs w !! a = Some r ->
  Wld.set_ref_value a v w
  = (Ok tt, Wld.set_refs (<[a := Wld.mkFragRef (Wld.ref_id r) (Wld.ref_name r) v]>
                            (Wld.refs w)) w).
Proof. intros Hr. unfold Wld.set_ref_value. rewrite Hr. reflexivity. Qed.

Lemma get_ref_step a w r :
  Wld.refs w !! a = Some r -> Wld.get_ref a w = (Ok r, w).
Proof. intros Hr. unfold Wld.get_ref. rewrite Hr. reflexivity. Qed.

(** X21.  After the decode, resolving a reference that holds no value yet
    looks its fragment up, by index if the reference has one and by name
    otherwise, stores the payload found in the reference and returns it.
    So a reference to a fragment that came later in the stream, unresolved
    when it was made, resolves once the decode is over. *)
Theorem resolve_after_decode (fuel : nat) (a : nat) (w : Wld.t)
  (r : Wld.FragRef) (v : pyval) :
  Wld.refs w !! a = Some r ->
  Wld.ref_value r = VNone ->
  Wld.baked w = true ->
  ref_target w r = Some v ->
  (forall a', v <> VFragRef a') ->
  Wld.resolve (S fuel) a w
  = (Ok v, Wld.set_refs (<[a := Wld.mkFragRef (Wld.ref_id r) (Wld.ref_name r) v]>
                           (Wld.refs w)) w).
Proof.
  intros Hr Hv Hb Ht Hnf. destruct r as [rid rname rval].
  cbn [Wld.ref_id Wld.ref_name Wld.ref_value] in *. subst rval.
  rewrite resolve_S.
  rewrite (bind_step _ _ _ _ _ (get_ref_step _ _ _ Hr)).
  unfold bind at 1. unfold get at 1. cbn [Wld.ref_id Wld.ref_name Wld.ref_value].
  set (w1 := Wld.set_refs _ w).
  assert (Hr1 : Wld.refs w1 !! a
                = Some (Wld.mkFragRef rid rname v)).
  { unfold w1. cbn. apply list_lookup_insert_eq. eapply lookup_lt_Some. exact Hr. }
  assert (Hfirst :
    (match rid, rname with
     | Some i, _ =>
         match od_get i (Wld.frags w) with
         | None => raise KeyError
         | Some e =>
             do! Wld.set_ref_value a e in
             if Wld.baked w then ret tt
             else let! v := Wld.getitem_with (Wld.resolve fuel) e (VInt 3) in
                  Wld.set_ref_value a v
         end
     | None, Some n =>
         match Wld.names w !! Some n with
         | None => raise KeyError
         | Some e =>
             do! Wld.set_ref_value a e in
             if Wld.baked w then ret tt
             else let! v := Wld.getitem_with (Wld.resolve fuel) e (VInt 3) in
                  Wld.set_ref_value a v
         end
     | None, None => ret tt
     end) w = (Ok tt, w1)).
  { unfold ref_target in Ht. rewrite Hb.
    cbn [Wld.ref_id Wld.ref_name] in Ht.
    destruct rid as [i |]; [| destruct rname as [n |]];
      [rewrite Ht | rewrite Ht | discriminate];
      rewrite (bind_step _ _ _ _ _ (set_ref_value_step a v w _ Hr)); reflexivity. }
  rewrite (bind_step _ _ _ _ _ Hfirst).
  rewrite (bind_step _ _ _ _ _ (get_ref_step _ _ _ Hr1)).
  cbn [Wld.ref_value].
  destruct v; try reflexivity. exfalso. eapply Hnf. reflexivity.
Qed.

(** X21 on [forward_scene]: the reference of fragment 0 to fragment 1. *)
Lemma resolve_after_decode_witness :
  Wld.resolve 1 0 forward_scene
  = (Ok (VObj 1),
     Wld.set_refs [Wld.mkFragRef (Some 1) None (VObj 1)] forward_scene).
Proof.
  apply (resolve_after_decode 0 0 forward_scene (Wld.mkFragRef (Some 1) None VNone)
           (VObj 1));
    try (vm_compute; reflexivity).
  intros a'. discriminate.
Defined.

(** ** wld.py: a scene without fragments *)

(** X22.  A stream whose header declares no fragment decodes to a decoder
    with empty tables.  On it convertObjects returns and changes nothing,
    while convertZone and convertLights raise [KeyError]: they index
    [byType] by the mesh type and the light-placement type without testing
    that the key is there. *)
Theorem empty_table_converters (set_order : list Z -> list Z) (data : list byte)
  (files : gmap string (list byte)) (w0 : Wld.t) (fuel : nat) :
  Wld.read_header (Wld.fresh data files) = (Ok 0, w0) ->
  exists w,
    Wld.init set_order data files = (Ok tt, w) /\
    Wld.frags w = [] /\
    Wld.convertObjects fuel w = (Ok tt, w) /\
    Wld.convertZone fuel w = (Raise KeyError, w) /\
    Wld.convertLights fuel w = (Raise KeyError, w).
Proof.
  intros Hhead.
  pose proof (same_tables_read_header _ _ _ Hhead) as (F0 & _ & T0 & _ & _).
  cbn [Wld.byType Wld.frags Wld.fresh] in F0, T0.
  eexists. split.
  { unfold Wld.init, Wld.init_body. rewrite (bind_step _ _ _ _ _ Hhead).
    change (Wld.range 0) with 0%nat. cbn [Wld.frag_loop].
    unfold Wld.rebake, bind, ret, modify, get.
    cbn [Wld.frags Wld.set_byType]. rewrite F0. reflexivity. }
  match goal with |- Wld.frags ?s = _ /\ _ => set (w := s) end.
  assert (Hby : forall t : Z, Wld.byType w !! t = None).
  { intros t. unfold w.
    cbn [Wld.byType Wld.set_baked Wld.set_names Wld.set_frags Wld.set_byType].
    rewrite lookup_fmap, T0, lookup_empty. reflexivity. }
  split; [reflexivity |].
  split; [| split].
  - unfold Wld.convertObjects, bind, get. rewrite Hby.
    unfold ret. cbv beta iota. rewrite Hby. reflexivity.
  - unfold Wld.convertZone, bind, get. rewrite Hby. reflexivity.
  - unfold Wld.convertLights, bind, get. rewrite Hby. reflexivity.
Qed.

(** X22 on [empty_stream]. *)
Lemma empty_table_converters_witness :
  exists w,
    Wld.init no_sets empty_stream ∅ = (Ok tt, w) /\
    Wld.frags w = [] /\
    Wld.convertObjects 10 w = (Ok tt, w) /\
    Wld.convertZone 10 w = (Raise KeyError, w) /\
    Wld.convertLights 10 w = (Raise KeyError, w).
Proof.
  apply (empty_table_converters no_sets empty_stream ∅
           (Wld.read_header (Wld.fresh empty_stream ∅)).2 10).
  vm_compute. reflexivity.
Defined.

(** ** wld.py: the polygons of a run, by collision flag *)

Lemma select_polys_items fuel want (ps : list (bool * pyval)) w :
  Wld.select_polys fuel want (map poly_item ps) w
  = (Ok (map snd (filter (fun p => p.1 = want) ps)), w).
Proof.
  induction ps as [| [c x] ps IH]; [reflexivity |].
  cbn [map Wld.select_polys]. unfold poly_item at 1. cbn [fst snd].
  change (Wld.unpack2 fuel (VTuple [VBool c; x])) with
    (ret (S := Wld.t) (VBool c, x)).
  unfold bind at 1. unfold ret at 1.
  change (Wld.py_bool fuel (VBool c)) with (ret (S := Wld.t) c).
  unfold bind at 1. unfold ret at 1.
  rewrite (bind_step _ _ _ _ _ IH). unfold ret.
  rewrite filter_cons. cbn [fst].
  destruct c, want; cbn [Bool.eqb];
    first [ rewrite decide_True by reflexivity
          | rewrite decide_False by discriminate ];
    reflexivity.
Qed.

(** X23.  The two comprehensions that split the polygons of a run by
    their collision flag, on polygons as [frag_mesh] stores them: the first
    keeps the polygons whose flag is true, the second those whose flag is
    false, each in the order of the run; every polygon of the run is in
    exactly one of the two; the decoder is not changed. *)
Theorem select_polys_partition (fuel : nat) (ps : list (bool * pyval)) (w : Wld.t) :
  Wld.select_polys fuel true (map poly_item ps) w
  = (Ok (map snd (filter (fun p => p.1 = true) ps)), w) /\
  Wld.select_polys fuel false (map poly_item ps) w
  = (Ok (map snd (filter (fun p => p.1 = false) ps)), w) /\
  (length (filter (fun p => p.1 = true) ps)
   + length (filter (fun p => p.1 = false) ps) = length ps)%nat.
Proof.
  split; [apply select_polys_items |]. split; [apply select_polys_items |].
  induction ps as [| [c x] ps IH]; [reflexivity |].
  rewrite !filter_cons. cbn [fst].
  destruct c;
    [ rewrite decide_True by reflexivity; rewrite decide_False by discriminate
    | rewrite decide_False by discriminate; rewrite decide_True by reflexivity ];
    cbn [length]; lia.
Qed.

(** ** wld.py: a skeleton frame with zero denominators *)

Lemma wld_shortN_step w n l b' :
  Buffer.shortN n (Wld.b w) = (Ok l, b') -> Wld.shortN n w = (Ok l, Wld.set_b b' w).
Proof. intros H. unfold Wld.shortN, Wld.liftB, zoom. rewrite H. reflexivity. Qed.

(** X24.  A frame of a skeleton piece track always decodes once its eight
    shorts are read, zero denominators included: when the rotation's first
    short (w) is 0 the rotation is the identity quaternion (0, 0, 0, 1), and
    when the shift's last short (the denominator) is 0 the position is
    (0, 0, 0), whatever the other shorts hold. *)
Theorem skelpiecetrack_frame_zero_denominators (w : Wld.t) (rot shift : list Z)
  (b1 b2 : Buffer.t) :
  Buffer.shortN 4 (Wld.b w) = (Ok rot, b1) ->
  Buffer.shortN 4 b1 = (Ok shift, b2) ->
  exists position rotation,
    Wld.skelpiecetrack_frame w
    = (Ok (VDict [("position"%string, position); ("rotation"%string, rotation)]),
       Wld.set_b b2 w) /\
    (nth 0 rot 0 = 0 -> rotation = VTuple [VInt 0; VInt 0; VInt 0; VInt 1]) /\
    (nth 3 shift 0 = 0 -> position = VTuple [VInt 0; VInt 0; VInt 0]).
Proof.
  intros Hrot Hshift. unfold Wld.skelpiecetrack_frame.
  rewrite (bind_step _ _ _ _ _ (wld_shortN_step _ _ _ _ Hrot)).
  rewrite (bind_step _ _ _ _ _ (wld_shortN_step (Wld.set_b b1 w) _ _ _ Hshift)).
  cbv zeta.
  destruct (negb (PrimFloat.eqb (float_of_Z (nth 0 rot 0)) 0)) eqn:Er;
    destruct (negb (PrimFloat.eqb (float_of_Z (nth 3 shift 0)) 0)) eqn:Es;
    (eexists _, _; split; [destruct w; reflexivity |]; split; intros E;
     try reflexivity;
     first [ rewrite E in Er; vm_compute in Er; discriminate Er
           | rewrite E in Es; vm_compute in Es; discriminate Es ]).
Qed.

(** X24 on sixteen zero bytes. *)
Lemma skelpiecetrack_frame_zero_denominators_witness :
  let data := repeat x00 16 in
  let w := Wld.set_b (Buffer.mk data 0) (Wld.fresh [] ∅) in
  exists position rotation,
    Wld.skelpiecetrack_frame w
    = (Ok (VDict [("position"%string, position); ("rotation"%string, rotation)]),
       Wld.set_b (Buffer.mk data 16) w) /\
    (nth 0 [0; 0; 0; 0] 0 = 0 -> rotation = VTuple [VInt 0; VInt 0; VInt 0; VInt 1]) /\
    (nth 3 [0; 0; 0; 0] 0 = 0 -> position = VTuple [VInt 0; VInt 0; VInt 0]).
Proof.
  intros data w.
  apply (skelpiecetrack_frame_zero_denominators w [0; 0; 0; 0] [0; 0; 0; 0]
           (Buffer.mk data 8) (Buffer.mk data 16));
    vm_compute; reflexivity.
Defined.

(** ** wld.py: getFrag while the stream is decoded *)

Lemma decode_tables_spec w :
  decode_tables w = true <->
  Forall (fun x => is_entry x.2 = true) (Wld.frags w) /\
  map_Forall (fun _ e => is_entry e = true) (Wld.names w).
Proof.
  unfold decode_tables. rewrite andb_true_iff, !forallb_forall.
  rewrite List.Forall_forall. split; intros [Hf Hn]; (split; [exact Hf |]).
  - intros k e Hk. apply (Hn (k, e)).
    apply list_elem_of_In, elem_of_map_to_list. exact Hk.
  - intros [k e] Hin. apply list_elem_of_In, elem_of_map_to_list in Hin.
    exact (Hn k e Hin).
Qed.

Lemma od_set_Forall {V} (P : Z * V -> Prop) i v (d : list (Z * V)) :
  P (i, v) -> Forall P d -> Forall P (od_set i v d).
Proof.
  intros Hv. induction d as [| [k x] d IH]; intros Hd; simpl.
  - constructor; [exact Hv | constructor].
  - inversion Hd; subst. destruct (i =? k); constructor; auto.
Qed.

Lemma frag_loop_decode_tables handlers n : forall i w w',
  (forall type h, handlers type = Some h -> preserves same_tables h) ->
  decode_tables w = true ->
  Wld.frag_loop handlers n i w = (Ok tt, w') ->
  decode_tables w' = true.
Proof.
  induction n as [| n IH]; intros i w w' Hh Hd H; simpl in H.
  - inversion H; subst. exact Hd.
  - apply bind_ok in H as ([] & w1 & Hstep & H).
    eapply IH; [exact Hh | | exact H].
    apply frag_step_tables in Hstep as (e & _ & Hf & _ & Hn & _); [| exact Hh].
    apply decode_tables_spec in Hd as [Hfr Hna].
    apply decode_tables_spec. rewrite Hf, Hn. split.
    + apply od_set_Forall; [reflexivity | exact Hfr].
    + destruct (_ || _); [| exact Hna].
      apply map_Forall_insert_2; [reflexivity | exact Hna].
Qed.

(** X11.  While the stream is decoded [getFrag] never raises.  From the
    header on and after any number of table entries, every entry of
    [frags] and [names] is a tuple [(i, name, type, frag)]; and in such a
    state [getFrag] adds one reference object and changes nothing else.  A
    positive [ref] refers to the fragment with index [ref - 1]; zero or a
    negative [ref] refers, by name, to the string at offset [-ref] of the
    string table.  The reference holds the payload of the fragment if the
    tables have it already, and [None] otherwise. *)
Theorem getFrag_during_decode (set_order : list Z -> list Z) :
  (forall data files fragCount w1 k w2,
     Wld.read_header (Wld.fresh data files) = (Ok fragCount, w1) ->
     Wld.frag_loop (Wld.fragHandlers set_order) k 0 w1 = (Ok tt, w2) ->
     decode_tables w2 = true) /\
  (forall w ref,
     decode_tables w = true ->
     Wld.getFrag ref w
     = (Ok (VFragRef (length (Wld.refs w))),
        Wld.set_refs (Wld.refs w ++ [getFrag_ref w ref]) w)).
Proof.
  split.
  - intros data files fragCount w1 k w2 Hhead Hloop.
    eapply frag_loop_decode_tables; [| | exact Hloop].
    + intros type h. apply same_tables_fragHandlers.
    + apply same_tables_read_header in Hhead as (F & N & _).
      apply decode_tables_spec. rewrite F, N. split; [constructor |].
      apply map_Forall_empty.
  - intros w ref. apply getFrag_total.
Qed.

(** X11 after the first entry of [lights_stream]: a reference to fragment
    index 0 holds the payload of the light source. *)
Lemma getFrag_during_decode_witness :
  let w := (Wld.frag_loop (Wld.fragHandlers no_sets) 1 0 (at_table lights_stream)).2 in
  Wld.getFrag 1 w
  = (Ok (VFragRef 0),
     Wld.set_refs [Wld.mkFragRef (Some 0) None (VObj 0)] w).
Proof.
  intros w.
  destruct (getFrag_during_decode no_sets) as [Hinv Hget].
  apply (Hget w 1).
  apply (Hinv lights_stream ∅ 3 (at_table lights_stream) 1%nat w);
    vm_compute; reflexivity.
Defined.

(** ** wld.py: convertObjects on a mesh without a name *)

Lemma forM__raises {A} (body : A -> M Wld.t unit) (R : Wld.t -> Wld.t -> Prop) :
  (forall w, R w w) ->
  (forall w1 w2 w3, R w1 w2 -> R w2 w3 -> R w1 w3) ->
  (forall x, preserves R (body x)) ->
  forall xs x w,
    x ∈ xs ->
    (forall w1, R w w1 -> exists e w2, body x w1 = (Raise e, w2)) ->
    exists e w', forM_ xs body w = (Raise e, w').
Proof.
  intros Hrefl Htrans Hb. induction xs as [| y xs IH]; intros x w Hin Hx.
  - inversion Hin.
  - simpl. unfold bind.
    destruct (body y w) as [[[] | e] w1] eqn:Ey; [| eauto].
    apply elem_of_cons in Hin as [-> | Hin].
    + destruct (Hx w (Hrefl w)) as (e & w2 & E). congruence.
    + apply (IH x w1 Hin). intros w2 H12. apply Hx.
      eapply Htrans; [eapply Hb; exact Ey | exact H12].
Qed.

Lemma convertObjects_mesh_unnamed fuel i d w :
  Wld.objs w !! i = Some (VDict d) ->
  dict_get "_name" d = Some VNone ->
  Wld.convertObjects_mesh fuel (VObj i) w = (Raise AttributeError, w).
Proof.
  intros Ho Hn. unfold Wld.convertObjects_mesh.
  assert (Hg : Wld.py_getitem fuel (VObj i) (Wld.key "_name") w = (Ok VNone, w)).
  { unfold Wld.py_getitem, Wld.getitem_with, Wld.getitem_val, Wld.deref, bind.
    rewrite Ho. unfold Wld.lift, Wld.key. cbn [Wld.getitem_plain].
    rewrite Hn. reflexivity. }
  rewrite (bind_step _ _ _ _ _ Hg). reflexivity.
Qed.

(** X25.  convertObjects does not return on a decoder that has a mesh
    fragment without a name: the payload of such a fragment has [None]
    under ["_name"], and the call [meshfrag["_name"].replace(...)] raises
    (an [AttributeError], unless an earlier mesh has raised before). *)
Theorem convertObjects_unnamed_mesh_raises (fuel : nat) (w : Wld.t)
  (meshes : list pyval) (i : Z) (d : list (string * pyval)) :
  Wld.byType w !! 0x36 = Some meshes ->
  VObj i ∈ meshes ->
  Wld.objs w !! i = Some (VDict d) ->
  dict_get "_name" d = Some VNone ->
  exists e w', Wld.convertObjects fuel w = (Raise e, w').
Proof.
  intros Hm Hin Ho Hn. unfold Wld.convertObjects.
  unfold bind at 1. unfold get at 1. rewrite Hm.
  destruct (forM__raises (Wld.convertObjects_mesh fuel) fragments_unchanged
              fragments_unchanged_refl fragments_unchanged_trans)
    with (xs := meshes) (x := VObj i) (w := w) as (e & w' & E).
  - intros x. apply preserves_convertObjects_mesh;
      [ exact fragments_unchanged_refl | exact fragments_unchanged_trans
      | intros [] x0; reflexivity | intros [] x0; reflexivity
      | intros [] x0; reflexivity ].
  - exact Hin.
  - intros w1 H1. exists AttributeError, w1.
    apply (convertObjects_mesh_unnamed fuel i d); [| exact Hn].
    rewrite H1. cbn. exact Ho.
  - exists e, w'. unfold bind. rewrite E. reflexivity.
Qed.

(** X25 on [unnamed_mesh_scene], whose only mesh has no name. *)
Lemma convertObjects_unnamed_mesh_raises_witness :
  exists e w', Wld.convertObjects 10 unnamed_mesh_scene = (Raise e, w').
Proof.
  apply (convertObjects_unnamed_mesh_raises 10 unnamed_mesh_scene [VObj 0] 0
           (match Wld.objs unnamed_mesh_scene !! 0 with
            | Some (VDict d) => d
            | _ => []
            end)).
  - vm_compute. reflexivity.
  - left.
  - vm_compute. reflexivity.
  - vm_compute. reflexivity.
Defined.

(** ** wld.py: the file names of a texture *)

(** X26.  The file-name fragment (type 0x03) holds one name more than the
    count the stream gives: when the handler returns, its list has
    [count + 1] strings. *)
Theorem frag_texname_count_plus_one (w : Wld.t) (v : pyval) (w' : Wld.t) :
  Wld.frag_texname w = (Ok v, w') ->
  exists count w1 l,
    Wld.uint w = (Ok count, w1) /\
    v = VList l /\
    length l = Z.to_nat (count + 1) /\
    Forall (fun x => exists s, x = VStr s) l.
Proof.
  unfold Wld.frag_texname. intros H.
  apply bind_ok in H as (count & w1 & Hc & H).
  apply bind_ok in H as (l & w2 & Hl & H).
  inversion H; subst. clear H.
  exists count, w1, l. split; [exact Hc |]. split; [reflexivity |].
  split; [eapply replicateM_length; exact Hl |].
  eapply replicateM_Forall; [| exact Hl].
  intros s x s' Hx.
  apply bind_ok in Hx as (len & s1 & _ & Hx).
  apply bind_ok in Hx as (raw & s2 & _ & Hx).
  inversion Hx; subst. eauto.
Qed.

(** X26 on the file-name fragment of "a.bmp", whose count field is 0. *)
Lemma frag_texname_count_plus_one_witness :
  let data := u32 0 ++ u16 6 ++ encodeString ("a.bmp" +:+ NUL) in
  let w := Wld.set_b (Buffer.mk data 0) (Wld.fresh [] ∅) in
  exists count w1 l,
    Wld.uint w = (Ok count, w1) /\
    VList [VStr "a.bmp"] = VList l /\
    length l = Z.to_nat (count + 1) /\
    Forall (fun x => exists s, x = VStr s) l.
Proof.
  intros data w.
  apply (frag_texname_count_plus_one w (VList [VStr "a.bmp"])
           (Wld.frag_texname w).2).
  vm_compute. reflexivity.
Defined.

